(** * Summarize-Scientific-Documents.ipynb: a shallow embedding

    The notebook is a linear script of SDK calls.  Its cells are embedded as
    programs of a small state-and-exception monad.  What the cloud services,
    the random generator and the operating system answer is not fixed by the
    notebook: it is a parameter of the development (the handler of section
    [Notebook]).  Every call is recorded with its answer in a log, so that
    statements about what a run did can be made on that log. *)

From stdpp Require Import gmap strings list sorting pretty.
From Stdlib Require Import ZArith QArith Ascii.

Local Open Scope nat_scope.

(** ** Python values the script handles *)

(** [str] read from an article file: Unicode code points.  Identifiers, paths
    and service enumerations are kept as [string]. *)
Definition codepoint := N.
Definition pystr := list codepoint.

Definition lit (s : string) : pystr :=
  map (λ a : Ascii.ascii, Ascii.N_of_ascii a) (String.list_ascii_of_string s).

Inductive exn :=
| UserWarning (msg : string)
| KeyError (key : string)
| TypeError (msg : string)
| NameError (name : string)
| IndexError (msg : string)
| SdkError (what : string).

(** The part of the answer of [describe_topics_detection_job] that the script
    reads.  A key that is absent from a dict is [None]. *)
Record DataConfig := mkConfig {
  S3Uri : option string
}.

Record JobProperties := mkProps {
  JobStatus : option string;
  OutputDataConfig : option DataConfig;
  InputDataConfig : option DataConfig
}.

Record DescribeResponse := mkResp {
  TopicsDetectionJobProperties : option JobProperties
}.

Record StartResponse := mkStart {
  JobId : option string
}.

(** Value bound to [describe_topics_detection_job_result]: the properties
    dict, or the default [[]] of [.get("TopicsDetectionJobProperties", [])]. *)
Inductive pyprops :=
| Props (p : JobProperties)
| EmptyList.


(** ** Tables *)

(** Rows of [topic-terms.csv], of [doc-topics.csv] and of the merged frame.
    A float that is not NaN is a rational; a missing value is [None]. *)
Module TopicTerms.
Record row := mk { topic : Z; term : string; weight : Q }.
End TopicTerms.

Module DocTopics.
Record row := mk { docname : string; topic : Z; proportion : Q }.
End DocTopics.

Module Results.
Record row := mk {
  docname : string; topic : Z; proportion : Q;
  term : option string
}.
Definition left (r : row) : DocTopics.row :=
  DocTopics.mk (docname r) (topic r) (proportion r).
End Results.

(** ** The pandas operations of cell 16 *)

(** [DataFrame.sort_values] on several columns is a stable sort: rows with
    equal keys keep their order.  Insertion from the right, before the first
    row that is not smaller. *)
Fixpoint insert_sorted {A} (leb : A → A → bool) (x : A) (l : list A) : list A :=
  match l with
  | [] => [x]
  | y :: l' => if leb x y then x :: l else y :: insert_sorted leb x l'
  end.

Definition sort_values {A} (leb : A → A → bool) (l : list A) : list A :=
  foldr (insert_sorted leb) [] l.

(** [["topic", "weight"], ascending=[True, False]] *)
Definition topic_weight_leb (a b : TopicTerms.row) : bool :=
  (TopicTerms.topic a <? TopicTerms.topic b)%Z
  || ((TopicTerms.topic a =? TopicTerms.topic b)%Z
      && Qle_bool (TopicTerms.weight b) (TopicTerms.weight a)).

(** [["docname", "proportion"], ascending=[True, False]] *)
Definition docname_proportion_leb (a b : DocTopics.row) : bool :=
  String.ltb (DocTopics.docname a) (DocTopics.docname b)
  || (String.eqb (DocTopics.docname a) (DocTopics.docname b)
      && Qle_bool (DocTopics.proportion b) (DocTopics.proportion a)).

(** [.groupby(["topic"])["term"]]: one group per distinct key, keys in
    ascending order, the rows of a group in the order of the frame. *)
Definition group_keys (keys : list Z) : list Z :=
  sort_values Z.leb (remove_dups keys).

Definition groupby_topic_term (rows : list TopicTerms.row) : list (Z * list string) :=
  map (λ k, (k, map TopicTerms.term
                    (filter (λ r, TopicTerms.topic r = k) rows)))
      (group_keys (map TopicTerms.topic rows)).

(** [.agg(lambda x: ", ".join(x))]: a Series indexed by topic. *)
Definition agg_join (sep : string) (groups : list (Z * list string)) : list (Z * string) :=
  map (λ g, (g.1, String.concat sep g.2)) groups.

Definition topics_of (csv : list TopicTerms.row) : list (Z * string) :=
  agg_join ", " (groupby_topic_term (sort_values topic_weight_leb csv)).

Definition docs_of (csv : list DocTopics.row) : list DocTopics.row :=
  sort_values docname_proportion_leb csv.

(** [pd.merge(docs, topics, how="left", on="topic")]: for every left row, in
    the order of the left frame, one row per matching right row, and one row
    with a missing value when there is none. *)
Definition merge_left (docs : list DocTopics.row) (topics : list (Z * string))
    : list Results.row :=
  flat_map
    (λ d, let mk := Results.mk (DocTopics.docname d) (DocTopics.topic d)
                               (DocTopics.proportion d) in
          match filter (λ kv : Z * string, kv.1 = DocTopics.topic d) topics with
          | [] => [mk None]
          | ms => map (λ kv, mk (Some kv.2)) ms
          end)
    docs.

Definition results_of (topic_terms : list TopicTerms.row)
    (doc_topics : list DocTopics.row) : list Results.row :=
  merge_left (docs_of doc_topics) (topics_of topic_terms).

(** ** The string operations of cell 23 *)

Definition newline : codepoint := 10%N.
Definition tab : codepoint := 9%N.
Definition space : codepoint := 32%N.

(** [str.replace(old, new)] for a one-character [old] and [new]. *)
Definition replace_char (old new : codepoint) (s : pystr) : pystr :=
  map (λ c, if N.eqb c old then new else c) s.

(** [f.read().replace("\n", " ").replace("\t", " ")] *)
Definition flatten (s : pystr) : pystr :=
  replace_char tab space (replace_char newline space s).

(** The fragment of Python's regular expressions the notebook uses.  Groups
    carry their number. *)
Inductive regex :=
| Eps
| Chr (c : codepoint)
| Dot                              (* any character but a newline *)
| Cat (r1 r2 : regex)
| Group (i : nat) (r : regex)
| Upto (n : nat) (r : regex).      (* r{,n}, greedy *)

(** Greedy repetition, at most [n] times: one more round of [step] is tried
    first, and the continuation is tried on what is there when that fails. *)
Fixpoint repeat_upto {R}
    (step : pystr → gmap nat pystr → (pystr → gmap nat pystr → option R) → option R)
    (n : nat) (s : pystr) (caps : gmap nat pystr)
    (k : pystr → gmap nat pystr → option R) : option R :=
  match n with
  | 0 => k s caps
  | S n' =>
      match step s caps (λ s' caps', repeat_upto step n' s' caps' k) with
      | Some x => Some x
      | None => k s caps
      end
  end.

(** Backtracking matcher at the head of [s].  The continuation receives what
    is left of the input and the groups captured so far. *)
Fixpoint match_here {R} (r : regex) (s : pystr) (caps : gmap nat pystr)
    (k : pystr → gmap nat pystr → option R) : option R :=
  match r with
  | Eps => k s caps
  | Chr c =>
      match s with
      | x :: s' => if N.eqb x c then k s' caps else None
      | [] => None
      end
  | Dot =>
      match s with
      | x :: s' => if N.eqb x newline then None else k s' caps
      | [] => None
      end
  | Cat r1 r2 => match_here r1 s caps (λ s' caps', match_here r2 s' caps' k)
  | Group i r1 =>
      match_here r1 s caps
        (λ s' caps', k s' (<[i := take (length s - length s') s]> caps'))
  | Upto n r1 => repeat_upto (λ s' caps' k', match_here r1 s' caps' k') n s caps k
  end.

Record MatchObject := mkMatch {
  groups : gmap nat pystr
}.

(** [m.group(i)]; [None] when the group took no part in the match. *)
Definition group (m : MatchObject) (i : nat) : option pystr := groups m !! i.

(** [re.search]: the match at the leftmost position that has one. *)
Fixpoint re_search (r : regex) (s : pystr) : option MatchObject :=
  match match_here r s ∅ (λ _ caps, Some (mkMatch caps)) with
  | Some m => Some m
  | None =>
      match s with
      | [] => None
      | _ :: s' => re_search r s'
      end
  end.

Definition re_literal (s : pystr) : regex := foldr (λ c r, Cat (Chr c) r) Eps s.

(** ["Background (.{,1000})"] *)
Definition background_pattern : regex :=
  Cat (re_literal (lit "Background ")) (Group 1 (Upto 1000 Dot)).

(** [needle in s], and what follows the first occurrence. *)
Fixpoint is_prefix (p s : pystr) : bool :=
  match p, s with
  | [], _ => true
  | c :: p', x :: s' => N.eqb x c && is_prefix p' s'
  | _ :: _, [] => false
  end.

Fixpoint after_first (needle s : pystr) : option pystr :=
  if is_prefix needle s then Some (drop (length needle) s)
  else match s with
       | [] => None
       | _ :: s' => after_first needle s'
       end.

Definition contains (needle s : pystr) : bool :=
  match after_first needle s with Some _ => true | None => false end.

(** ** Configuration objects *)

Record HuggingFaceModel := mkModel {
  transformers_version : string;
  pytorch_version : string;
  py_version : string;
  hub : list (string * string);
  role : string
}.

Record AsyncInferenceConfig := mkAsync {
  output_path : string;
  max_concurrent_invocations_per_instance : nat
}.

Record WaiterConfig := mkWaiter {
  max_attempts : nat;
  delay : nat
}.

(** ** Operations on the world outside the kernel *)

Inductive sdkE : Type → Type :=
| IPythonMagic (line : string) : sdkE unit
| Boto3Session : sdkE unit
| BotoClient (service_name : string) : sdkE unit
| BotoResource (service_name : string) : sdkE unit
| SagemakerSession : sdkE unit
| DefaultBucket : sdkE string
| Print (line : string) : sdkE unit
| PrintInputs (inputs : option pystr) : sdkE unit
| PPrint (value : string) : sdkE unit
| Display (frame : list Results.row) : sdkE unit
| DownloadData (path bucket key_prefix : string) : sdkE unit
| UploadData (path bucket key_prefix : string) : sdkE unit
| Sample (population : list string) (k : nat) : sdkE (list string)
| SampleRows (frame : list Results.row) : sdkE (list Results.row)
| S3PathJoin (parts : list string) : sdkE string
| ParseS3Url (url : string) : sdkE (string * string)
| GetExecutionRole : sdkE string
| StartTopicsDetectionJob (number_of_topics : nat)
    (input_s3_uri input_format output_s3_uri data_access_role_arn : string)
    : sdkE StartResponse
| DescribeTopicsDetectionJob (job_id : string) : sdkE DescribeResponse
| Sleep (secs : nat) : sdkE unit
| OsSystem (command : string) : sdkE Z
| ReadCsvTopicTerms (path : string) : sdkE (list TopicTerms.row)
| ReadCsvDocTopics (path : string) : sdkE (list DocTopics.row)
| OpenRead (path : string) : sdkE pystr
| Deploy (model : HuggingFaceModel) (async_inference_config : AsyncInferenceConfig)
    (initial_instance_count : nat) (instance_type : string) (wait : bool)
    : sdkE string
| PredictAsync (endpoint : string) (inputs : option pystr) : sdkE string
| GetResult (async_response : string) (waiter_config : WaiterConfig) : sdkE string
| DeleteEndpoint (endpoint : string) : sdkE unit
| DeleteObjects (bucket prefix : string) : sdkE unit.

(** Operations that run on the notebook instance: shell commands, the random
    generator, file reads, and the construction of client objects. *)
Definition is_local {T} (op : sdkE T) : bool :=
  match op with
  | IPythonMagic _ | Boto3Session | BotoClient _ | BotoResource _
  | Sample _ _ | SampleRows _ | S3PathJoin _ | ParseS3Url _
  | OsSystem _ | ReadCsvTopicTerms _ | ReadCsvDocTopics _ | OpenRead _ => true
  | _ => false
  end.

(** What the cell shows below itself. *)
Inductive output :=
| Line (s : string)
| Inputs (d : option pystr)
| Pretty (v : string)
| Frame (rows : list Results.row).

Inductive reply (T : Type) :=
| Returned (v : T)
| Threw (e : exn).
Arguments Returned {T} v.
Arguments Threw {T} e.

Inductive event :=
| Ev {T : Type} (op : sdkE T) (r : reply T).

Definition threw (ev : event) : option exn :=
  match ev with
  | Ev _ (Threw e) => Some e
  | Ev _ (Returned _) => None
  end.

(** Outcome of running a piece of the script.  [OutOfFuel] stands for a loop
    that has not finished within the number of iterations granted. *)
Inductive outcome (A : Type) :=
| Ok (a : A)
| Raised (e : exn)
| OutOfFuel.
Arguments Ok {A} a.
Arguments Raised {A} e.
Arguments OutOfFuel {A}.

Definition is_raised {A} (o : outcome A) : bool :=
  match o with Raised _ => true | _ => false end.

(** Control flow of one pass through a [while] body. *)
Inductive flow (S : Type) :=
| Continue (s : S)
| Break (s : S).
Arguments Continue {S} s.
Arguments Break {S} s.

(** The cloud stores the clean-up acts on, and whatever else there is. *)
Record World {Env : Type} := mkWorld {
  s3 : gmap string (gmap string string);     (* bucket, key, object *)
  endpoints : gset string;
  stdout : list output;
  env : Env
}.
Arguments World Env : clear implicits.
Arguments mkWorld {Env} s3 endpoints stdout env.

Record State {Env : Type} := mkState {
  world : World Env;
  log : list event      (* oldest call first *)
}.
Arguments State Env : clear implicits.
Arguments mkState {Env} world log.

(** ** The monad of the script *)

Section Notebook.

Context {Env : Type}.

(** What the services, the generator and the operating system answer. *)
Variable handle : ∀ T, sdkE T → World Env → reply T * World Env.

Definition show (o : output) (w : World Env) : reply unit * World Env :=
  (Returned (), mkWorld (s3 w) (endpoints w) (stdout w ++ [o]) (env w)).

(** [print], [pprint] and [display] write below the cell;
    [predictor.delete_endpoint()] and
    [bucket.objects.filter(Prefix=...).delete()] act on the stores; an
    operation on the notebook instance leaves the stores as they are; the
    rest is the environment's. *)
Definition perform {T} (op : sdkE T) (w : World Env) : reply T * World Env :=
  match op in sdkE T0 return reply T0 * World Env → reply T0 * World Env with
  | Print line => λ _, show (Line line) w
  | PrintInputs d => λ _, show (Inputs d) w
  | PPrint v => λ _, show (Pretty v) w
  | Display rows => λ _, show (Frame rows) w
  | DeleteEndpoint name => λ _,
      if decide (name ∈ endpoints w)
      then (Returned (),
            mkWorld (s3 w) (endpoints w ∖ {[name]}) (stdout w) (env w))
      else (Threw (SdkError "Could not find endpoint"), w)
  | DeleteObjects bucket prefix => λ _,
      match s3 w !! bucket with
      | Some objects =>
          let kept := filter (λ kv : string * string,
                                String.prefix prefix kv.1 = false) objects in
          (Returned (),
           mkWorld (<[bucket := kept]> (s3 w)) (endpoints w) (stdout w) (env w))
      | None => (Threw (SdkError "NoSuchBucket"), w)
      end
  | _ => λ answer,
      if is_local op
      then (answer.1, mkWorld (s3 w) (endpoints w) (stdout w) (env answer.2))
      else answer
  end (handle T op w).

Definition M (A : Type) : Type := State Env → outcome A * State Env.

Definition ret {A} (a : A) : M A := λ s, (Ok a, s).

Definition bind {A B} (m : M A) (k : A → M B) : M B :=
  λ s, match m s with
       | (Ok a, s') => k a s'
       | (Raised e, s') => (Raised e, s')
       | (OutOfFuel, s') => (OutOfFuel, s')
       end.

Definition raise {A} (e : exn) : M A := λ s, (Raised e, s).

(** A call: the world answers, the call is logged, an exception propagates. *)
Definition call {T} (op : sdkE T) : M T :=
  λ s, let (r, w) := perform op (world s) in
       let s' := mkState w (log s ++ [Ev op r]) in
       match r with
       | Returned v => (Ok v, s')
       | Threw e => (Raised e, s')
       end.

#[global] Instance M_ret : MRet M := @ret.
#[global] Instance M_bind : MBind M := λ A B k m, bind m k.

(** [while cond: body], with [break]. *)
Fixpoint while_loop {S} (fuel : nat) (cond : S → bool)
    (body : S → M (flow S)) (s : S) : M S :=
  match fuel with
  | 0 => λ st, (OutOfFuel, st)
  | S fuel' =>
      if cond s then
        c ← body s;
        match c with
        | Continue s' => while_loop fuel' cond body s'
        | Break s' => mret s'
        end
      else mret s
  end.

(** [for x in l: body] *)
Fixpoint for_each {A} (l : list A) (body : A → M unit) : M unit :=
  match l with
  | [] => mret ()
  | x :: l' => body x;; for_each l' body
  end.

(** [l[0]] *)
Definition subscript0 {A} (l : list A) : M A :=
  match l with
  | x :: _ => mret x
  | [] => raise (IndexError "list index out of range")
  end.

(** ** Cells 3 to 12: set-up, copy of the articles, job submission *)

Definition cell3 : M unit :=
  call (IPythonMagic "%pip install --disable-pip-version-check -U -q -r requirements.txt").

Definition s3_prefix : string := "sci-docs/data".

Definition cell4 : M string :=
  call Boto3Session;;
  call (BotoClient "s3");;
  call SagemakerSession;;
  s3_bucket ← call DefaultBucket;
  call (Print ("S3 path is " +:+ s3_bucket +:+ "/" +:+ s3_prefix));;
  mret s3_bucket.

Definition pmc_bucket : string := "pmc-oa-opendata".
Definition pmc_prefix : string := "oa_comm/txt/all/".
Definition local_raw_data_dir : string := "data/raw".

Definition article_names : list string := [
  "PMC1043862.txt"; "PMC1054881.txt"; "PMC1054888.txt"; "PMC1064076.txt";
  "PMC1064081.txt"; "PMC1064104.txt"; "PMC1064852.txt"; "PMC1064855.txt";
  "PMC1064860.txt"; "PMC1064883.txt"; "PMC1064892.txt"; "PMC1064893.txt";
  "PMC1065049.txt"; "PMC1065056.txt"; "PMC1065057.txt"; "PMC1065073.txt";
  "PMC1065100.txt"; "PMC1065320.txt"; "PMC1065326.txt"; "PMC1069647.txt";
  "PMC1069665.txt"; "PMC1073698.txt"; "PMC1074343.txt"; "PMC1074358.txt";
  "PMC1074751.txt"
].

Definition cell7 (s3_bucket : string) : M unit :=
  for_each article_names (λ article,
    call (Print article);;
    call (DownloadData local_raw_data_dir pmc_bucket (pmc_prefix +:+ article)));;
  call (UploadData local_raw_data_dir s3_bucket (s3_prefix +:+ "/raw")).

Definition cell9 : M unit :=
  l ← call (Sample article_names 1);
  art ← subscript0 l;
  call (Print art);;
  call (IPythonMagic ("!head data/raw/" +:+ art)).

Definition number_of_topics : nat := 25.

Definition cell12 (s3_bucket : string) : M string :=
  call (BotoClient "comprehend");;
  call (S3PathJoin [s3_bucket; s3_prefix; "raw"]);;
  input_s3_url ← call (S3PathJoin ["s3://"; s3_bucket; s3_prefix; "raw/"]);
  let input_doc_format := "ONE_DOC_PER_FILE" in
  output_s3_url ← call (S3PathJoin ["s3://"; s3_bucket; s3_prefix; "output/"]);
  data_access_role_arn ← call GetExecutionRole;
  start_topics_detection_job_result ←
    call (StartTopicsDetectionJob number_of_topics input_s3_url input_doc_format
            output_s3_url data_access_role_arn);
  job_id ← match JobId start_topics_detection_job_result with
           | Some j => mret j
           | None => raise (KeyError "JobId")
           end;
  call (Print ("Job " +:+ job_id +:+ " submitted"));;
  mret job_id.

(** ** Cell 14: poll the topic-detection job *)

Definition maximum_comprehend_status_checks : nat := 20.
Definition comprehend_status_check_sleep : nat := 60.

Record PollVars := mkPoll {
  number_of_comprehend_status_checks : nat;
  describe_topics_detection_job_result : option pyprops  (* None: not bound *)
}.

(** [describe_topics_detection_job_result['JobStatus']] *)
Definition subscript_JobStatus (r : option pyprops) : M string :=
  match r with
  | None => raise (NameError "describe_topics_detection_job_result")
  | Some EmptyList =>
      raise (TypeError "list indices must be integers or slices, not str")
  | Some (Props p) =>
      match JobStatus p with
      | Some s => mret s
      | None => raise (KeyError "JobStatus")
      end
  end.

(** [.get("TopicsDetectionJobProperties", [])] *)
Definition get_properties (resp : DescribeResponse) : pyprops :=
  match TopicsDetectionJobProperties resp with
  | Some p => Props p
  | None => EmptyList
  end.

Definition poll_body (job_id : string) (v : PollVars) : M (flow PollVars) :=
  resp ← call (DescribeTopicsDetectionJob job_id);
  let r := Some (get_properties resp) in
  let n := S (number_of_comprehend_status_checks v) in
  status ← subscript_JobStatus r;
  call (Print ("Checking " +:+ pretty n +:+ " of "
               +:+ pretty maximum_comprehend_status_checks
               +:+ ": Job " +:+ job_id +:+ " status is " +:+ status));;
  if String.eqb status "COMPLETED" then mret (Break (mkPoll n r))
  else
    call (Sleep comprehend_status_check_sleep);;
    mret (Continue (mkPoll n r)).

Definition poll_cond (v : PollVars) : bool :=
  number_of_comprehend_status_checks v <? maximum_comprehend_status_checks.

Definition poll_loop (fuel : nat) (job_id : string) : M PollVars :=
  while_loop fuel poll_cond (poll_body job_id) (mkPoll 0 None).

Definition cell14 (fuel : nat) (job_id : string) : M PollVars :=
  v ← poll_loop fuel job_id;
  status ← subscript_JobStatus (describe_topics_detection_job_result v);
  if negb (String.eqb status "COMPLETED") then
    raise (UserWarning
      ("Waited "
       +:+ pretty (comprehend_status_check_sleep * maximum_comprehend_status_checks)
       +:+ " seconds and Comprehend still not 'COMPLETED'"))
  else mret v.

(** ** Cells 16 and 18: fetch, parse and show the results *)

(** [describe_topics_detection_job_result[config]["S3Uri"]]: two
    subscripts, each with its own [KeyError]. *)
Definition subscript_S3Uri (config : string)
    (field : JobProperties → option DataConfig)
    (r : option pyprops) : M string :=
  match r with
  | None => raise (NameError "describe_topics_detection_job_result")
  | Some EmptyList =>
      raise (TypeError "list indices must be integers or slices, not str")
  | Some (Props p) =>
      match field p with
      | Some c =>
          match S3Uri c with
          | Some s => mret s
          | None => raise (KeyError "S3Uri")
          end
      | None => raise (KeyError config)
      end
  end.

(** The cell binds [results] only inside the [if]: [None] is "not bound". *)
Definition cell16 (r : option pyprops) : M (option (list Results.row)) :=
  status ← subscript_JobStatus r;
  if String.eqb status "COMPLETED" then
    uri ← subscript_S3Uri "OutputDataConfig" OutputDataConfig r;
    output_url ← call (ParseS3Url uri);
    call (DownloadData "data" output_url.1 output_url.2);;
    call (OsSystem "tar xvfz data/output.tar.gz -C data/");;
    topic_terms ← call (ReadCsvTopicTerms "data/topic-terms.csv");
    let topics := topics_of topic_terms in
    doc_topics ← call (ReadCsvDocTopics "data/doc-topics.csv");
    let docs := docs_of doc_topics in
    let results := merge_left docs topics in
    call (Display results);;
    mret (Some results)
  else mret None.

(** [os.path.join(a, b)] *)
Definition os_path_join (a b : string) : string :=
  if String.prefix "/" b then b
  else if String.eqb a "" then b
  else match String.get (String.length a - 1) a with
       | Some "/"%char => a +:+ b
       | _ => a +:+ "/" +:+ b
       end.

Definition cell18 (r : option pyprops) (results : option (list Results.row))
    : M unit :=
  status ← subscript_JobStatus r;
  if String.eqb status "COMPLETED" then
    uri ← subscript_S3Uri "InputDataConfig" InputDataConfig r;
    input_url ← call (ParseS3Url uri);
    frame ← match results with
            | Some rows => mret rows
            | None => raise (NameError "results")
            end;
    sample_results ← call (SampleRows frame);
    row ← match sample_results with
          | x :: _ => mret x
          | [] => raise (IndexError "single positional indexer is out-of-bounds")
          end;
    let docname := Results.docname row in
    let terms := default "nan" (Results.term row) in
    call (Print ("Document name is " +:+ docname));;
    call (Print ("Identified terms are " +:+ terms));;
    call (DownloadData "data" input_url.1 (os_path_join input_url.2 docname));;
    call (OsSystem ("head -n 25 data/" +:+ docname));;
    mret ()
  else mret ().

(** ** Cells 20 and 21: deploy the summarisation model *)

Definition cell20 : M HuggingFaceModel :=
  role ← call GetExecutionRole;
  let hub := [("HF_MODEL_ID", "alk/pegasus-scitldr");
              ("HF_TASK", "text2text-generation")] in
  mret (mkModel "4.17.0" "1.10.2" "py38" hub role).

Definition cell21 (s3_bucket : string) (huggingface_model : HuggingFaceModel)
    : M string :=
  let async_config :=
    mkAsync ("s3://" +:+ s3_bucket +:+ "/" +:+ s3_prefix +:+ "/tldr_output") 4 in
  call (Deploy huggingface_model async_config 1 "ml.m5.4xlarge" true).

(** ** Cell 23: pick an article with background information *)

Record SelectVars := mkSelect {
  art : option string;
  text : option pystr;
  result : option MatchObject
}.

Definition select_cond (v : SelectVars) : bool :=
  match result v with None => true | Some _ => false end.

Definition select_body (v : SelectVars) : M (flow SelectVars) :=
  l ← call (Sample article_names 1);
  art ← subscript0 l;
  call (Print art);;
  content ← call (OpenRead ("data/raw/" +:+ art));
  let text := flatten content in
  let result := re_search background_pattern text in
  mret (Continue (mkSelect (Some art) (Some text) result)).

Definition select_loop (fuel : nat) : M SelectVars :=
  while_loop fuel select_cond select_body (mkSelect None None None).

(** [dict = {"inputs": result.group(1)}] *)
Definition cell23 (fuel : nat) : M (option pystr) :=
  v ← select_loop fuel;
  inputs ← match result v with
           | Some m => mret (group m 1)
           | None => raise (TypeError "'NoneType' object has no attribute 'group'")
           end;
  call (PrintInputs inputs);;
  mret inputs.

(** ** Cell 24: asynchronous inference *)

(** [async_response.get_result(waiter)] is a call into the SageMaker SDK,
    as [predict_async] is: what it does while it waits is the SDK's, and the
    environment's here.  The cell hands it the response of [predict_async]
    and [WaiterConfig(max_attempts=24, delay=15)]. *)
Definition cell24 (predictor : string) (inputs : option pystr) : M string :=
  async_response ← call (PredictAsync predictor inputs);
  let waiter := mkWaiter 24 15 in
  result ← call (GetResult async_response waiter);
  call (PPrint result);;
  mret result.

(** ** Cell 26: clean up *)

Definition cell26 (predictor s3_bucket : string) : M unit :=
  call (DeleteEndpoint predictor);;
  call (BotoResource "s3");;
  call (DeleteObjects s3_bucket "sci-docs");;
  call (OsSystem "rm -rf data");;
  mret ().

(** ** The notebook, run from top to bottom *)

Definition run_all (fuel : nat) : M unit :=
  cell3;;
  s3_bucket ← cell4;
  cell7 s3_bucket;;
  cell9;;
  job_id ← cell12 s3_bucket;
  v ← cell14 fuel job_id;
  let r := describe_topics_detection_job_result v in
  results ← cell16 r;
  cell18 r results;;
  huggingface_model ← cell20;
  predictor ← cell21 s3_bucket huggingface_model;
  inputs ← cell23 fuel;
  cell24 predictor inputs;;
  cell26 predictor s3_bucket.

End Notebook.

Arguments M Env A : clear implicits.

(** ** Reading a log *)

(** The statuses the poll has observed, oldest first: one entry per answered
    [describe_topics_detection_job], [None] where the answer had no status. *)
Definition observed_status (ev : event) : option (option string) :=
  match ev with
  | Ev (DescribeTopicsDetectionJob _) (Returned resp) =>
      Some (TopicsDetectionJobProperties resp ≫= JobStatus)
  | _ => None
  end.

Definition observed_statuses (l : list event) : list (option string) :=
  omap observed_status l.

Definition is_describe (ev : event) : bool :=
  match ev with Ev (DescribeTopicsDetectionJob _) _ => true | _ => false end.

Definition is_sleep (ev : event) : bool :=
  match ev with Ev (Sleep _) _ => true | _ => false end.

Definition slept (ev : event) : option nat :=
  match ev with Ev (Sleep n) _ => Some n | _ => None end.

Definition count (p : event → bool) (l : list event) : nat :=
  length (List.filter p l).

Definition status_of (resp : DescribeResponse) : option string :=
  TopicsDetectionJobProperties resp ≫= JobStatus.

(** ** One pass of the poll and a whole poll, as relations on log segments *)

(** What one pass through the body of the poll appends to the log, and how it
    ends, when the counter is [n] on entry. *)
Inductive poll_step (job_id : string) (n : nat)
    : list event → outcome (flow PollVars) → Prop :=
| step_describe_threw e :
    poll_step job_id n
      [Ev (DescribeTopicsDetectionJob job_id) (Threw e)] (Raised e)
| step_no_status resp e :
    status_of resp = None →
    poll_step job_id n
      [Ev (DescribeTopicsDetectionJob job_id) (Returned resp)] (Raised e)
| step_completed resp line :
    status_of resp = Some "COMPLETED" →
    poll_step job_id n
      [Ev (DescribeTopicsDetectionJob job_id) (Returned resp);
       Ev (Print line) (Returned ())]
      (Ok (Break (mkPoll (S n) (Some (get_properties resp)))))
| step_sleep_threw resp st line e :
    status_of resp = Some st → st ≠ "COMPLETED" →
    poll_step job_id n
      [Ev (DescribeTopicsDetectionJob job_id) (Returned resp);
       Ev (Print line) (Returned ());
       Ev (Sleep comprehend_status_check_sleep) (Threw e)]
      (Raised e)
| step_continue resp st line :
    status_of resp = Some st → st ≠ "COMPLETED" →
    poll_step job_id n
      [Ev (DescribeTopicsDetectionJob job_id) (Returned resp);
       Ev (Print line) (Returned ());
       Ev (Sleep comprehend_status_check_sleep) (Returned ())]
      (Ok (Continue (mkPoll (S n) (Some (get_properties resp))))).

Inductive poll_run (job_id : string)
    : PollVars → list event → outcome PollVars → Prop :=
| run_exhausted v :
    poll_cond v = false → poll_run job_id v [] (Ok v)
| run_break v l v' :
    poll_cond v = true →
    poll_step job_id (number_of_comprehend_status_checks v) l (Ok (Break v')) →
    poll_run job_id v l (Ok v')
| run_raised v l e :
    poll_cond v = true →
    poll_step job_id (number_of_comprehend_status_checks v) l (Raised e) →
    poll_run job_id v l (Raised e)
| run_continue v l v' l' o :
    poll_cond v = true →
    poll_step job_id (number_of_comprehend_status_checks v) l (Ok (Continue v')) →
    poll_run job_id v' l' o →
    poll_run job_id v (l ++ l') o.

(** A status that is there and is not "COMPLETED". *)
Definition not_completed (st : option string) : Prop :=
  ∃ s : string, st = Some s ∧ s ≠ "COMPLETED".

(** The exception cell 14 raises when the budget is spent. *)
Definition timeout_warning : exn :=
  UserWarning "Waited 1200 seconds and Comprehend still not 'COMPLETED'".

(** The checks and the sleeps of a log, in order. *)
Inductive poll_mark := Check | Slept (secs : nat).

Definition poll_mark_of (ev : event) : option poll_mark :=
  match ev with
  | Ev (DescribeTopicsDetectionJob _) _ => Some Check
  | Ev (Sleep n) _ => Some (Slept n)
  | _ => None
  end.

(** [k] rounds of "check, then sleep 60 seconds". *)
Definition poll_rounds (k : nat) : list poll_mark :=
  concat (replicate k [Check; Slept comprehend_status_check_sleep]).

(** ** A scripted world, for running the notebook on concrete answers *)

Record Tally := mkTally {
  checks : nat;      (* status checks answered so far *)
  picks : nat        (* random draws answered so far *)
}.

Record Scenario := mkScenario {
  job_status : nat → string;        (* status at the k-th check *)
  pick : nat → string;              (* article of the k-th draw *)
  file : string → pystr;            (* text of a local file *)
  output_ready : bool;              (* does [get_result] find the output *)
  topic_terms_csv : list TopicTerms.row;
  doc_topics_csv : list DocTopics.row
}.

Definition play (sc : Scenario) (T : Type) (op : sdkE T) (w : World Tally)
    : reply T * World Tally :=
  let t := env w in
  let same := w in
  match op in sdkE T0 return reply T0 * World Tally with
  | IPythonMagic _ | Boto3Session | BotoClient _ | BotoResource _
  | SagemakerSession | Print _ | PrintInputs _ | PPrint _ | Display _
  | DownloadData _ _ _ | UploadData _ _ _ | Sleep _
  | DeleteEndpoint _ | DeleteObjects _ _ => (Returned (), same)
  | DefaultBucket => (Returned "sagemaker-bucket", same)
  | Sample _ _ =>
      (Returned [pick sc (picks t)],
       mkWorld (s3 w) (endpoints w) (stdout w)
               (mkTally (checks t) (S (picks t))))
  | SampleRows frame => (Returned (take 1 frame), same)
  | S3PathJoin parts => (Returned (String.concat "/" parts), same)
  | ParseS3Url url => (Returned ("sagemaker-bucket", url), same)
  | GetExecutionRole => (Returned "arn:aws:iam::role", same)
  | StartTopicsDetectionJob _ _ _ _ _ => (Returned (mkStart (Some "job-1")), same)
  | DescribeTopicsDetectionJob _ =>
      (Returned (mkResp (Some (mkProps (Some (job_status sc (checks t)))
                                       (Some (mkConfig (Some "s3://sagemaker-bucket/sci-docs/data/output/output.tar.gz")))
                                       (Some (mkConfig (Some "s3://sagemaker-bucket/sci-docs/data/raw/")))))),
       mkWorld (s3 w) (endpoints w) (stdout w)
               (mkTally (S (checks t)) (picks t)))
  | OsSystem _ => (Returned 0%Z, same)
  | ReadCsvTopicTerms _ => (Returned (topic_terms_csv sc), same)
  | ReadCsvDocTopics _ => (Returned (doc_topics_csv sc), same)
  | OpenRead path => (Returned (file sc path), same)
  | Deploy _ _ _ _ _ =>
      (Returned "pegasus-endpoint",
       mkWorld (s3 w) (endpoints w ∪ {["pegasus-endpoint"]}) (stdout w) t)
  | PredictAsync _ _ =>
      (Returned "s3://sagemaker-bucket/sci-docs/data/tldr_output/1.out", same)
  | GetResult _ _ =>
      (if output_ready sc then Returned "summary"
       else Threw (SdkError "PollingTimeoutError"),
       same)
  end.

Definition start_state (objects : gmap string string) : State Tally :=
  mkState (mkWorld {["sagemaker-bucket" := objects]} ∅ [] (mkTally 0 0)) [].

(** The job is in progress at the first two checks and completed at the
    third; the first article drawn has no background section, the second
    has one. *)
Definition scenario_ok : Scenario :=
  mkScenario
    (λ k, if k <? 2 then "IN_PROGRESS" else "COMPLETED")
    (λ k, if k =? 1 then "PMC1043862.txt" else "PMC1054881.txt")
    (λ path, if String.eqb path "data/raw/PMC1043862.txt"
             then lit "Abstract only."
             else lit ("Title" +:+ String (ascii_of_nat 10) ("Background Topic models" +:+ String (ascii_of_nat 9) "help." +:+ String (ascii_of_nat 10) "Methods")))
    true
    [TopicTerms.mk 1 "gene" (1#2); TopicTerms.mk 0 "cell" (1#4);
     TopicTerms.mk 1 "protein" (3#4); TopicTerms.mk 0 "tumor" (1#3)]
    [DocTopics.mk "b.txt" 1 (9#10); DocTopics.mk "a.txt" 0 (1#2);
     DocTopics.mk "a.txt" 7 (1#2)].

(** The job fails: it never reaches "COMPLETED". *)
Definition scenario_failed : Scenario :=
  mkScenario (λ _, "FAILED") (pick scenario_ok) (file scenario_ok)
    (output_ready scenario_ok) [] [].

(** ** The articles on the notebook instance *)

Definition article_path (article : string) : string := "data/raw/" +:+ article.

(** The environment draws from the population it is given and reads the
    files [files] (path to text), and neither operation fails. *)
Definition local_articles {Env : Type}
    (handle : ∀ T, sdkE T → World Env → reply T * World Env)
    (files : string → pystr) : Prop :=
  (∀ w, ∃ a w', a ∈ article_names
          ∧ perform handle (Sample article_names 1) w = (Returned [a], w'))
  ∧ (∀ path w, ∃ w',
          perform handle (OpenRead path) w = (Returned (files path), w')).

Definition has_background (content : pystr) : bool :=
  contains (lit "Background ") (flatten content).


Definition flow_state {S} (c : flow S) : S :=
  match c with Continue s | Break s => s end.

(** The three calls of one pass through the selection loop. *)
Definition selection_pass (a : string) (rest : list string) (content : pystr)
    : list event :=
  [Ev (Sample article_names 1) (Returned (a :: rest));
   Ev (Print a) (Returned ());
   Ev (OpenRead (article_path a)) (Returned content)].

(** A world in which every draw gives the article [a]. *)
Definition scenario_always (a : string) (files : string → pystr) : Scenario :=
  mkScenario (λ _, "COMPLETED") (λ _, a) files true [] [].

(** The object stored under [key] in [bucket], if any. *)
Definition object_at {Env : Type} (w : World Env) (bucket key : string)
    : option string :=
  s3 w !! bucket ≫= λ objects, objects !! key.

(** ** Reading the log of a whole run *)

Definition total_slept (l : list event) : nat := sum_list (omap slept l).

Definition clean (ev : event) : Prop := threw ev = None.

(** No call of the segment raised, or the last one did and the run ended
    with its exception. *)
Definition fail_stop_log {A} (l : list event) (o : outcome A) : Prop :=
  Forall clean l
  ∨ ∃ l' ev e, l = l' ++ [ev] ∧ Forall clean l' ∧ threw ev = Some e
               ∧ o = Raised e.

(** A program that stops at the first call that raises and makes at most
    [n] calls that satisfy [p]. *)
Definition disciplined {Env A : Type} (p : event → bool) (n : nat)
    (m : M Env A) : Prop :=
  ∀ s, ∃ l, log (m s).2 = log s ++ l
    ∧ fail_stop_log l (m s).1
    ∧ (is_raised (m s).1 = false → Forall clean l)
    ∧ count p l ≤ n.

(** ** The shape of the log of a whole run *)









(** ** The guard of the result cells *)

(** [describe_topics_detection_job_result['JobStatus']], when it is there. *)
Definition last_status (r : option pyprops) : option string :=
  match r with
  | Some (Props p) => JobStatus p
  | _ => None
  end.

(** The steps of cells 16 and 18 that fetch, unpack, parse and show the
    results: a download into ["data"], the [tar] command, the two
    [read_csv] and the [display] of the merged table. *)
Definition is_result_step (ev : event) : bool :=
  match ev with
  | Ev (DownloadData path _ _) _ => String.eqb path "data"
  | Ev (OsSystem command) _ =>
      String.eqb command "tar xvfz data/output.tar.gz -C data/"
  | Ev (ReadCsvTopicTerms _) _ | Ev (ReadCsvDocTopics _) _
  | Ev (Display _) _ => true
  | _ => false
  end.

(** Every result step of the log comes after a status check, and the last
    status observed before it is "COMPLETED". *)
Definition guarded (l : list event) : Prop :=
  ∀ l1 ev l2, l = l1 ++ ev :: l2 → is_result_step ev = true →
              last (observed_statuses l1) = Some (Some "COMPLETED").

(** [guarded], and the last status observed is "COMPLETED". *)
Definition completed (l : list event) : Prop :=
  guarded l ∧ last (observed_statuses l) = Some (Some "COMPLETED").

Definition keeps {Env A : Type} (I : list event → Prop) (m : M Env A) : Prop :=
  ∀ s, I (log s) → I (log (m s).2).

(** A world at clean-up time: the endpoint is up, and the session bucket
    holds an article, a result of the job and an object of another
    project. *)
Definition cleanup_state : State Tally :=
  mkState
    (mkWorld
       {["sagemaker-bucket" :=
           {["sci-docs/data/raw/PMC1043862.txt" := "Abstract only.";
             "sci-docs/data/output/output.tar.gz" := "archive";
             "other-project/model.tar.gz" := "weights"]} ]}
       {["pegasus-endpoint"]} [] (mkTally 0 0))
    [].

(** ** More of the status poll: answers without a status, lines printed *)

(** What [describe_topics_detection_job_result['JobStatus']] raises on an
    answer without "TopicsDetectionJobProperties" (the default [[]] is
    subscripted with a string) or without "JobStatus". *)
Definition malformed_error (resp : DescribeResponse) : exn :=
  match TopicsDetectionJobProperties resp with
  | None => TypeError "list indices must be integers or slices, not str"
  | Some _ => KeyError "JobStatus"
  end.

(** The line the poll prints at its [n]-th check. *)
Definition checking_line (n : nat) (job_id status : string) : string :=
  "Checking " +:+ pretty n +:+ " of "
  +:+ pretty maximum_comprehend_status_checks
  +:+ ": Job " +:+ job_id +:+ " status is " +:+ status.

Definition printed (ev : event) : option string :=
  match ev with Ev (Print line) _ => Some line | _ => None end.

(** The statuses that were there, in the order observed. *)
Definition present_statuses (l : list event) : list string :=
  omap id (observed_statuses l).

(** The world of [sc], except that the answer to the check number [k]
    (from 0) has no "TopicsDetectionJobProperties". *)
Definition play_without_properties (sc : Scenario) (k : nat) (T : Type)
    (op : sdkE T) (w : World Tally) : reply T * World Tally :=
  match op in sdkE T0 return reply T0 * World Tally → reply T0 * World Tally with
  | DescribeTopicsDetectionJob _ => λ answer,
      if checks (env w) =? k then (Returned (mkResp None), answer.2) else answer
  | _ => λ answer, answer
  end (play sc T op w).

(** ** Reading the log of the copy of the articles (cell 7) *)

(** The arguments [(path, bucket, key_prefix)] of a download, of an upload. *)
Definition download_of (ev : event) : option (string * string * string) :=
  match ev with
  | Ev (DownloadData path bucket key_prefix) _ => Some (path, bucket, key_prefix)
  | _ => None
  end.

Definition upload_of (ev : event) : option (string * string * string) :=
  match ev with
  | Ev (UploadData path bucket key_prefix) _ => Some (path, bucket, key_prefix)
  | _ => None
  end.

(** [download_data(local_raw_data_dir, bucket=pmc_bucket,
    key_prefix=pmc_prefix + article)] *)
Definition article_download (article : string) : string * string * string :=
  (local_raw_data_dir, pmc_bucket, pmc_prefix +:+ article).

(** ** Reading the log of clean-up (cell 26) *)

Definition is_shell (ev : event) : bool :=
  match ev with Ev (OsSystem _) _ => true | _ => false end.

Definition endpoint_not_found : exn := SdkError "Could not find endpoint".

(** ** Values handed from one cell to the next *)

Section Handed.

Context {V : Type}.
Variable source : event → option V.     (* the value a call returned *)
Variable is_use : event → bool.         (* the calls that are given one *)
Variable fits : V → event → bool.       (* the call is given this value *)

(** Every use comes after a call that returned a value, and fits the value
    returned last before it. *)
Definition follows (l : list event) : Prop :=
  ∀ l1 ev l2, l = l1 ++ ev :: l2 → is_use ev = true →
    ∃ v, last (omap source l1) = Some v ∧ fits v ev = true.

(** [follows], and [v] is the value returned last. *)
Definition settled (v : V) (l : list event) : Prop :=
  follows l ∧ last (omap source l) = Some v.

(** A call that returns a new value, or a use that does not fit [v]. *)
Definition strays (v : V) (ev : event) : bool :=
  match source ev with
  | Some _ => true
  | None => is_use ev && negb (fits v ev)
  end.

(** [m] keeps [follows]; when it ends normally with [a], the value returned
    last is [inj a]. *)
Definition settles {Env A : Type} (inj : A → V) (m : M Env A) : Prop :=
  ∀ s, follows (log s) →
       follows (log (m s).2)
       ∧ ∀ a, (m s).1 = Ok a → settled (inj a) (log (m s).2).

End Handed.

(** *** The session bucket: [s3_bucket = sagemaker_session.default_bucket()] *)





(** *** The endpoint: [predictor = huggingface_model.deploy(...)] *)

Definition deployed_endpoint (ev : event) : option string :=
  match ev with
  | Ev (Deploy _ _ _ _ _) (Returned endpoint) => Some endpoint
  | _ => None
  end.

Definition names_endpoint (ev : event) : bool :=
  match ev with
  | Ev (PredictAsync _ _) _ | Ev (DeleteEndpoint _) _ => true
  | _ => false
  end.

Definition on_endpoint (endpoint : string) (ev : event) : bool :=
  match ev with
  | Ev (PredictAsync e _) _ | Ev (DeleteEndpoint e) _ => String.eqb e endpoint
  | _ => true
  end.

Definition endpoint_flow : list event → Prop :=
  follows deployed_endpoint names_endpoint on_endpoint.

(** *** The job: [job_id = start_topics_detection_job_result["JobId"]] *)

Definition started_job (ev : event) : option (option string) :=
  match ev with
  | Ev (StartTopicsDetectionJob _ _ _ _ _) (Returned resp) => Some (JobId resp)
  | _ => None
  end.

Definition of_job (job : option string) (ev : event) : bool :=
  match ev with
  | Ev (DescribeTopicsDetectionJob job_id) _ =>
      match job with
      | Some j => String.eqb job_id j
      | None => false
      end
  | _ => true
  end.

Definition job_flow : list event → Prop :=
  follows started_job is_describe of_job.

(** ** Reading the log of the job submission (cell 12) *)

(** The arguments of [start_topics_detection_job] and its answer. *)
Definition start_of (ev : event)
    : option (nat * string * string * string * string * reply StartResponse) :=
  match ev with
  | Ev (StartTopicsDetectionJob n input_url format output_url role) r =>
      Some (n, input_url, format, output_url, role, r)
  | _ => None
  end.

(** The parts given to an [s3_path_join] that returned, and the URL it
    returned. *)
Definition path_join_of (ev : event) : option (list string * string) :=
  match ev with
  | Ev (S3PathJoin parts) (Returned url) => Some (parts, url)
  | _ => None
  end.

Definition execution_role_of (ev : event) : option string :=
  match ev with
  | Ev GetExecutionRole (Returned role) => Some role
  | _ => None
  end.

(** The call raised [e], and it is the last of [l]. *)
Definition ends_with_failure (l : list event) (e : exn) : Prop :=
  ∃ l' ev, l = l' ++ [ev] ∧ threw ev = Some e.

(** ** What is sent to the endpoint *)

Definition is_predict (ev : event) : bool :=
  match ev with Ev (PredictAsync _ _) _ => true | _ => false end.

(** The text a cell hands to [predict_async]: at most 1000 characters, none
    of them a newline or a tab. *)
Definition short_and_flat (inputs : option pystr) : Prop :=
  ∃ g, inputs = Some g ∧ length g ≤ 1000 ∧ (newline ∉ g) ∧ (tab ∉ g).

Definition payload_ok (ev : event) : Prop :=
  match ev with
  | Ev (PredictAsync _ inputs) _ => short_and_flat inputs
  | _ => True
  end.

(** The log from [l0] on. *)
Definition since (l0 : list event) (P : event → Prop) (l : list event) : Prop :=
  ∃ l', l = l0 ++ l' ∧ Forall P l'.

(** ** The order of the tables of cell 16 *)

From Stdlib Require OrderedTypeEx.

(** [docname] ascending, then [proportion] descending. *)
Definition docname_then_proportion (a b : Results.row) : Prop :=
  String.ltb (Results.docname a) (Results.docname b) = true
  ∨ (Results.docname a = Results.docname b
     ∧ (Results.proportion b <= Results.proportion a)%Q).

(** ** Reading the log of the results cell (cell 16) *)

Definition parsed_url (ev : event) : option (string * (string * string)) :=
  match ev with
  | Ev (ParseS3Url url) (Returned parts) => Some (url, parts)
  | _ => None
  end.

(** The tables the two [read_csv] returned, and the table displayed. *)
Definition topic_terms_read (ev : event) : option (list TopicTerms.row) :=
  match ev with
  | Ev (ReadCsvTopicTerms _) (Returned rows) => Some rows
  | _ => None
  end.

Definition doc_topics_read (ev : event) : option (list DocTopics.row) :=
  match ev with
  | Ev (ReadCsvDocTopics _) (Returned rows) => Some rows
  | _ => None
  end.

Definition displayed (ev : event) : option (list Results.row) :=
  match ev with
  | Ev (Display frame) _ => Some frame
  | _ => None
  end.

(** [describe_topics_detection_job_result["OutputDataConfig"]["S3Uri"]],
    when it is there. *)
Definition output_uri (r : option pyprops) : option string :=
  match r with
  | Some (Props p) => OutputDataConfig p ≫= S3Uri
  | _ => None
  end.

(** ** Reading the log of the sample cell (cell 18) *)

(** [describe_topics_detection_job_result["InputDataConfig"]["S3Uri"]],
    when it is there. *)
Definition input_uri (r : option pyprops) : option string :=
  match r with
  | Some (Props p) => InputDataConfig p ≫= S3Uri
  | _ => None
  end.

(** The key that [d[config]["S3Uri"]] misses, when it misses one. *)
Definition missing_key (config : string) (c : option DataConfig) : string :=
  match c with
  | None => config
  | Some _ => "S3Uri"
  end.

(** The frame given to [sample()] and the rows it returned. *)
Definition sampled (ev : event)
    : option (list Results.row * list Results.row) :=
  match ev with
  | Ev (SampleRows frame) (Returned rows) => Some (frame, rows)
  | _ => None
  end.

Definition shell_of (ev : event) : option string :=
  match ev with
  | Ev (OsSystem command) _ => Some command
  | _ => None
  end.

(** ** Clean-up comes last *)

(** The calls that delete: the endpoint, the objects, the local files. *)
Definition deletes (ev : event) : bool :=
  match ev with
  | Ev (DeleteEndpoint _) _ | Ev (DeleteObjects _ _) _ => true
  | Ev (OsSystem command) _ => String.prefix "rm " command
  | _ => false
  end.

(** The calls of cell 26. *)
Definition is_clean_up (ev : event) : bool :=
  match ev with
  | Ev (DeleteEndpoint _) _ | Ev (DeleteObjects _ _) _ => true
  | Ev (BotoResource service) _ => String.eqb service "s3"
  | Ev (OsSystem command) _ => String.eqb command "rm -rf data"
  | _ => false
  end.

(** From [l0] on: calls that delete nothing, then calls of clean-up only. *)
Definition clean_up_last (l0 l : list event) : Prop :=
  ∃ l1 l2, l = l0 ++ l1 ++ l2
    ∧ Forall (λ ev, deletes ev = false) l1
    ∧ Forall (λ ev, is_clean_up ev = true) l2.

Definition leads {Env A : Type} (I J : list event → Prop) (m : M Env A) : Prop :=
  ∀ s, I (log s) → J (log (m s).2).

(** ** A failure skips clean-up *)

(** From [l0] on, nothing was deleted, unless the run ended with what a call
    of clean-up raised; and nothing was deleted when a loop did not end. *)
Definition left_in_place {A} (l0 : list event) (o : outcome A)
    (l : list event) : Prop :=
  ∃ l', l = l0 ++ l'
    ∧ match o with
      | Ok _ => True
      | OutOfFuel => Forall (λ ev, deletes ev = false) l'
      | Raised e =>
          Forall (λ ev, deletes ev = false) l'
          ∨ ∃ l1 ev, l' = l1 ++ [ev] ∧ is_clean_up ev = true
                     ∧ threw ev = Some e
      end.

Definition unwinds {Env A : Type} (l0 : list event) (m : M Env A) : Prop :=
  ∀ s, since l0 (λ ev, deletes ev = false) (log s) →
       left_in_place l0 (m s).1 (log (m s).2).

(** ** The places in S3 the notebook names *)




(** ** An answer of the scripted world *)

(** The answer of a completed job, as [scenario_ok] gives it. *)
Definition completed_answer : option pyprops :=
  Some (Props (mkProps (Some "COMPLETED")
                 (Some (mkConfig
                          (Some "s3://sagemaker-bucket/sci-docs/data/output/output.tar.gz")))
                 (Some (mkConfig
                          (Some "s3://sagemaker-bucket/sci-docs/data/raw/"))))).

(** * Properties *)

Section MonadFacts.

Context {Env : Type}.
Variable handle : ∀ T, sdkE T → World Env → reply T * World Env.

Lemma bind_run {A B} (m : M Env A) (k : A → M Env B) (s : State Env) :
  (m ≫= k) s =
  match m s with
  | (Ok a, s') => k a s'
  | (Raised e, s') => (Raised e, s')
  | (OutOfFuel, s') => (OutOfFuel, s')
  end.
Proof. reflexivity. Qed.

Lemma call_run {T} (op : sdkE T) (s : State Env) :
  call handle op s =
  (match (perform handle op (world s)).1 with
   | Returned v => Ok v
   | Threw e => Raised e
   end,
   mkState (perform handle op (world s)).2
           (log s ++ [Ev op (perform handle op (world s)).1])).
Proof.
  unfold call. destruct (perform handle op (world s)) as [[v|e] w]; reflexivity.
Qed.

Lemma print_run (line : string) (s : State Env) :
  call handle (Print line) s =
  (Ok (), mkState (show (Line line) (world s)).2
                  (log s ++ [Ev (Print line) (Returned ())])).
Proof. reflexivity. Qed.

Lemma ret_bind_run {A B} (a : A) (k : A → M Env B) (s : State Env) :
  (mret a ≫= k) s = k a s.
Proof. reflexivity. Qed.

Lemma ret_run {A} (a : A) (s : State Env) : (mret a : M Env A) s = (Ok a, s).
Proof. reflexivity. Qed.

Lemma raise_bind_run {A B} (e : exn) (k : A → M Env B) (s : State Env) :
  (raise e ≫= k) s = (Raised e, s).
Proof. reflexivity. Qed.

End MonadFacts.

Section Poll.

Context {Env : Type}.
Variable handle : ∀ T, sdkE T → World Env → reply T * World Env.

Lemma poll_body_step (job_id : string) (v : PollVars) (s : State Env) :
  ∃ l, poll_step job_id (number_of_comprehend_status_checks v) l
         (poll_body handle job_id v s).1
       ∧ log (poll_body handle job_id v s).2 = log s ++ l.
Proof.
  unfold poll_body. rewrite bind_run, call_run.
  destruct (perform handle (DescribeTopicsDetectionJob job_id) (world s))
    as [[resp|e] w1] eqn:Hd; simpl.
  2:{ eexists; split; [apply step_describe_threw | reflexivity]. }
  destruct resp as [[[[st|] out inp]|]]; simpl;
    try (eexists; split; [|reflexivity]; by apply step_no_status).
  set (resp := mkResp (Some (mkProps (Some st) out inp))) in *.
  rewrite ret_bind_run, bind_run, print_run; simpl.
  destruct (String.eqb_spec st "COMPLETED") as [->|Hne]; simpl.
  - eexists; split; [by apply (step_completed _ _ resp)|].
    simpl. by rewrite <- app_assoc.
  - rewrite bind_run, call_run.
    destruct (perform handle (Sleep comprehend_status_check_sleep) _)
      as [[[]|e] w2] eqn:Hs; simpl.
    + eexists; split; [by apply (step_continue _ _ resp st)|].
      simpl. by rewrite <- !app_assoc.
    + eexists; split; [by apply (step_sleep_threw _ _ resp st)|].
      simpl. by rewrite <- !app_assoc.
Qed.

Lemma poll_loop_run (job_id : string) (fuel : nat) :
  ∀ (v : PollVars) (s : State Env),
    maximum_comprehend_status_checks - number_of_comprehend_status_checks v < fuel →
    ∃ l, poll_run job_id v l
           (while_loop fuel poll_cond (poll_body handle job_id) v s).1
         ∧ log (while_loop fuel poll_cond (poll_body handle job_id) v s).2
           = log s ++ l.
Proof.
  induction fuel as [|fuel IH]; intros v s Hfuel; [lia|].
  simpl. destruct (poll_cond v) eqn:Hc.
  2:{ exists []. split; [by apply run_exhausted | by rewrite app_nil_r]. }
  rewrite bind_run.
  destruct (poll_body_step job_id v s) as (l & Hstep & Hlog).
  destruct (poll_body handle job_id v s) as [[[v'|v']|e|] s1]; simpl in *.
  - assert (number_of_comprehend_status_checks v'
            = S (number_of_comprehend_status_checks v)) as Hn
      by (inversion Hstep; reflexivity).
    destruct (IH v' s1) as (l' & Hrun & Hlog').
    { unfold poll_cond in Hc. apply Nat.ltb_lt in Hc. lia. }
    exists (l ++ l'). split; [by eapply run_continue|].
    by rewrite Hlog', Hlog, app_assoc.
  - exists l. split; [by apply run_break | done].
  - exists l. split; [by apply run_raised | done].
  - inversion Hstep.
Qed.

End Poll.

(** ** What a poll does, read off its log segment *)

Section PollRun.

Variable job_id : string.

Lemma poll_step_statuses n l o :
  poll_step job_id n l o →
  match o with
  | Ok (Continue v') =>
      ∃ resp st, observed_statuses l = [Some st] ∧ st ≠ "COMPLETED"
        ∧ status_of resp = Some st
        ∧ v' = mkPoll (S n) (Some (get_properties resp))
        ∧ omap poll_mark_of l = [Check; Slept comprehend_status_check_sleep]
        ∧ Forall (λ ev, threw ev = None) l
  | Ok (Break v') =>
      ∃ resp, observed_statuses l = [Some "COMPLETED"]
        ∧ status_of resp = Some "COMPLETED"
        ∧ v' = mkPoll (S n) (Some (get_properties resp))
        ∧ omap poll_mark_of l = [Check]
        ∧ (∃ d p, l = [d; p] ∧ is_describe d = true ∧ is_describe p = false)
  | Raised e =>
      (Some "COMPLETED" ∉ observed_statuses l)
      ∧ ((omap poll_mark_of l = [Check])
         ∨ (omap poll_mark_of l = [Check; Slept comprehend_status_check_sleep]))
      ∧ ((Exists (λ ev, threw ev ≠ None) l) ∨ (None ∈ observed_statuses l))
  | OutOfFuel => False
  end.
Proof.
  unfold observed_statuses.
  destruct 1 as [e|resp e Hst|resp line Hst|resp st line e Hst Hne|resp st line Hst Hne];
    unfold status_of in *; simpl; rewrite ?Hst.
  - split; [by intros ?%elem_of_nil|]. split; [by left|].
    left. by apply Exists_cons_hd.
  - split; [by intros [=]%list_elem_of_singleton|]. split; [by left|].
    right. by apply list_elem_of_singleton.
  - exists resp. repeat split; eauto.
  - split; [by intros [=]%list_elem_of_singleton|]. split; [by right|].
    left. do 2 apply Exists_cons_tl. by apply Exists_cons_hd.
  - exists resp, st. repeat split; eauto.
Qed.

Lemma observed_statuses_app l1 l2 :
  observed_statuses (l1 ++ l2) = observed_statuses l1 ++ observed_statuses l2.
Proof. apply omap_app. Qed.

Lemma count_app p l1 l2 : count p (l1 ++ l2) = count p l1 + count p l2.
Proof. unfold count. by rewrite List.filter_app, length_app. Qed.

Lemma poll_step_count n l o :
  poll_step job_id n l o → count is_describe l = 1.
Proof. by destruct 1. Qed.

Lemma poll_cond_false v :
  number_of_comprehend_status_checks v ≤ maximum_comprehend_status_checks →
  poll_cond v = false →
  number_of_comprehend_status_checks v = maximum_comprehend_status_checks.
Proof. unfold poll_cond. intros ? ?%Nat.ltb_ge. lia. Qed.

Lemma poll_run_fuel v l : ¬ poll_run job_id v l OutOfFuel.
Proof.
  intros H. remember OutOfFuel as o eqn:Ho.
  induction H as [| | |v l v' l' o Hc Hs Hr IH]; try discriminate. by apply IH.
Qed.

Lemma poll_run_raised v l e :
  poll_run job_id v l (Raised e) →
  (Some "COMPLETED" ∉ observed_statuses l)
  ∧ ((Exists (λ ev, threw ev ≠ None) l) ∨ (None ∈ observed_statuses l)).
Proof.
  intros H. remember (Raised e) as o eqn:Ho.
  induction H as [|v l v' Hc Hs|v l e' Hc Hs|v l v' l' o Hc Hs Hr IH];
    try discriminate.
  - apply poll_step_statuses in Hs as (? & _ & ?). done.
  - apply poll_step_statuses in Hs as (resp & st & Hobs & Hne & _).
    destruct (IH Ho) as [Hno Hbad].
    rewrite observed_statuses_app, Hobs. split.
    + intros [Hin|Hin]%elem_of_app; [|done].
      apply list_elem_of_singleton in Hin. congruence.
    + destruct Hbad as [Hbad|Hbad].
      * left. apply Exists_app. by right.
      * right. apply elem_of_app. by right.
Qed.

Lemma poll_run_count v l o :
  poll_run job_id v l o →
  number_of_comprehend_status_checks v ≤ maximum_comprehend_status_checks →
  count is_describe l
  ≤ maximum_comprehend_status_checks - number_of_comprehend_status_checks v.
Proof.
  induction 1 as [v Hc|v l v' Hc Hs|v l e' Hc Hs|v l v' l' o Hc Hs Hr IH];
    intros Hle.
  - unfold count. simpl. lia.
  - apply poll_step_count in Hs. apply Nat.ltb_lt in Hc. lia.
  - apply poll_step_count in Hs. apply Nat.ltb_lt in Hc. lia.
  - pose proof (poll_step_count _ _ _ Hs) as Hone.
    apply poll_step_statuses in Hs as (resp & st & _ & _ & _ & -> & _).
    apply Nat.ltb_lt in Hc. cbn [number_of_comprehend_status_checks] in IH.
    rewrite count_app. specialize (IH ltac:(lia)). lia.
Qed.

(** The checks and sleeps of a poll are an initial part of "check, sleep 60
    seconds", repeated once per check the budget still allows. *)
Lemma poll_run_marks v l o :
  poll_run job_id v l o →
  ∃ m, omap poll_mark_of l
       = take m (poll_rounds (maximum_comprehend_status_checks
                              - number_of_comprehend_status_checks v)).
Proof.
  induction 1 as [v Hc|v l v' Hc Hs|v l e' Hc Hs|v l v' l' o Hc Hs Hr IH].
  - by exists 0.
  - apply poll_step_statuses in Hs as (resp & _ & _ & _ & -> & _).
    apply Nat.ltb_lt in Hc.
    destruct (maximum_comprehend_status_checks
              - number_of_comprehend_status_checks v) as [|k] eqn:Hk; [lia|].
    by exists 1.
  - apply poll_step_statuses in Hs as (_ & [-> | ->] & _);
      apply Nat.ltb_lt in Hc;
      destruct (maximum_comprehend_status_checks
                - number_of_comprehend_status_checks v) as [|k] eqn:Hk;
      try lia; [by exists 1 | by exists 2].
  - apply poll_step_statuses in Hs as (resp & st & _ & _ & _ & -> & Hm & _).
    apply Nat.ltb_lt in Hc. cbn [number_of_comprehend_status_checks] in IH. destruct IH as [m IH].
    destruct (maximum_comprehend_status_checks
              - number_of_comprehend_status_checks v) as [|k] eqn:Hk; [lia|].
    replace (maximum_comprehend_status_checks
             - S (number_of_comprehend_status_checks v)) with k in IH by lia.
    exists (S (S m)). rewrite omap_app, Hm, IH. reflexivity.
Qed.

Lemma poll_run_ok v l v' :
  poll_run job_id v l (Ok v') →
  number_of_comprehend_status_checks v ≤ maximum_comprehend_status_checks →
  number_of_comprehend_status_checks v'
  = number_of_comprehend_status_checks v + count is_describe l
  ∧ number_of_comprehend_status_checks v' ≤ maximum_comprehend_status_checks
  ∧ ((l = [] ∧ v' = v ∧ poll_cond v = false)
     ∨ ∃ sts resp,
         observed_statuses l = sts ++ [status_of resp]
         ∧ Forall (λ st, ∃ s : string, st = Some s ∧ s ≠ "COMPLETED") sts
         ∧ is_Some (status_of resp)
         ∧ describe_topics_detection_job_result v' = Some (get_properties resp)
         ∧ count is_describe l = S (length sts)
         ∧ (status_of resp ≠ Some "COMPLETED" → poll_cond v' = false)).
Proof.
  intros H. remember (Ok v') as o eqn:Ho. revert v' Ho.
  induction H as [v Hc|v l v1 Hc Hs|v l e' Hc Hs|v l v1 l' o Hc Hs Hr IH];
    intros v' Ho Hle; try discriminate.
  - injection Ho as <-. split; [unfold count; simpl; lia|]. split; [done|].
    by left.
  - injection Ho as <-. pose proof (poll_step_count _ _ _ Hs) as Hone.
    apply poll_step_statuses in Hs as (resp & Hobs & Hst & -> & _).
    apply Nat.ltb_lt in Hc. simpl. split; [lia|]. split; [lia|].
    right. exists [], resp. rewrite Hobs, Hst. by repeat split.
  - pose proof (poll_step_count _ _ _ Hs) as Hone.
    apply poll_step_statuses in Hs as (resp & st & Hobs & Hne & Hst & -> & _).
    apply Nat.ltb_lt in Hc. cbn [number_of_comprehend_status_checks] in IH.
    destruct (IH v' Ho) as (Hn & Hmax & Hend); [lia|].
    rewrite count_app, Hone. split; [lia|]. split; [done|]. right.
    destruct Hend as [(-> & -> & Hc')|(sts & resp' & Hobs' & Hsts & Hsome & Hres & Hcnt & Hex)].
    + exists [], resp. rewrite app_nil_r, Hobs, Hst. simpl.
      repeat split; eauto. 
    + exists (Some st :: sts), resp'.
      rewrite observed_statuses_app, Hobs, Hobs'. simpl.
      repeat split; eauto.
Qed.

End PollRun.


Lemma not_completed_notin (sts : list (option string)) :
  Forall not_completed sts → Some "COMPLETED" ∉ sts.
Proof.
  intros H Hin. rewrite Forall_forall in H.
  destruct (H _ Hin) as (s & [= <-] & Hne). done.
Qed.

Section Cell14.

Context {Env : Type}.
Variable handle : ∀ T, sdkE T → World Env → reply T * World Env.

Lemma subscript_JobStatus_run (resp : DescribeResponse) (st : string)
    (s : State Env) :
  status_of resp = Some st →
  subscript_JobStatus (Some (get_properties resp)) s = (Ok st, s).
Proof.
  destruct resp as [[[[st'|] ? ?]|]]; unfold status_of; simpl; intros [=].
  by subst.
Qed.


(** The cell, in terms of its log segment: either the last check answered
    with a status and all earlier ones with a status other than "COMPLETED",
    or a call raised or an answer carried no status. *)
Lemma cell14_run (fuel : nat) (job_id : string) (s : State Env) :
  maximum_comprehend_status_checks < fuel →
  ∃ l, log (cell14 handle fuel job_id s).2 = log s ++ l
    ∧ count is_describe l ≤ maximum_comprehend_status_checks
    ∧ (∃ m, omap poll_mark_of l
            = take m (poll_rounds maximum_comprehend_status_checks))
    ∧ ((∃ v sts st,
          observed_statuses l = sts ++ [Some st]
          ∧ Forall not_completed sts
          ∧ count is_describe l = S (length sts)
          ∧ ((st = "COMPLETED"
              ∧ (cell14 handle fuel job_id s).1 = Ok v
              ∧ number_of_comprehend_status_checks v = count is_describe l)
             ∨ (st ≠ "COMPLETED"
                ∧ (cell14 handle fuel job_id s).1 = Raised timeout_warning
                ∧ count is_describe l = maximum_comprehend_status_checks)))
       ∨ (∃ e, (cell14 handle fuel job_id s).1 = Raised e
            ∧ (Some "COMPLETED" ∉ observed_statuses l)
            ∧ ((Exists (λ ev, threw ev ≠ None) l)
               ∨ (None ∈ observed_statuses l)))).
Proof.
  intros Hfuel. unfold cell14, poll_loop. rewrite bind_run.
  destruct (poll_loop_run handle job_id fuel (mkPoll 0 None) s)
    as (l & Hrun & Hlog); [cbn [number_of_comprehend_status_checks]; lia|].
  pose proof (poll_run_count _ _ _ _ Hrun) as Hcount.
  pose proof (poll_run_marks _ _ _ _ Hrun) as Hmarks.
  cbn [number_of_comprehend_status_checks] in Hcount, Hmarks.
  rewrite Nat.sub_0_r in Hcount, Hmarks. specialize (Hcount ltac:(lia)).
  destruct (while_loop fuel poll_cond (poll_body handle job_id) _ s)
    as [[v|e|] s1]; simpl in *.
  - destruct (poll_run_ok _ _ _ _ Hrun) as (Hn & Hmax & Hend);
      [cbn [number_of_comprehend_status_checks]; lia|].
    destruct Hend as [(_ & _ & Hc)
                     |(sts & resp & Hobs & Hsts & [st Hst] & Hres & Hcnt & Hex)];
      [done|].
    rewrite Hres, bind_run, (subscript_JobStatus_run _ st) by done.
    rewrite Hst in Hobs, Hex. cbn [number_of_comprehend_status_checks] in Hn.
    rewrite Nat.add_0_l in Hn.
    destruct (String.eqb_spec st "COMPLETED") as [->|Hne]; simpl;
      exists l; do 3 (split; [done|]); left.
    + exists v, sts, "COMPLETED". do 3 (split; [done|]). left. by repeat split.
    + exists v, sts, st. do 3 (split; [done|]). right.
      do 2 (split; [done|]).
      rewrite <- Hn. apply poll_cond_false; [done|]. apply Hex. congruence.
  - apply poll_run_raised in Hrun as [Hno Hbad].
    exists l. do 3 (split; [done|]). right. by exists e.
  - by apply poll_run_fuel in Hrun.
Qed.

End Cell14.

Section PollClaims.

Context {Env : Type}.
Variable handle : ∀ T, sdkE T → World Env → reply T * World Env.

(** C1.  The status poll of cell 14 raises if and only if none of its status
    checks observes "COMPLETED".  A check that observes "COMPLETED" is the
    last call to [describe_topics_detection_job] and the cell ends normally;
    when no call raises and every check observes a status other than
    "COMPLETED", all 20 checks are made and the [UserWarning] is raised. *)
Theorem poll_raises_iff_never_completed
    (fuel : nat) (job_id : string) (s : State Env) :
  maximum_comprehend_status_checks < fuel →
  ∃ l, log (cell14 handle fuel job_id s).2 = log s ++ l
    ∧ (is_raised (cell14 handle fuel job_id s).1 = true
       ↔ Some "COMPLETED" ∉ observed_statuses l)
    ∧ (Some "COMPLETED" ∈ observed_statuses l →
       ∃ sts v, observed_statuses l = sts ++ [Some "COMPLETED"]
         ∧ (Some "COMPLETED" ∉ sts)
         ∧ count is_describe l = S (length sts)
         ∧ (cell14 handle fuel job_id s).1 = Ok v)
    ∧ (Forall (λ ev, threw ev = None) l →
       Forall not_completed (observed_statuses l) →
       count is_describe l = maximum_comprehend_status_checks
       ∧ (cell14 handle fuel job_id s).1 = Raised timeout_warning).
Proof.
  intros Hfuel.
  destruct (cell14_run handle fuel job_id s Hfuel)
    as (l & Hlog & _ & _ & Hcases).
  exists l. split; [done|].
  destruct Hcases as [(v & sts & st & Hobs & Hsts & Hcnt & Hst)
                     |(e & Hout & Hno & Hbad)].
  - pose proof (not_completed_notin _ Hsts) as Hnotin.
    destruct Hst as [(-> & Hout & _)|(Hne & Hout & Hall)]; rewrite Hout, Hobs.
    + split; [|split].
      * split; [done|]. intros Hn. exfalso. apply Hn.
        apply elem_of_app. right. by apply list_elem_of_singleton.
      * intros _. by exists sts, v.
      * intros _ [_ Hlast]%Forall_app. apply Forall_inv in Hlast.
        destruct Hlast as (s' & [= <-] & Hne). done.
    + split; [|split].
      * split; [|done]. intros _ [Hin|Hin]%elem_of_app; [done|].
        apply list_elem_of_singleton in Hin. congruence.
      * intros [Hin|Hin]%elem_of_app; [done|].
        apply list_elem_of_singleton in Hin. congruence.
      * done.
  - rewrite Hout. split; [done|]. split; [done|].
    intros Hthrew Hall. exfalso. destruct Hbad as [Hbad|Hbad].
    + apply Exists_exists in Hbad as (ev & Hin & Hev).
      rewrite Forall_forall in Hthrew. by apply Hev, Hthrew.
    + rewrite Forall_forall in Hall.
      destruct (Hall _ Hbad) as (? & [=] & _).
Qed.

(** C2.  The status poll of cell 14 terminates; it calls
    [describe_topics_detection_job] at most 20 times; its checks and sleeps
    alternate, check first, every sleep being one of 60 seconds; and each
    pass through the loop body adds one to the counter, which ends equal to
    the number of checks made. *)
Theorem poll_terminates_within_budget
    (fuel : nat) (job_id : string) (s : State Env) :
  maximum_comprehend_status_checks < fuel →
  ∃ l, log (cell14 handle fuel job_id s).2 = log s ++ l
    ∧ (cell14 handle fuel job_id s).1 ≠ OutOfFuel
    ∧ count is_describe l ≤ 20
    ∧ (∃ m, omap poll_mark_of l = take m (poll_rounds 20))
    ∧ (∀ v, (cell14 handle fuel job_id s).1 = Ok v →
            number_of_comprehend_status_checks v = count is_describe l)
    ∧ (∀ v s0 v', (poll_body handle job_id v s0).1 = Ok (Continue v')
                  ∨ (poll_body handle job_id v s0).1 = Ok (Break v') →
         number_of_comprehend_status_checks v'
         = S (number_of_comprehend_status_checks v)).
Proof.
  intros Hfuel.
  destruct (cell14_run handle fuel job_id s Hfuel)
    as (l & Hlog & Hcount & Hmarks & Hcases).
  exists l. split; [done|]. split; [|split; [done|split; [done|split]]].
  - destruct Hcases as [(v & sts & st & _ & _ & _ & [(_ & -> & _)|(_ & -> & _)])
                       |(e & -> & _)]; done.
  - intros v Hv.
    destruct Hcases as [(v1 & sts & st & _ & _ & _ & [(_ & Hout & Hn)|(_ & Hout & _)])
                       |(e & Hout & _)]; rewrite Hout in Hv; try discriminate.
    by injection Hv as <-.
  - intros v s0 v' Hv.
    destruct (poll_body_step handle job_id v s0) as (l0 & Hstep & _).
    destruct Hv as [Hv|Hv]; rewrite Hv in Hstep; by inversion Hstep.
Qed.

End PollClaims.

(** The job of [scenario_ok] is completed at the third check. *)
Lemma poll_raises_iff_never_completed_witness :
  ∃ l, log (cell14 (play scenario_ok) 21 "job-1" (start_state ∅)).2
       = log (start_state ∅) ++ l
    ∧ (is_raised (cell14 (play scenario_ok) 21 "job-1" (start_state ∅)).1 = true
       ↔ Some "COMPLETED" ∉ observed_statuses l)
    ∧ (Some "COMPLETED" ∈ observed_statuses l →
       ∃ sts v, observed_statuses l = sts ++ [Some "COMPLETED"]
         ∧ (Some "COMPLETED" ∉ sts)
         ∧ count is_describe l = S (length sts)
         ∧ (cell14 (play scenario_ok) 21 "job-1" (start_state ∅)).1 = Ok v)
    ∧ (Forall (λ ev, threw ev = None) l →
       Forall not_completed (observed_statuses l) →
       count is_describe l = maximum_comprehend_status_checks
       ∧ (cell14 (play scenario_ok) 21 "job-1" (start_state ∅)).1
         = Raised timeout_warning).
Proof.
  apply (poll_raises_iff_never_completed (play scenario_ok) 21 "job-1"
           (start_state ∅)).
  unfold maximum_comprehend_status_checks. lia.
Defined.

(** The job of [scenario_failed] never completes. *)
Lemma poll_terminates_within_budget_witness :
  ∃ l, log (cell14 (play scenario_failed) 21 "job-1" (start_state ∅)).2
       = log (start_state ∅) ++ l
    ∧ (cell14 (play scenario_failed) 21 "job-1" (start_state ∅)).1 ≠ OutOfFuel
    ∧ count is_describe l ≤ 20
    ∧ (∃ m, omap poll_mark_of l = take m (poll_rounds 20))
    ∧ (∀ v, (cell14 (play scenario_failed) 21 "job-1" (start_state ∅)).1 = Ok v →
            number_of_comprehend_status_checks v = count is_describe l)
    ∧ (∀ v s0 v',
         (poll_body (play scenario_failed) "job-1" v s0).1 = Ok (Continue v')
         ∨ (poll_body (play scenario_failed) "job-1" v s0).1 = Ok (Break v') →
         number_of_comprehend_status_checks v'
         = S (number_of_comprehend_status_checks v)).
Proof.
  apply (poll_terminates_within_budget (play scenario_failed) 21 "job-1"
           (start_state ∅)).
  unfold maximum_comprehend_status_checks. lia.
Defined.

(** ** The tables of cell 16 *)

Section Sorting.

Context {A : Type} (leb : A → A → bool).

Lemma insert_sorted_perm (x : A) (l : list A) : insert_sorted leb x l ≡ₚ x :: l.
Proof.
  induction l as [|y l IH]; simpl; [done|].
  destruct (leb x y); [done|]. by rewrite IH, Permutation_swap.
Qed.

Lemma sort_values_perm (l : list A) : sort_values leb l ≡ₚ l.
Proof.
  induction l as [|x l IH]; simpl; [done|].
  fold (sort_values leb l). by rewrite insert_sorted_perm, IH.
Qed.

Hypothesis leb_total : ∀ x y, leb x y = false → leb y x = true.
Hypothesis leb_trans : ∀ x y z, leb x y = true → leb y z = true → leb x z = true.

Lemma insert_sorted_sorted (x : A) (l : list A) :
  StronglySorted (λ a b, leb a b = true) l →
  StronglySorted (λ a b, leb a b = true) (insert_sorted leb x l).
Proof.
  induction 1 as [|y l Hs IH Hy]; simpl; [by repeat constructor|].
  destruct (leb x y) eqn:Hxy.
  - constructor; [by constructor|]. constructor; [done|].
    eapply Forall_impl; [exact Hy|]. intros z Hz. by eapply leb_trans.
  - constructor; [done|].
    rewrite insert_sorted_perm. constructor; [by apply leb_total | done].
Qed.

Lemma sort_values_sorted (l : list A) :
  StronglySorted (λ a b, leb a b = true) (sort_values leb l).
Proof.
  induction l as [|x l IH]; simpl; [constructor|].
  by apply insert_sorted_sorted.
Qed.

End Sorting.

Lemma StronglySorted_filter {A} (R : A → A → Prop) (P : A → Prop)
    `{∀ x, Decision (P x)} (l : list A) :
  StronglySorted R l → StronglySorted R (filter P l).
Proof.
  induction 1 as [|x l Hs IH Hx]; [constructor|].
  rewrite filter_cons. destruct (decide (P x)); [|done].
  constructor; [done|]. rewrite Forall_forall in Hx |- *.
  intros y [_ Hy]%list_elem_of_filter. by apply Hx.
Qed.

Lemma StronglySorted_impl_on {A} (R R' : A → A → Prop) (l : list A) :
  (∀ x y, x ∈ l → y ∈ l → R x y → R' x y) →
  StronglySorted R l → StronglySorted R' l.
Proof.
  intros Himpl Hs. induction Hs as [|x l Hs IH Hx]; [constructor|].
  constructor.
  - apply IH. intros a b Ha Hb. apply Himpl; by right.
  - rewrite Forall_forall in Hx |- *. intros y Hy.
    apply Himpl; [by left | by right | by apply Hx].
Qed.

Lemma topic_weight_leb_total (a b : TopicTerms.row) :
  topic_weight_leb a b = false → topic_weight_leb b a = true.
Proof.
  unfold topic_weight_leb.
  destruct (Z.ltb_spec (TopicTerms.topic a) (TopicTerms.topic b)); [done|].
  destruct (Z.ltb_spec (TopicTerms.topic b) (TopicTerms.topic a)); [done|].
  destruct (Z.eqb_spec (TopicTerms.topic a) (TopicTerms.topic b)); [|lia].
  destruct (Z.eqb_spec (TopicTerms.topic b) (TopicTerms.topic a)); [|lia].
  simpl. intros Hw.
  destruct (Qle_bool (TopicTerms.weight a) (TopicTerms.weight b)) eqn:Hw';
    [done|].
  exfalso.
  destruct (Qlt_le_dec (TopicTerms.weight a) (TopicTerms.weight b)) as [Hlt|Hle].
  - apply Qlt_le_weak, Qle_bool_iff in Hlt. congruence.
  - apply Qle_bool_iff in Hle. congruence.
Qed.

Lemma topic_weight_leb_trans (a b c : TopicTerms.row) :
  topic_weight_leb a b = true → topic_weight_leb b c = true →
  topic_weight_leb a c = true.
Proof.
  unfold topic_weight_leb.
  destruct (Z.ltb_spec (TopicTerms.topic a) (TopicTerms.topic b));
    destruct (Z.ltb_spec (TopicTerms.topic b) (TopicTerms.topic c));
    destruct (Z.ltb_spec (TopicTerms.topic a) (TopicTerms.topic c));
    destruct (Z.eqb_spec (TopicTerms.topic a) (TopicTerms.topic b));
    destruct (Z.eqb_spec (TopicTerms.topic b) (TopicTerms.topic c));
    destruct (Z.eqb_spec (TopicTerms.topic a) (TopicTerms.topic c));
    simpl; try done; try lia.
  intros Hab%Qle_bool_iff Hbc%Qle_bool_iff. apply Qle_bool_iff.
  by eapply Qle_trans.
Qed.

Lemma group_keys_NoDup (keys : list Z) : NoDup (group_keys keys).
Proof.
  unfold group_keys. rewrite sort_values_perm. apply NoDup_remove_dups.
Qed.

Lemma topics_of_keys (csv : list TopicTerms.row) :
  (topics_of csv).*1
  = group_keys (map TopicTerms.topic (sort_values topic_weight_leb csv)).
Proof.
  unfold topics_of, agg_join, groupby_topic_term.
  rewrite <- !list_fmap_compose. apply list_fmap_id.
Qed.

Lemma topics_of_entry (csv : list TopicTerms.row) (k : Z) (joined : string) :
  (k, joined) ∈ topics_of csv →
  joined = String.concat ", "
             (map TopicTerms.term
                (filter (λ r, TopicTerms.topic r = k)
                        (sort_values topic_weight_leb csv))).
Proof.
  unfold topics_of, agg_join, groupby_topic_term.
  intros (g & [= -> ->] & (k' & -> & _)%list_elem_of_fmap)%list_elem_of_fmap.
  reflexivity.
Qed.

(** C10.  In the aggregated topics table, the string of a topic is the join,
    with ", ", of the terms of exactly the rows of [topic-terms.csv] that
    have this topic, listed by weight in non-increasing order. *)
Theorem topic_terms_by_decreasing_weight
    (csv : list TopicTerms.row) (k : Z) (joined : string) :
  (k, joined) ∈ topics_of csv →
  ∃ rows : list TopicTerms.row,
    joined = String.concat ", " (map TopicTerms.term rows)
    ∧ rows ≡ₚ filter (λ r, TopicTerms.topic r = k) csv
    ∧ StronglySorted
        (λ a b, (TopicTerms.weight b <= TopicTerms.weight a)%Q) rows.
Proof.
  intros Hin. apply topics_of_entry in Hin.
  exists (filter (λ r, TopicTerms.topic r = k) (sort_values topic_weight_leb csv)).
  split; [done|]. split; [by rewrite sort_values_perm|].
  eapply StronglySorted_impl_on;
    [|apply StronglySorted_filter, sort_values_sorted;
      [apply topic_weight_leb_total | apply topic_weight_leb_trans]].
  intros a b [Ha _]%list_elem_of_filter [Hb _]%list_elem_of_filter.
  unfold topic_weight_leb. rewrite Ha, Hb, Z.ltb_irrefl, Z.eqb_refl. simpl.
  by intros ?%Qle_bool_iff.
Qed.

(** Topic 1 of [scenario_ok]: "protein" (3/4) before "gene" (1/2). *)
Lemma topic_terms_by_decreasing_weight_witness :
  ∃ rows : list TopicTerms.row,
    "protein, gene" = String.concat ", " (map TopicTerms.term rows)
    ∧ rows ≡ₚ filter (λ r, TopicTerms.topic r = 1%Z) (topic_terms_csv scenario_ok)
    ∧ StronglySorted
        (λ a b, (TopicTerms.weight b <= TopicTerms.weight a)%Q) rows.
Proof.
  apply (topic_terms_by_decreasing_weight (topic_terms_csv scenario_ok) 1%Z).
  vm_compute. apply list_elem_of_In. right. left. reflexivity.
Defined.

Lemma filter_key_NoDup (topics : list (Z * string)) (k : Z) :
  NoDup topics.*1 →
  filter (λ kv : Z * string, kv.1 = k) topics = []
  ∨ ∃ v, filter (λ kv : Z * string, kv.1 = k) topics = [(k, v)].
Proof.
  induction topics as [|[k' v'] topics IH]; [by left|].
  rewrite fmap_cons, NoDup_cons. intros [Hnotin Hnd].
  rewrite filter_cons. simpl. destruct (decide (k' = k)) as [->|Hne].
  - right. exists v'. f_equal.
    destruct (filter _ topics) as [|[k1 v1] rest] eqn:Hf; [done|].
    exfalso. apply Hnotin.
    assert ((k1, v1) ∈ filter (λ kv : Z * string, kv.1 = k) topics) as Hin
      by (rewrite Hf; left).
    apply list_elem_of_filter in Hin as [Hk Hin]. simpl in Hk. subst k1.
    apply list_elem_of_fmap. by exists (k, v1).
  - by apply IH.
Qed.

Lemma merge_left_cons (d : DocTopics.row) (docs : list DocTopics.row)
    (topics : list (Z * string)) :
  merge_left (d :: docs) topics
  = match filter (λ kv : Z * string, kv.1 = DocTopics.topic d) topics with
    | [] => [Results.mk (DocTopics.docname d) (DocTopics.topic d)
                        (DocTopics.proportion d) None]
    | ms => map (λ kv, Results.mk (DocTopics.docname d) (DocTopics.topic d)
                                  (DocTopics.proportion d) (Some kv.2)) ms
    end ++ merge_left docs topics.
Proof. reflexivity. Qed.

Lemma merge_left_NoDup (docs : list DocTopics.row) (topics : list (Z * string)) :
  NoDup topics.*1 →
  map Results.left (merge_left docs topics) = docs
  ∧ Forall (λ r, match Results.term r with
                 | Some t => (Results.topic r, t) ∈ topics
                 | None => Results.topic r ∉ topics.*1
                 end) (merge_left docs topics).
Proof.
  intros Hnd.
  induction docs as [|[d t p] docs [IH1 IH2]]; [by split|].
  rewrite merge_left_cons. cbn [DocTopics.docname DocTopics.topic DocTopics.proportion].
  destruct (filter_key_NoDup topics t Hnd) as [Hf|[v Hf]]; rewrite Hf;
    cbn [map app]; rewrite IH1.
  - split; [done|]. constructor; [|done]. simpl.
    intros ([k v] & Hk & Hin)%list_elem_of_fmap. simpl in Hk. subst k.
    by eapply (filter_nil_not_elem_of _ _ (t, v)); [exact Hf| |exact Hin].
  - split; [done|]. constructor; [|done]. simpl.
    assert ((t, v) ∈ filter (λ kv : Z * string, kv.1 = t) topics) as Hin
      by (rewrite Hf; left).
    by apply list_elem_of_filter in Hin as [_ Hin].
Qed.

(** C4.  The results table is the left join of the document table with the
    aggregated topics table on the topic: the aggregated table has one row
    per topic at most; the results, stripped of their term, are the rows of
    [doc-topics.csv] in the order of the sorted document table, so each of
    them occurs exactly once with its docname, topic and proportion; and the
    term of a row is the string of its topic in the aggregated table, or is
    missing when the topic has no row there. *)
Theorem results_is_left_join
    (topic_terms : list TopicTerms.row) (doc_topics : list DocTopics.row) :
  NoDup (topics_of topic_terms).*1
  ∧ map Results.left (results_of topic_terms doc_topics) = docs_of doc_topics
  ∧ map Results.left (results_of topic_terms doc_topics) ≡ₚ doc_topics
  ∧ Forall (λ r, match Results.term r with
                 | Some t => (Results.topic r, t) ∈ topics_of topic_terms
                 | None => Results.topic r ∉ (topics_of topic_terms).*1
                 end) (results_of topic_terms doc_topics).
Proof.
  assert (NoDup (topics_of topic_terms).*1) as Hnd
    by (rewrite topics_of_keys; apply group_keys_NoDup).
  destruct (merge_left_NoDup (docs_of doc_topics) (topics_of topic_terms) Hnd)
    as [Hleft Hterm].
  unfold results_of. rewrite Hleft. repeat split; try done.
  apply sort_values_perm.
Qed.

(** ** The search of cell 23 *)

Lemma flatten_clean (content : pystr) :
  (newline ∉ flatten content) ∧ (tab ∉ flatten content).
Proof.
  unfold flatten, replace_char. split;
    intros (c & Hc & (c0 & -> & _)%list_elem_of_fmap)%list_elem_of_fmap;
    revert Hc;
    destruct (N.eqb_spec c0 newline) as [->|Hn]; simpl;
    try (destruct (N.eqb_spec c0 tab) as [->|Ht]; simpl); try done;
    intros; congruence.
Qed.

Lemma match_literal {R} (p s : pystr) (caps : gmap nat pystr)
    (k : pystr → gmap nat pystr → option R) :
  match_here (re_literal p) s caps k
  = if is_prefix p s then k (drop (length p) s) caps else None.
Proof.
  revert s. induction p as [|c p IH]; intros s; [done|].
  simpl. destruct s as [|x s]; [done|].
  destruct (N.eqb x c); simpl; [apply IH | done].
Qed.

Lemma match_cat {R} (r1 r2 : regex) (s : pystr) (caps : gmap nat pystr)
    (k : pystr → gmap nat pystr → option R) :
  match_here (Cat r1 r2) s caps k
  = match_here r1 s caps (λ s' caps', match_here r2 s' caps' k).
Proof. reflexivity. Qed.

Lemma match_group {R} (i : nat) (r : regex) (s : pystr) (caps : gmap nat pystr)
    (k : pystr → gmap nat pystr → option R) :
  match_here (Group i r) s caps k
  = match_here r s caps
      (λ s' caps', k s' (<[i := take (length s - length s') s]> caps')).
Proof. reflexivity. Qed.

Lemma repeat_dot {R}
    (step : pystr → gmap nat pystr → (pystr → gmap nat pystr → option R) → option R)
    (n : nat) (s : pystr) (caps : gmap nat pystr)
    (k : pystr → gmap nat pystr → option R) :
  (∀ s' caps' k', step s' caps' k' = match_here Dot s' caps' k') →
  newline ∉ s →
  (∀ s' caps', is_Some (k s' caps')) →
  repeat_upto step n s caps k = k (drop n s) caps.
Proof.
  intros Hstep Hs Hk. revert s Hs. induction n as [|n IH]; intros s Hs; [done|].
  simpl. rewrite Hstep. destruct s as [|x s]; [done|].
  apply not_elem_of_cons in Hs as [Hx Hs]. simpl.
  destruct (N.eqb_spec x newline) as [->|_]; [done|].
  rewrite IH by done. by destruct (Hk (drop n s) caps) as [m ->].
Qed.

Lemma match_upto_dot {R} (n : nat) (s : pystr) (caps : gmap nat pystr)
    (k : pystr → gmap nat pystr → option R) :
  newline ∉ s →
  (∀ s' caps', is_Some (k s' caps')) →
  match_here (Upto n Dot) s caps k = k (drop n s) caps.
Proof. intros Hs Hk. by apply repeat_dot. Qed.

Lemma take_length_drop {A} (n : nat) (l : list A) :
  take (length l - length (drop n l)) l = take n l.
Proof.
  rewrite length_drop.
  destruct (decide (n ≤ length l)).
  - f_equal. lia.
  - replace (length l - (length l - n)) with (length l) by lia.
    rewrite firstn_all. symmetry. apply take_ge. lia.
Qed.

Lemma match_background (t : pystr) :
  newline ∉ t →
  match_here background_pattern t ∅ (λ _ caps, Some (mkMatch caps))
  = if is_prefix (lit "Background ") t
    then Some (mkMatch {[1 := take 1000 (drop 11 t)]})
    else None.
Proof.
  intros Ht. unfold background_pattern.
  rewrite match_cat, match_literal.
  destruct (is_prefix (lit "Background ") t); [|done].
  change (length (lit "Background ")) with 11.
  rewrite match_group, match_upto_dot.
  - by rewrite take_length_drop, insert_empty.
  - intros Hin. apply Ht. by apply (subseteq_drop 11 t).
  - by eexists.
Qed.

Lemma re_search_background (t : pystr) :
  newline ∉ t →
  re_search background_pattern t
  = (λ rest, mkMatch {[1 := take 1000 rest]})
      <$> after_first (lit "Background ") t.
Proof.
  induction t as [|x t IH]; intros Ht.
  - reflexivity.
  - cbn [re_search after_first]. rewrite match_background by done.
    change (length (lit "Background ")) with 11.
    destruct (is_prefix (lit "Background ") (x :: t)); [done|].
    apply IH. by apply not_elem_of_cons in Ht as [_ ?].
Qed.

Lemma after_first_suffix (needle s rest : pystr) :
  after_first needle s = Some rest → rest `suffix_of` s.
Proof.
  induction s as [|x s IH]; simpl.
  - destruct (is_prefix needle []); [|done]. intros [= <-]. apply suffix_drop.
  - destruct (is_prefix needle (x :: s)).
    + intros [= <-]. apply suffix_drop.
    + intros H%IH. by apply suffix_cons_r.
Qed.

(** ** The selection loop of cell 23 *)

Section WhileFacts.

Context {Env S : Type}.
Variables (cond : S → bool) (body : S → M Env (flow S)).

Lemma while_loop_inv (I : S → State Env → Prop) :
  (∀ s st c st', cond s = true → body s st = (Ok c, st') → I (flow_state c) st') →
  ∀ fuel s st s' st',
    I s st → while_loop fuel cond body s st = (Ok s', st') → I s' st'.
Proof.
  intros Hbody. induction fuel as [|fuel IH]; intros s st s' st' Hs; [done|].
  simpl. destruct (cond s) eqn:Hc; [|by intros [= <- <-]].
  rewrite bind_run. destruct (body s st) as [[[s1|s1]|e|] st1] eqn:Hb; try done.
  - apply IH. by apply (Hbody s st (Continue s1)).
  - intros [= <- <-]. by apply (Hbody s st (Break s1)).
Qed.

Lemma while_loop_exit :
  (∀ s st s1 st1, body s st ≠ (Ok (Break s1), st1)) →
  ∀ fuel s st s' st',
    while_loop fuel cond body s st = (Ok s', st') → cond s' = false.
Proof.
  intros Hbody. induction fuel as [|fuel IH]; intros s st s' st'; [done|].
  simpl. destruct (cond s) eqn:Hc; [|by intros [= <- <-]].
  rewrite bind_run. destruct (body s st) as [[[s1|s1]|e|] st1] eqn:Hb; try done.
  - apply IH.
  - by apply Hbody in Hb.
Qed.

Lemma while_loop_never :
  (∀ s st, cond s = true →
           ∃ s1 st1, body s st = (Ok (Continue s1), st1) ∧ cond s1 = true) →
  ∀ fuel s st, cond s = true → (while_loop fuel cond body s st).1 = OutOfFuel.
Proof.
  intros Hbody. induction fuel as [|fuel IH]; intros s st Hc; [done|].
  simpl. rewrite Hc, bind_run.
  destruct (Hbody s st Hc) as (s1 & st1 & -> & Hc1). by apply IH.
Qed.

End WhileFacts.

Section Selection.

Context {Env : Type}.
Variable handle : ∀ T, sdkE T → World Env → reply T * World Env.

(** One pass through the body, call by call. *)
Lemma select_body_run (v : SelectVars) (s : State Env) :
  select_body handle v s
  = match perform handle (Sample article_names 1) (world s) with
    | (Threw e, w1) =>
        (Raised e,
         mkState w1 (log s ++ [Ev (Sample article_names 1) (Threw e)]))
    | (Returned [], w1) =>
        (Raised (IndexError "list index out of range"),
         mkState w1 (log s ++ [Ev (Sample article_names 1) (Returned [])]))
    | (Returned (a :: rest), w1) =>
        match perform handle (OpenRead (article_path a)) (show (Line a) w1).2 with
        | (Threw e, w2) =>
            (Raised e,
             mkState w2
               (log s ++ [Ev (Sample article_names 1) (Returned (a :: rest));
                          Ev (Print a) (Returned ());
                          Ev (OpenRead (article_path a)) (Threw e)]))
        | (Returned content, w2) =>
            (Ok (Continue (mkSelect (Some a) (Some (flatten content))
                             (re_search background_pattern (flatten content)))),
             mkState w2 (log s ++ selection_pass a rest content))
        end
    end.
Proof.
  unfold select_body. rewrite bind_run, call_run.
  destruct (perform handle (Sample article_names 1) (world s))
    as [[[|a rest]|e] w1]; cbn [fst snd subscript0]; [done| |done].
  rewrite ret_bind_run, bind_run, print_run. cbn [world log].
  rewrite bind_run, call_run. fold (article_path a). cbn [world log].
  destruct (perform handle (OpenRead (article_path a)) (show (Line a) w1).2)
    as [[content|e] w2]; cbn [fst snd]; unfold selection_pass;
    by rewrite ?ret_run, <- !app_assoc.
Qed.

Lemma select_body_no_break (v : SelectVars) (s : State Env) v1 s1 :
  select_body handle v s ≠ (Ok (Break v1), s1).
Proof.
  rewrite select_body_run.
  destruct (perform handle (Sample article_names 1) (world s))
    as [[[|a rest]|e] w1]; try done.
  by destruct (perform handle (OpenRead (article_path a)) (show (Line a) w1).2)
    as [[content|e] w2].
Qed.

Lemma select_loop_exit (fuel : nat) (s s' : State Env) (v : SelectVars) :
  select_loop handle fuel s = (Ok v, s') →
  ∃ a rest content l0 m,
    log s' = l0 ++ selection_pass a rest content
    ∧ art v = Some a
    ∧ text v = Some (flatten content)
    ∧ result v = Some m
    ∧ re_search background_pattern (flatten content) = Some m.
Proof.
  unfold select_loop. intros Hrun.
  pose proof (while_loop_exit _ _ select_body_no_break _ _ _ _ _ Hrun) as Hc.
  pose (I := λ (v : SelectVars) (st : State Env),
          result v = None
          ∨ ∃ a rest content l0,
              log st = l0 ++ selection_pass a rest content
              ∧ art v = Some a
              ∧ text v = Some (flatten content)
              ∧ result v = re_search background_pattern (flatten content)).
  assert (I v s') as [Hnone|(a & rest & content & l0 & Hlog & Ha & Ht & Hr)].
  { refine (while_loop_inv select_cond (select_body handle) I _ fuel _ s v s' _ Hrun);
      unfold I; [|by left].
    intros v0 st c st' _. rewrite select_body_run.
    destruct (perform handle (Sample article_names 1) (world st))
      as [[[|a rest]|e] w1]; try done.
    destruct (perform handle (OpenRead (article_path a)) (show (Line a) w1).2)
      as [[content|e] w2]; [|done].
    intros [= <- <-]. right. by exists a, rest, content, (log st). }
  - unfold select_cond in Hc. by rewrite Hnone in Hc.
  - unfold select_cond in Hc. destruct (result v) as [m|] eqn:Hm; [|done].
    by exists a, rest, content, l0, m.
Qed.

End Selection.

(** C8.  Whatever the text of the article, the match found in its flattened
    text captures, as group 1, the first 1000 characters (or all, if fewer)
    that follow the first occurrence of "Background "; this string is at
    most 1000 characters long and contains neither a newline nor a tab.  It
    is the "inputs" of cell 23 whenever that cell ends normally. *)
Theorem inputs_at_most_1000_chars :
  (∀ content : pystr,
     re_search background_pattern (flatten content)
     = (λ rest, mkMatch {[1 := take 1000 rest]})
         <$> after_first (lit "Background ") (flatten content)
     ∧ ∀ m, re_search background_pattern (flatten content) = Some m →
         ∃ g, group m 1 = Some g
           ∧ length g ≤ 1000
           ∧ (newline ∉ g) ∧ (tab ∉ g))
  ∧ (∀ Env (handle : ∀ T, sdkE T → World Env → reply T * World Env)
       fuel s inputs,
       (cell23 handle fuel s).1 = Ok inputs →
       ∃ g, inputs = Some g
         ∧ length g ≤ 1000
         ∧ (newline ∉ g) ∧ (tab ∉ g)).
Proof.
  assert (∀ content m,
            re_search background_pattern (flatten content) = Some m →
            ∃ g, group m 1 = Some g ∧ length g ≤ 1000
                 ∧ (newline ∉ g) ∧ (tab ∉ g)) as Hgroup.
  { intros content m Hm.
    destruct (flatten_clean content) as [Hnl Htab].
    rewrite re_search_background in Hm by done.
    destruct (after_first (lit "Background ") (flatten content))
      as [rest|] eqn:Ha; [|done].
    injection Hm as <-. exists (take 1000 rest).
    apply after_first_suffix in Ha.
    split; [apply lookup_singleton_eq|]. split; [rewrite length_take; lia|].
    split; intros Hin%subseteq_take; eapply elem_of_suffix in Hin; eauto. }
  split.
  - intros content. split; [|by apply Hgroup].
    apply re_search_background, flatten_clean.
  - intros Env handle fuel s inputs. unfold cell23. rewrite bind_run.
    destruct (select_loop handle fuel s) as [[v|e|] s1] eqn:Hloop; [|done..].
    apply select_loop_exit in Hloop
      as (a & rest & content & l0 & m & _ & _ & _ & Hr & Hm).
    rewrite Hr, ret_bind_run, bind_run, call_run. cbn [perform show fst snd].
    rewrite ret_run. cbn [fst]. intros [= <-]. by eapply Hgroup.
Qed.

Lemma has_background_search (content : pystr) :
  has_background content = true
  ↔ is_Some (re_search background_pattern (flatten content)).
Proof.
  unfold has_background, contains.
  rewrite re_search_background by apply flatten_clean.
  destruct (after_first _ _); simpl.
  - split; eauto.
  - split; [done|]. by intros [? ?].
Qed.

Section SelectionArticles.

Context {Env : Type}.
Variable handle : ∀ T, sdkE T → World Env → reply T * World Env.
Variable files : string → pystr.
Hypothesis Hlocal : local_articles handle files.

Lemma select_body_local (v : SelectVars) (s : State Env) :
  ∃ a w2, a ∈ article_names
    ∧ select_body handle v s
      = (Ok (Continue (mkSelect (Some a) (Some (flatten (files (article_path a))))
                         (re_search background_pattern
                            (flatten (files (article_path a)))))),
         mkState w2 (log s ++ selection_pass a [] (files (article_path a)))).
Proof.
  destruct Hlocal as [Hsample Hread].
  destruct (Hsample (world s)) as (a & w1 & Ha & Hs).
  destruct (Hread (article_path a) (show (Line a) w1).2) as (w2 & Hr).
  exists a, w2. split; [done|]. by rewrite select_body_run, Hs, Hr.
Qed.

Lemma select_loop_never (fuel : nat) (s : State Env) :
  (∀ a, a ∈ article_names → has_background (files (article_path a)) = false) →
  (select_loop handle fuel s).1 = OutOfFuel.
Proof.
  intros Hnone. unfold select_loop. apply while_loop_never; [|done].
  intros v st _. destruct (select_body_local v st) as (a & w2 & Ha & ->).
  do 2 eexists. split; [done|]. unfold select_cond. simpl.
  destruct (re_search _ _) eqn:Hre; [|done].
  assert (has_background (files (article_path a)) = true) as Hb
    by (apply has_background_search; rewrite Hre; eauto).
  rewrite Hnone in Hb; done.
Qed.

Lemma select_loop_first (fuel : nat) (s : State Env) :
  (∀ a, a ∈ article_names → has_background (files (article_path a)) = true) →
  2 ≤ fuel →
  ∃ v s' a, select_loop handle fuel s = (Ok v, s')
    ∧ a ∈ article_names
    ∧ art v = Some a
    ∧ log s' = log s ++ selection_pass a [] (files (article_path a)).
Proof.
  intros Hall Hfuel. destruct fuel as [|[|fuel]]; [lia..|].
  unfold select_loop. cbn [while_loop]. cbn [select_cond result].
  rewrite bind_run.
  destruct (select_body_local (mkSelect None None None) s) as (a & w2 & Ha & ->).
  pose proof (Hall a Ha) as Hb. apply has_background_search in Hb as [m Hm].
  unfold select_cond. cbn [result]. rewrite Hm.
  eexists _, _, a. split; [reflexivity|]. by repeat split.
Qed.

End SelectionArticles.

Lemma play_local_articles (a : string) (files : string → pystr) :
  a ∈ article_names → local_articles (play (scenario_always a files)) files.
Proof.
  intros Ha. split.
  - intros w. by eexists a, _.
  - intros path w. by eexists.
Qed.

(** C9.  The selection loop of cell 23 ends normally only after a pass whose
    article has "Background " in its flattened text, and [result] is the
    match found there.  When every draw is an article of [article_names] and
    every file is read: if no article has "Background " the loop never
    ends, whatever the number of passes granted; if every article has it the
    loop ends after its first pass.  And an article without "Background " is
    enough for a world in which the loop never ends. *)
Theorem selection_exits_only_on_match :
  (∀ Env (handle : ∀ T, sdkE T → World Env → reply T * World Env)
     fuel s s' v,
     select_loop handle fuel s = (Ok v, s') →
     ∃ a rest content l0 m,
       log s' = l0 ++ selection_pass a rest content
       ∧ art v = Some a
       ∧ text v = Some (flatten content)
       ∧ result v = Some m
       ∧ re_search background_pattern (flatten content) = Some m
       ∧ has_background content = true)
  ∧ (∀ Env (handle : ∀ T, sdkE T → World Env → reply T * World Env) files,
       local_articles handle files →
       (∀ a, a ∈ article_names → has_background (files (article_path a)) = false) →
       ∀ fuel s, (select_loop handle fuel s).1 = OutOfFuel)
  ∧ (∀ Env (handle : ∀ T, sdkE T → World Env → reply T * World Env) files,
       local_articles handle files →
       (∀ a, a ∈ article_names → has_background (files (article_path a)) = true) →
       ∀ fuel s, 2 ≤ fuel →
       ∃ v s' a, select_loop handle fuel s = (Ok v, s')
         ∧ a ∈ article_names
         ∧ art v = Some a
         ∧ log s' = log s ++ selection_pass a [] (files (article_path a)))
  ∧ (∀ files a0,
       a0 ∈ article_names →
       has_background (files (article_path a0)) = false →
       ∃ handle : ∀ T, sdkE T → World Tally → reply T * World Tally,
         local_articles handle files
         ∧ ∀ fuel s, (select_loop handle fuel s).1 = OutOfFuel).
Proof.
  split; [|split; [|split]].
  - intros Env handle fuel s s' v Hrun.
    destruct (select_loop_exit handle fuel s s' v Hrun)
      as (a & rest & content & l0 & m & Hlog & Ha & Ht & Hr & Hm).
    exists a, rest, content, l0, m. repeat (split; [done|]).
    apply has_background_search. rewrite Hm. eauto.
  - intros Env handle files Hlocal Hnone fuel s.
    by apply (select_loop_never handle files).
  - intros Env handle files Hlocal Hall fuel s Hfuel.
    by apply (select_loop_first handle files).
  - intros files a0 Ha0 Hno.
    exists (play (scenario_always a0 files)).
    split; [by apply play_local_articles|].
    intros fuel s. unfold select_loop. apply while_loop_never; [|done].
    intros v st _. rewrite select_body_run.
    do 2 eexists. split; [reflexivity|]. unfold select_cond. cbn [result].
    destruct (re_search _ _) as [m|] eqn:Hre; [|done].
    assert (has_background (files (article_path a0)) = true) as Hb
      by (apply has_background_search; exists m; exact Hre).
    rewrite Hno in Hb; done.
Qed.

(** ** Clean-up (cell 26) *)

Section CleanUp.

Context {Env : Type}.
Variable handle : ∀ T, sdkE T → World Env → reply T * World Env.

Lemma perform_local {T} (op : sdkE T) (w : World Env) :
  is_local op = true →
  s3 (perform handle op w).2 = s3 w
  ∧ endpoints (perform handle op w).2 = endpoints w.
Proof. by destruct op. Qed.

Lemma call_local {T} (op : sdkE T) (s : State Env) :
  is_local op = true →
  s3 (world (call handle op s).2) = s3 (world s)
  ∧ endpoints (world (call handle op s).2) = endpoints (world s).
Proof. intros Hl. rewrite call_run. by apply perform_local. Qed.

Lemma delete_endpoint_run (name : string) (s : State Env) :
  call handle (DeleteEndpoint name) s
  = if decide (name ∈ endpoints (world s))
    then (Ok (),
          mkState (mkWorld (s3 (world s)) (endpoints (world s) ∖ {[name]})
                           (stdout (world s)) (env (world s)))
                  (log s ++ [Ev (DeleteEndpoint name) (Returned ())]))
    else (Raised (SdkError "Could not find endpoint"),
          mkState (world s)
                  (log s ++ [Ev (DeleteEndpoint name)
                               (Threw (SdkError "Could not find endpoint"))])).
Proof. rewrite call_run. simpl. by case_decide. Qed.

Lemma delete_objects_run (bucket prefix : string) (s : State Env) :
  call handle (DeleteObjects bucket prefix) s
  = match s3 (world s) !! bucket with
    | Some objects =>
        (Ok (),
         mkState (mkWorld
                    (<[bucket := filter (λ kv : string * string,
                                           String.prefix prefix kv.1 = false)
                                        objects]> (s3 (world s)))
                    (endpoints (world s)) (stdout (world s)) (env (world s)))
                 (log s ++ [Ev (DeleteObjects bucket prefix) (Returned ())]))
    | None =>
        (Raised (SdkError "NoSuchBucket"),
         mkState (world s)
                 (log s ++ [Ev (DeleteObjects bucket prefix)
                              (Threw (SdkError "NoSuchBucket"))]))
    end.
Proof. rewrite call_run. simpl. by destruct (s3 (world s) !! bucket). Qed.

Lemma object_at_kept (w : World Env) (bucket prefix : string)
    (objects : gmap string string) (b key : string) :
  s3 w !! bucket = Some objects →
  b ≠ bucket ∨ String.prefix prefix key = false →
  (<[bucket := filter (λ kv : string * string, String.prefix prefix kv.1 = false)
                      objects]> (s3 w)) !! b ≫= (λ objs, objs !! key)
  = object_at w b key.
Proof.
  intros Hb Hkey. unfold object_at.
  destruct (decide (b = bucket)) as [->|Hne].
  - rewrite lookup_insert_eq, Hb. simpl.
    destruct Hkey as [?|Hp]; [done|].
    destruct (objects !! key) as [o|] eqn:Ho.
    + by apply map_lookup_filter_Some.
    + apply map_lookup_filter_None. left. done.
  - by rewrite lookup_insert_ne.
Qed.

Lemma object_at_deleted (bucket prefix : string) (stores : gmap string (gmap string string))
    (objects : gmap string string) (key : string) :
  String.prefix prefix key = true →
  (<[bucket := filter (λ kv : string * string, String.prefix prefix kv.1 = false)
                      objects]> stores) !! bucket ≫= (λ objs, objs !! key)
  = None.
Proof.
  intros Hp. rewrite lookup_insert_eq. simpl.
  apply map_lookup_filter_None. right. intros o _. simpl. congruence.
Qed.

(** C7.  Clean-up leaves as it is every object whose key does not start with
    "sci-docs", every object of another bucket and every other endpoint;
    when it ends normally the endpoint is deleted and no object of the
    session bucket has a key that starts with "sci-docs"; and it ends
    normally when the endpoint and the bucket exist and neither the creation
    of the S3 resource object nor the shell command raises. *)
Theorem cleanup_deletes_sci_docs_only
    (predictor s3_bucket : string) (s : State Env) :
  (∀ bucket key,
     bucket ≠ s3_bucket ∨ String.prefix "sci-docs" key = false →
     object_at (world (cell26 handle predictor s3_bucket s).2) bucket key
     = object_at (world s) bucket key)
  ∧ (∀ name, name ≠ predictor →
       name ∈ endpoints (world (cell26 handle predictor s3_bucket s).2)
       ↔ name ∈ endpoints (world s))
  ∧ ((cell26 handle predictor s3_bucket s).1 = Ok () →
       predictor ∈ endpoints (world s)
       ∧ (predictor ∉ endpoints (world (cell26 handle predictor s3_bucket s).2))
       ∧ ∀ key, String.prefix "sci-docs" key = true →
           object_at (world (cell26 handle predictor s3_bucket s).2)
             s3_bucket key = None)
  ∧ (predictor ∈ endpoints (world s) →
     is_Some (s3 (world s) !! s3_bucket) →
     (∀ w, (handle _ (BotoResource "s3") w).1 = Returned ()) →
     (∀ w, ∃ status, (handle _ (OsSystem "rm -rf data") w).1 = Returned status) →
     (cell26 handle predictor s3_bucket s).1 = Ok ()).
Proof.
  assert (∀ name, name ≠ predictor →
            name ∈ endpoints (world s) ∖ {[predictor]}
            ↔ name ∈ endpoints (world s)) as Hends.
  { intros name Hne. rewrite elem_of_difference, elem_of_singleton. tauto. }
  unfold cell26. rewrite bind_run, delete_endpoint_run.
  destruct (decide (predictor ∈ endpoints (world s))) as [Hin|Hnotin];
    [|by cbn [fst snd world]].
  rewrite bind_run, call_run. cbn [perform is_local world log fst snd].
  pose proof (Hnores := λ H : ∀ w, (handle _ (BotoResource "s3") w).1 = Returned (),
                          H (mkWorld (s3 (world s))
                               (endpoints (world s) ∖ {[predictor]})
                               (stdout (world s)) (env (world s)))).
  destruct (handle _ (BotoResource "s3") _) as [[[]|e] w2];
    cbn [fst snd] in *.
  2:{ unfold object_at. cbn [fst snd world s3 endpoints].
      repeat split; try done; try (by apply Hends);
        try (intros _ _ Hres _; by specialize (Hnores Hres)). }
  clear Hnores.
  rewrite bind_run, delete_objects_run. cbn [world s3 endpoints stdout env log].
  destruct (s3 (world s) !! s3_bucket) as [objects|] eqn:Hb.
  2:{ unfold object_at. cbn [fst snd world s3 endpoints].
      repeat split; try done; try (by apply Hends); try (by intros _ [? ?]). }
  rewrite bind_run, call_run. cbn [perform is_local world log fst snd].
  cbn [s3 endpoints stdout env].
  set (w3 := mkWorld _ _ _ (env w2)).
  pose proof (Hnosys := λ H : ∀ w, ∃ status,
                          (handle _ (OsSystem "rm -rf data") w).1 = Returned status,
                          H w3).
  destruct (handle _ (OsSystem "rm -rf data") w3) as [[status|e] w4];
    cbn [fst snd] in *; rewrite ?ret_run; unfold object_at;
    cbn [fst snd world s3 endpoints].
  - split; [intros bucket key Hk; exact (object_at_kept _ _ _ _ _ _ Hb Hk)|].
    split; [done|].
    split; [|done]. intros _. split; [done|]. split.
    { intros [_ Hn]%elem_of_difference. apply Hn. by apply elem_of_singleton. }
    intros key Hp. by apply object_at_deleted.
  - split; [intros bucket key Hk; exact (object_at_kept _ _ _ _ _ _ Hb Hk)|].
    split; [done|].
    split; [done|]. intros _ _ _ Hres.
    by destruct (Hnosys Hres) as [? ?].
Qed.

End CleanUp.

(** ** Discipline of the whole script: no handler, no hidden loop *)

Section Discipline.

Context {Env : Type}.
Variable handle : ∀ T, sdkE T → World Env → reply T * World Env.
Variable p : event → bool.

Lemma count_nil : count p [] = 0.
Proof. reflexivity. Qed.

Lemma d_ret {A} (n : nat) (a : A) : disciplined p n (mret a : M Env A).
Proof.
  intros s. exists []. rewrite app_nil_r. repeat split; try done.
  - by left.
  - rewrite count_nil. lia.
Qed.

Lemma d_raise {A} (n : nat) (e : exn) : disciplined p n (raise e : M Env A).
Proof.
  intros s. exists []. rewrite app_nil_r. repeat split; try done.
  - by left.
  - rewrite count_nil. lia.
Qed.


Lemma d_call_counted {T} (n : nat) (op : sdkE T) :
  disciplined p (S n) (call handle op).
Proof.
  intros s. rewrite call_run. cbn [fst snd log].
  exists [Ev op (perform handle op (world s)).1]. split; [done|].
  destruct (perform handle op (world s)) as [[v|e] w]; cbn [fst snd].
  - repeat split.
    + left. by repeat constructor.
    + intros _. by repeat constructor.
    + unfold count. simpl. destruct (p _); simpl; lia.
  - repeat split; [|done|].
    + right. exists [], (Ev op (Threw e)), e. by repeat split.
    + unfold count. simpl. destruct (p _); simpl; lia.
Qed.

Lemma d_call_other {T} (n : nat) (op : sdkE T) :
  (∀ r, p (Ev op r) = false) → disciplined p n (call handle op).
Proof.
  intros Hp s. destruct (d_call_counted 0 op s) as (l & Hlog & Hfs & Hok & Hc).
  exists l. repeat split; try done.
  rewrite call_run in Hlog. cbn [snd log] in Hlog.
  apply app_inv_head in Hlog. subst l. unfold count. simpl.
  rewrite Hp. simpl. lia.
Qed.

Lemma d_bind {A B} (n1 n2 : nat) (m : M Env A) (k : A → M Env B) :
  disciplined p n1 m → (∀ a, disciplined p n2 (k a)) →
  disciplined p (n1 + n2) (m ≫= k).
Proof.
  intros Hm Hk s. rewrite bind_run.
  destruct (Hm s) as (l1 & Hlog1 & Hfs1 & Hok1 & Hc1).
  destruct (m s) as [[a|e|] s1]; cbn [fst snd] in *.
  - destruct (Hk a s1) as (l2 & Hlog2 & Hfs2 & Hok2 & Hc2).
    specialize (Hok1 eq_refl).
    exists (l1 ++ l2). split; [by rewrite Hlog2, Hlog1, app_assoc|].
    split; [|split].
    + destruct Hfs2 as [Hclean|(l' & ev & e & -> & Hclean & Hev & Hout)].
      * left. by apply Forall_app.
      * right. exists (l1 ++ l'), ev, e. rewrite app_assoc.
        repeat split; try done. by apply Forall_app.
    + intros Hr. apply Forall_app. split; [done|]. by apply Hok2.
    + rewrite count_app. lia.
  - exists l1. split; [done|]. split; [|split; [done|lia]].
    destruct Hfs1 as [Hclean|(l' & ev & e0 & -> & Hclean & Hev & [= <-])];
      [by left|].
    right. by exists l', ev, e.
  - exists l1. split; [done|]. split; [|split; [done|lia]].
    destruct Hfs1 as [Hclean|(l' & ev & e0 & -> & Hclean & Hev & [=])].
    by left.
Qed.

Lemma d_bind_call_counted {T B} (n : nat) (op : sdkE T) (k : T → M Env B) :
  (∀ a, disciplined p n (k a)) → disciplined p (S n) (call handle op ≫= k).
Proof. intros Hk. apply (d_bind 1 n); [apply d_call_counted | done]. Qed.

Lemma d_bind_other {A B} (n : nat) (m : M Env A) (k : A → M Env B) :
  disciplined p 0 m → (∀ a, disciplined p n (k a)) →
  disciplined p n (m ≫= k).
Proof. intros Hm Hk. by apply (d_bind 0 n). Qed.


Lemma d_while {S} (fuel : nat) (cond : S → bool) (body : S → M Env (flow S)) :
  (∀ s, disciplined p 0 (body s)) →
  ∀ s, disciplined p 0 (while_loop fuel cond body s).
Proof.
  intros Hbody. induction fuel as [|fuel IH]; intros s.
  - intros st. exists []. rewrite app_nil_r.
    split; [done|]. split; [by left|]. split; [done|]. rewrite count_nil. lia.
  - cbn [while_loop]. destruct (cond s); [|apply d_ret].
    apply d_bind_other; [apply Hbody|].
    intros [s'|s']; [apply IH | apply d_ret].
Qed.

Lemma d_for_each {A} (n : nat) (l : list A) (body : A → M Env unit) :
  (∀ x, disciplined p n (body x)) →
  disciplined p (length l * n) (for_each l body).
Proof.
  intros Hbody. induction l as [|x l IH]; cbn [for_each length]; [apply d_ret|].
  apply d_bind; [apply Hbody | by intros _].
Qed.

End Discipline.

(** Walks through a straight-line piece of the script: a call that [p] does
    not count costs nothing, any other call costs one. *)
Ltac discipline :=
  repeat first
    [ apply d_ret
    | apply d_raise
    | apply d_call_other; [intros ?; reflexivity]
    | apply d_call_counted
    | apply d_bind_other; [apply d_call_other; intros ?; reflexivity | intros ?]
    | apply d_bind_call_counted; intros ?
    | match goal with
      | |- disciplined _ _ (match ?x with _ => _ end ≫= _) =>
          apply d_bind_other; [destruct x | intros ?]
      | |- disciplined _ _ (match ?x with _ => _ end) => destruct x
      end
    | progress cbv zeta ].

(** ** The shape of a run: straight stretches and the two loops *)

Lemma count_zero_Forall (p : event → bool) (l : list event) :
  count p l ≤ 0 → Forall (λ ev, p ev = false) l.
Proof.
  unfold count. induction l as [|ev l IH]; simpl; [constructor|].
  destruct (p ev) eqn:Hp; simpl; [lia|]. intros H. constructor; [done|].
  by apply IH.
Qed.





Section Staged.

Context {Env : Type}.




End Staged.

Section ScriptStages.

Context {Env : Type}.
Variable handle : ∀ T, sdkE T → World Env → reply T * World Env.

















End ScriptStages.

Example run_all_ok_calls :
  (run_all (play scenario_ok) 30 (start_state ∅)).1 = Ok ()
  ∧ length (log (run_all (play scenario_ok) 30 (start_state ∅)).2) = 103.
Proof. vm_compute. done. Qed.

(** ** Re-attempts of the article selection *)








(** ** The result cells run only after "COMPLETED" *)

Lemma app_eq_cons_split {A} (l0 l l1 l2 : list A) (x : A) :
  l0 ++ l = l1 ++ x :: l2 →
  (∃ l2', l0 = l1 ++ x :: l2' ∧ l2 = l2' ++ l)
  ∨ (∃ l1', l1 = l0 ++ l1' ∧ l = l1' ++ x :: l2).
Proof.
  revert l1. induction l0 as [|y l0 IH]; intros l1 Heq.
  - right. by exists l1.
  - destruct l1 as [|z l1]; simpl in Heq.
    + injection Heq as -> <-. left. by exists l0.
    + injection Heq as -> Heq. destruct (IH l1 Heq) as [(l2' & -> & ->)|(l1' & -> & ->)].
      * left. by exists l2'.
      * right. by exists l1'.
Qed.

Lemma no_describe_no_status (l : list event) :
  Forall (λ ev, is_describe ev = false) l → observed_statuses l = [].
Proof.
  unfold observed_statuses. induction 1 as [|ev l Hev Hl IH]; [done|].
  destruct ev as [T [] r]; try discriminate; exact IH.
Qed.

Lemma guarded_nil : guarded [].
Proof. intros [|? ?] ev l2 Heq; discriminate. Qed.

Lemma guarded_app_quiet (l0 l : list event) :
  guarded l0 → Forall (λ ev, is_result_step ev = false) l → guarded (l0 ++ l).
Proof.
  intros H0 Hl l1 ev l2 Heq Hev.
  apply app_eq_cons_split in Heq as [(l2' & -> & _)|(l1' & -> & ->)].
  - by eapply H0.
  - apply Forall_app in Hl as [_ Hl]. apply Forall_inv in Hl. congruence.
Qed.

Lemma completed_app_no_describe (l0 l : list event) :
  completed l0 → Forall (λ ev, is_describe ev = false) l → completed (l0 ++ l).
Proof.
  intros [H0 Hlast] Hl. split.
  - intros l1 ev l2 Heq Hev.
    apply app_eq_cons_split in Heq as [(l2' & -> & _)|(l1' & -> & ->)].
    + by eapply H0.
    + apply Forall_app in Hl as [Hl _].
      by rewrite observed_statuses_app, (no_describe_no_status l1'), app_nil_r.
  - by rewrite observed_statuses_app, (no_describe_no_status l), app_nil_r.
Qed.

Section Keeps.

Context {Env : Type}.

Lemma keeps_bind {A B} (I : list event → Prop) (m : M Env A) (k : A → M Env B) :
  keeps I m → (∀ a, keeps I (k a)) → keeps I (m ≫= k).
Proof.
  intros Hm Hk s Hs. rewrite bind_run. specialize (Hm s Hs).
  destruct (m s) as [[a|e|] s1]; cbn [fst snd] in *; [by apply Hk|done..].
Qed.

Lemma guarded_keeps {A} (m : M Env A) :
  disciplined is_result_step 0 m → keeps guarded m.
Proof.
  intros Hm s Hs. destruct (Hm s) as (l & -> & _ & _ & Hc).
  by apply guarded_app_quiet, count_zero_Forall.
Qed.

Lemma completed_keeps {A} (m : M Env A) :
  disciplined is_describe 0 m → keeps completed m.
Proof.
  intros Hm s Hs. destruct (Hm s) as (l & -> & _ & _ & Hc).
  by apply completed_app_no_describe, count_zero_Forall.
Qed.

End Keeps.

Tactic Notation "quiet_step" uconstr(rule) "as" simple_intropattern(x) :=
  apply keeps_bind; [apply rule | intros x].

Section Guard.

Context {Env : Type}.
Variable handle : ∀ T, sdkE T → World Env → reply T * World Env.

Lemma cell16_skipped (r : option pyprops) (s : State Env) :
  last_status r ≠ Some "COMPLETED" →
  (cell16 handle r s).2 = s
  ∧ ∀ results, (cell16 handle r s).1 ≠ Ok (Some results).
Proof.
  intros Hr. unfold cell16, subscript_JobStatus.
  destruct r as [[[[st|] out inp]|]|]; try done.
  cbn [JobStatus]. rewrite ret_bind_run. simpl in Hr.
  destruct (String.eqb_spec st "COMPLETED") as [->|Hne]; done.
Qed.

Lemma cell14_completed (fuel : nat) (job_id : string) (s : State Env) :
  maximum_comprehend_status_checks < fuel →
  guarded (log s) →
  guarded (log (cell14 handle fuel job_id s).2)
  ∧ ∀ v, (cell14 handle fuel job_id s).1 = Ok v →
         completed (log (cell14 handle fuel job_id s).2).
Proof.
  intros Hfuel Hs.
  assert (guarded (log (cell14 handle fuel job_id s).2)) as Hg.
  { revert s Hs. apply guarded_keeps. unfold cell14, poll_loop.
    apply d_bind_other.
    - apply d_while. intros v. unfold poll_body, subscript_JobStatus. discipline.
    - intros v. unfold subscript_JobStatus. discipline. }
  split; [done|]. intros v Hv. split; [done|].
  destruct (cell14_run handle fuel job_id s Hfuel) as (l & Hlog & _ & _ & Hcases).
  rewrite Hlog, observed_statuses_app.
  destruct Hcases as [(v1 & sts & st & Hobs & _ & _ & [(-> & _)|(_ & Hout & _)])
                     |(e & Hout & _)];
    [|rewrite Hout in Hv; discriminate..].
  by rewrite Hobs, app_assoc, last_snoc.
Qed.

Lemma run_all_guarded (fuel : nat) :
  maximum_comprehend_status_checks < fuel → keeps guarded (run_all handle fuel).
Proof.
  intros Hfuel. unfold run_all.
  quiet_step guarded_keeps as _.
  { unfold cell3. discipline. }
  quiet_step guarded_keeps as s3_bucket.
  { unfold cell4. discipline. }
  quiet_step guarded_keeps as _.
  { unfold cell7. apply d_bind_other; [|intros _; discipline].
    apply (d_for_each _ 0). intros article. discipline. }
  quiet_step guarded_keeps as _.
  { unfold cell9, subscript0. discipline. }
  quiet_step guarded_keeps as job_id.
  { unfold cell12. discipline. }
  intros s Hs. rewrite bind_run.
  destruct (cell14_completed fuel job_id s Hfuel Hs) as [Hg Hk].
  destruct (cell14 handle fuel job_id s) as [[v|e|] s1]; cbn [fst snd] in *;
    [|done..].
  specialize (Hk v eq_refl). clear Hg. revert s1 Hk. cbv zeta.
  assert (keeps completed
            (cell16 handle (describe_topics_detection_job_result v)
             ≫= λ results,
                  cell18 handle (describe_topics_detection_job_result v) results
                  ≫= λ _, cell20 handle
                  ≫= λ huggingface_model, cell21 handle s3_bucket huggingface_model
                  ≫= λ predictor, cell23 handle fuel
                  ≫= λ inputs, cell24 handle predictor inputs
                  ≫= λ _, cell26 handle predictor s3_bucket)) as Hrest.
  { quiet_step completed_keeps as results.
    { unfold cell16, subscript_JobStatus, subscript_S3Uri. discipline. }
    quiet_step completed_keeps as _.
    { unfold cell18, subscript_JobStatus, subscript_S3Uri. discipline. }
    quiet_step completed_keeps as huggingface_model.
    { unfold cell20. discipline. }
    quiet_step completed_keeps as predictor.
    { unfold cell21. discipline. }
    quiet_step completed_keeps as inputs.
    { unfold cell23, select_loop. apply d_bind_other.
      - apply d_while. intros v0. unfold select_body, subscript0. discipline.
      - intros v0. discipline. }
    quiet_step completed_keeps as _.
    { unfold cell24. discipline. }
    apply completed_keeps. unfold cell26. discipline. }
  intros s1 Hk. by apply Hrest.
Qed.

End Guard.

Section GuardClaim.

Context {Env : Type}.
Variable handle : ∀ T, sdkE T → World Env → reply T * World Env.

(** C3.  When the status held in [describe_topics_detection_job_result] is
    not "COMPLETED" (or there is none), cell 16 makes no call at all, so it
    downloads, unpacks and parses nothing, and binds no results table.  And
    in a run of the whole notebook every download of results, unpacking,
    [read_csv] and display of the merged table comes after a status check,
    the last status observed before it being "COMPLETED". *)
Theorem results_only_after_completed :
  (∀ (r : option pyprops) (s : State Env),
     last_status r ≠ Some "COMPLETED" →
     (cell16 handle r s).2 = s
     ∧ ∀ results, (cell16 handle r s).1 ≠ Ok (Some results))
  ∧ (∀ (fuel : nat) (s : State Env),
       maximum_comprehend_status_checks < fuel →
       guarded (log s) →
       guarded (log (run_all handle fuel s).2)).
Proof.
  split.
  - intros r s Hr. by apply cell16_skipped.
  - intros fuel s Hfuel Hs. by apply run_all_guarded.
Qed.

End GuardClaim.

(** A failed job: cell 16 does nothing; a completed job: the run is guarded. *)
Lemma results_only_after_completed_witness :
  ((cell16 (play scenario_failed)
      (Some (Props (mkProps (Some "FAILED") None None))) (start_state ∅)).2
   = start_state ∅
   ∧ ∀ results,
       (cell16 (play scenario_failed)
          (Some (Props (mkProps (Some "FAILED") None None))) (start_state ∅)).1
       ≠ Ok (Some results))
  ∧ guarded (log (run_all (play scenario_ok) 30 (start_state ∅)).2).
Proof.
  split.
  - apply (results_only_after_completed (play scenario_failed)). done.
  - apply (results_only_after_completed (play scenario_ok)).
    + unfold maximum_comprehend_status_checks. lia.
    + apply guarded_nil.
Defined.

Example run_all_ok_has_result_steps :
  count is_result_step (log (run_all (play scenario_ok) 30 (start_state ∅)).2) = 6
  ∧ count is_result_step
      (log (run_all (play scenario_failed) 30 (start_state ∅)).2) = 0.
Proof. vm_compute. done. Qed.

(** ** The claims on concrete worlds *)

(** Clean-up of [cleanup_state]: the object of the other project stays, the
    article goes. *)
Lemma cleanup_deletes_sci_docs_only_witness :
  (cell26 (play scenario_ok) "pegasus-endpoint" "sagemaker-bucket"
     cleanup_state).1 = Ok ()
  ∧ object_at
      (world (cell26 (play scenario_ok) "pegasus-endpoint" "sagemaker-bucket"
                cleanup_state).2)
      "sagemaker-bucket" "other-project/model.tar.gz"
    = Some "weights"
  ∧ object_at
      (world (cell26 (play scenario_ok) "pegasus-endpoint" "sagemaker-bucket"
                cleanup_state).2)
      "sagemaker-bucket" "sci-docs/data/raw/PMC1043862.txt"
    = None.
Proof.
  destruct (cleanup_deletes_sci_docs_only (play scenario_ok)
              "pegasus-endpoint" "sagemaker-bucket" cleanup_state)
    as (Hframe & _ & Hdone & Hruns).
  assert ((cell26 (play scenario_ok) "pegasus-endpoint" "sagemaker-bucket"
             cleanup_state).1 = Ok ()) as Hok.
  { apply Hruns.
    - by apply elem_of_singleton.
    - by eexists.
    - by intros w.
    - intros w. by exists 0%Z. }
  split; [exact Hok|]. split.
  - rewrite Hframe; [reflexivity | by right].
  - by apply Hdone.
Defined.

(** A world whose only article has no background section, and one whose
    article has it. *)
Lemma selection_exits_only_on_match_witness :
  (∀ fuel s, (select_loop
                (play (scenario_always "PMC1043862.txt"
                         (λ _, lit "Abstract only.")))
                fuel s).1 = OutOfFuel)
  ∧ ∃ v s' a, select_loop
                (play (scenario_always "PMC1054881.txt"
                         (λ _, lit "Background Topic models.")))
                2 (start_state ∅) = (Ok v, s')
      ∧ a ∈ article_names
      ∧ art v = Some a
      ∧ log s' = log (start_state ∅)
                 ++ selection_pass a [] (lit "Background Topic models.").
Proof.
  destruct selection_exits_only_on_match as (_ & Hnever & Hfirst & _).
  split.
  - apply (Hnever Tally _ (λ _, lit "Abstract only.")).
    + apply play_local_articles. apply list_elem_of_In. by left.
    + intros a _. by vm_compute.
  - apply (Hfirst Tally _ (λ _, lit "Background Topic models.")).
    + apply play_local_articles. apply list_elem_of_In. right. by left.
    + intros a _. by vm_compute.
    + lia.
Defined.


(** A job that fails is polled 20 times, 1200 seconds are slept, and the
    cell raises the [UserWarning]. *)
Example poll_of_failed_job :
  (cell14 (play scenario_failed) 21 "job-1" (start_state ∅)).1
  = Raised timeout_warning
  ∧ count is_describe
      (log (cell14 (play scenario_failed) 21 "job-1" (start_state ∅)).2) = 20
  ∧ total_slept
      (log (cell14 (play scenario_failed) 21 "job-1" (start_state ∅)).2) = 1200.
Proof. vm_compute. done. Qed.

(** The tables of [scenario_ok]: rows of equal docname and proportion keep
    their order, and topic 7, which has no terms, gets a missing value. *)
Example results_of_scenario_ok :
  topics_of (topic_terms_csv scenario_ok)
  = [(0%Z, "tumor, cell"); (1%Z, "protein, gene")]
  ∧ results_of (topic_terms_csv scenario_ok) (doc_topics_csv scenario_ok)
    = [Results.mk "a.txt" 0 (1#2) (Some "tumor, cell");
       Results.mk "a.txt" 7 (1#2) None;
       Results.mk "b.txt" 1 (9#10) (Some "protein, gene")].
Proof. vm_compute. done. Qed.

(** The text of the second article of [scenario_ok]: what follows
    "Background ", newline and tab replaced by spaces. *)
Example inputs_of_scenario_ok :
  (cell23 (play scenario_ok) 3 (start_state ∅)).1
  = Ok (Some (lit "Topic models help. Methods")).
Proof. vm_compute. reflexivity. Qed.

(** * Further properties of the cells *)

Section PollMore.

Context {Env : Type}.
Variable handle : ∀ T, sdkE T → World Env → reply T * World Env.
Variable job_id : string.

(** One pass through the body of the poll, call by call. *)
Lemma poll_body_run (v : PollVars) (s : State Env) :
  poll_body handle job_id v s
  = match perform handle (DescribeTopicsDetectionJob job_id) (world s) with
    | (Threw e, w1) =>
        (Raised e,
         mkState w1 (log s ++ [Ev (DescribeTopicsDetectionJob job_id) (Threw e)]))
    | (Returned resp, w1) =>
        match status_of resp with
        | None =>
            (Raised (malformed_error resp),
             mkState w1 (log s ++ [Ev (DescribeTopicsDetectionJob job_id)
                                     (Returned resp)]))
        | Some st =>
            let n := S (number_of_comprehend_status_checks v) in
            let line := checking_line n job_id st in
            let w2 := (show (Line line) w1).2 in
            if String.eqb st "COMPLETED"
            then (Ok (Break (mkPoll n (Some (get_properties resp)))),
                  mkState w2
                    (log s ++ [Ev (DescribeTopicsDetectionJob job_id) (Returned resp);
                               Ev (Print line) (Returned ())]))
            else match perform handle (Sleep comprehend_status_check_sleep) w2 with
                 | (Threw e, w3) =>
                     (Raised e,
                      mkState w3
                        (log s ++ [Ev (DescribeTopicsDetectionJob job_id) (Returned resp);
                                   Ev (Print line) (Returned ());
                                   Ev (Sleep comprehend_status_check_sleep) (Threw e)]))
                 | (Returned _, w3) =>
                     (Ok (Continue (mkPoll n (Some (get_properties resp)))),
                      mkState w3
                        (log s ++ [Ev (DescribeTopicsDetectionJob job_id) (Returned resp);
                                   Ev (Print line) (Returned ());
                                   Ev (Sleep comprehend_status_check_sleep)
                                      (Returned ())]))
                 end
        end
    end.
Proof.
  unfold poll_body. rewrite bind_run, call_run.
  destruct (perform handle (DescribeTopicsDetectionJob job_id) (world s))
    as [[resp|e] w1]; cbn [fst snd]; [|done].
  destruct resp as [[[[st|] out inp]|]];
    unfold status_of, subscript_JobStatus, get_properties, checking_line;
    cbn [TopicsDetectionJobProperties JobStatus mbind option_bind]; [|done..].
  cbv zeta. rewrite ret_bind_run, bind_run, print_run. cbn [world log].
  destruct (String.eqb st "COMPLETED"); [by rewrite ret_run, <- app_assoc|].
  rewrite bind_run, call_run. cbn [world log].
  destruct (perform handle (Sleep comprehend_status_check_sleep) _)
    as [[[]|e] w3]; cbn [fst snd]; by rewrite ?ret_run, <- !app_assoc.
Qed.

Lemma present_statuses_app (l1 l2 : list event) :
  present_statuses (l1 ++ l2) = present_statuses l1 ++ present_statuses l2.
Proof. unfold present_statuses. by rewrite observed_statuses_app, omap_app. Qed.

(** The poll, for any number of passes granted: the lines it prints are
    numbered from the counter on, and an answer without a status ends it. *)
Lemma poll_loop_log (fuel : nat) :
  ∀ (v : PollVars) (s : State Env),
    ∃ l, log (while_loop fuel poll_cond (poll_body handle job_id) v s).2
         = log s ++ l
      ∧ omap printed l
        = imap (λ i st, checking_line
                          (S (i + number_of_comprehend_status_checks v))
                          job_id st)
               (present_statuses l)
      ∧ (None ∈ observed_statuses l →
         ∃ l' resp,
           l = l' ++ [Ev (DescribeTopicsDetectionJob job_id) (Returned resp)]
           ∧ status_of resp = None
           ∧ (while_loop fuel poll_cond (poll_body handle job_id) v s).1
             = Raised (malformed_error resp)).
Proof.
  induction fuel as [|fuel IH]; intros v s.
  { exists []. rewrite app_nil_r. repeat split; try done. by intros ?%elem_of_nil. }
  cbn [while_loop]. destruct (poll_cond v).
  2:{ exists []. rewrite app_nil_r. repeat split; try done.
      by intros ?%elem_of_nil. }
  rewrite bind_run, poll_body_run.
  destruct (perform handle (DescribeTopicsDetectionJob job_id) (world s))
    as [[resp|e] w1].
  2:{ eexists. split; [reflexivity|]. split; [done|]. by intros ?%elem_of_nil. }
  destruct (status_of resp) as [st|] eqn:Hst.
  2:{ eexists. split; [reflexivity|]. split.
      - unfold present_statuses, observed_statuses. cbn. fold (status_of resp).
        by rewrite Hst.
      - intros _. by exists [], resp. }
  cbv zeta. destruct (String.eqb st "COMPLETED").
  { eexists. split; [reflexivity|]. split.
    - unfold present_statuses, observed_statuses. cbn. fold (status_of resp).
      by rewrite Hst.
    - unfold observed_statuses. cbn. fold (status_of resp). rewrite Hst.
      by intros [=]%list_elem_of_singleton. }
  destruct (perform handle (Sleep comprehend_status_check_sleep) _)
    as [[[]|e] w3].
  2:{ eexists. split; [reflexivity|]. split.
      - unfold present_statuses, observed_statuses. cbn. fold (status_of resp).
        by rewrite Hst.
      - unfold observed_statuses. cbn. fold (status_of resp). rewrite Hst.
        by intros [=]%list_elem_of_singleton. }
  set (v1 := mkPoll _ _). set (s1 := mkState w3 _).
  destruct (IH v1 s1) as (l & Hlog & Hlines & Hbad).
  set (chunk := [Ev (DescribeTopicsDetectionJob job_id) (Returned resp);
                 Ev (Print (checking_line (S (number_of_comprehend_status_checks v))
                              job_id st)) (Returned ());
                 Ev (Sleep comprehend_status_check_sleep) (Returned ())]).
  assert (observed_statuses chunk = [Some st]) as Hobs.
  { unfold observed_statuses, chunk. cbn. fold (status_of resp). by rewrite Hst. }
  assert (present_statuses chunk = [st]) as Hpres
    by (unfold present_statuses; by rewrite Hobs).
  exists (chunk ++ l). split; [|split].
  - rewrite Hlog. unfold s1, chunk. cbn [log]. by rewrite <- !app_assoc.
  - rewrite omap_app, present_statuses_app, Hlines, Hpres.
    cbn [app imap]. change (omap printed chunk)
      with [checking_line (S (number_of_comprehend_status_checks v)) job_id st].
    cbn [app]. f_equal. apply imap_ext. intros i x _. unfold v1. cbn.
    f_equal. lia.
  - rewrite observed_statuses_app, Hobs.
    intros [[=]%list_elem_of_singleton|Hin]%elem_of_app.
    destruct (Hbad Hin) as (l' & resp' & -> & Hst' & Hout).
    exists (chunk ++ l'), resp'. by rewrite app_assoc.
Qed.

Lemma cell14_after_loop (fuel : nat) (s : State Env) :
  (cell14 handle fuel job_id s).2 = (poll_loop handle fuel job_id s).2
  ∧ ∀ e, (poll_loop handle fuel job_id s).1 = Raised e →
         (cell14 handle fuel job_id s).1 = Raised e.
Proof.
  unfold cell14. rewrite bind_run.
  destruct (poll_loop handle fuel job_id s) as [[v|e|] s1]; [|done..].
  split; [|done]. unfold subscript_JobStatus.
  destruct (describe_topics_detection_job_result v) as [[[[st|] ? ?]|]|];
    cbn [JobStatus]; try done.
  rewrite ret_bind_run. by destruct (negb _).
Qed.

End PollMore.

Section PollMoreClaims.

Context {Env : Type}.
Variable handle : ∀ T, sdkE T → World Env → reply T * World Env.

(** X1.  An answer of [describe_topics_detection_job] without
    "TopicsDetectionJobProperties" or without "JobStatus" ends cell 14 at
    that check: the answer is the last call logged (nothing is printed, no
    sleep and no further check follow) and the cell raises the [TypeError]
    of subscripting the default [[]], or [KeyError "JobStatus"], not the
    [UserWarning]. *)
Theorem poll_stops_at_answer_without_status
    (fuel : nat) (job_id : string) (s : State Env) :
  ∃ l, log (cell14 handle fuel job_id s).2 = log s ++ l
    ∧ (None ∈ observed_statuses l →
       ∃ l' resp,
         l = l' ++ [Ev (DescribeTopicsDetectionJob job_id) (Returned resp)]
         ∧ status_of resp = None
         ∧ (cell14 handle fuel job_id s).1 = Raised (malformed_error resp)).
Proof.
  destruct (cell14_after_loop handle job_id fuel s) as [Hstate Hraised].
  destruct (poll_loop_log handle job_id fuel (mkPoll 0 None) s)
    as (l & Hlog & _ & Hbad).
  exists l. rewrite Hstate. split; [done|]. intros Hin.
  destruct (Hbad Hin) as (l' & resp & -> & Hst & Hout).
  exists l', resp. repeat split; try done. by apply Hraised.
Qed.

(** X3.  The lines cell 14 prints are numbered from 1: the line of the
    [i]-th check that has a status reads "Checking i of 20: Job <job_id>
    status is <status>", and nothing else is printed. *)
Theorem poll_prints_numbered_lines
    (fuel : nat) (job_id : string) (s : State Env) :
  ∃ l, log (cell14 handle fuel job_id s).2 = log s ++ l
    ∧ omap printed l
      = imap (λ i st, checking_line (S i) job_id st) (present_statuses l).
Proof.
  destruct (cell14_after_loop handle job_id fuel s) as [Hstate _].
  destruct (poll_loop_log handle job_id fuel (mkPoll 0 None) s)
    as (l & Hlog & Hlines & _).
  exists l. rewrite Hstate. split; [done|]. rewrite Hlines.
  apply imap_ext. intros i x _. cbn. f_equal. lia.
Qed.

End PollMoreClaims.

Lemma total_slept_app (l1 l2 : list event) :
  total_slept (l1 ++ l2) = total_slept l1 + total_slept l2.
Proof. unfold total_slept. by rewrite omap_app, sum_list_with_app. Qed.

Lemma poll_step_slept (job_id : string) (n : nat) (l : list event)
    (o : outcome (flow PollVars)) :
  poll_step job_id n l o →
  match o with
  | Ok (Continue _) => total_slept l = comprehend_status_check_sleep
  | Ok (Break _) => total_slept l = 0
  | _ => True
  end.
Proof. by destruct 1. Qed.

(** A poll that ends normally: after a "COMPLETED" answer one sleep fewer
    than checks, otherwise (budget spent) as many sleeps as checks. *)
Lemma poll_run_ok_slept (job_id : string) (v : PollVars) (l : list event)
    (v' : PollVars) :
  poll_run job_id v l (Ok v') →
  number_of_comprehend_status_checks v ≤ maximum_comprehend_status_checks →
  (l = [] ∧ v' = v ∧ poll_cond v = false)
  ∨ ∃ sts resp,
      observed_statuses l = sts ++ [status_of resp]
      ∧ describe_topics_detection_job_result v' = Some (get_properties resp)
      ∧ (status_of resp = Some "COMPLETED" →
         total_slept l + comprehend_status_check_sleep
         = comprehend_status_check_sleep * count is_describe l)
      ∧ (status_of resp ≠ Some "COMPLETED" →
         total_slept l = comprehend_status_check_sleep * count is_describe l
         ∧ count is_describe l + number_of_comprehend_status_checks v
           = maximum_comprehend_status_checks).
Proof.
  intros H. remember (Ok v') as o eqn:Ho. revert v' Ho.
  induction H as [v Hc|v l v1 Hc Hs|v l e' Hc Hs|v l v1 l' o Hc Hs Hr IH];
    intros v' Ho Hle; try discriminate.
  - injection Ho as <-. by left.
  - injection Ho as <-. right.
    pose proof (poll_step_count _ _ _ _ Hs) as Hone.
    pose proof (poll_step_slept _ _ _ _ Hs) as Hslept. cbn in Hslept.
    apply poll_step_statuses in Hs as (resp & Hobs & Hst & -> & _).
    exists [], resp. rewrite Hobs, Hst, Hslept, Hone. by repeat split.
  - right.
    pose proof (poll_step_count _ _ _ _ Hs) as Hone.
    pose proof (poll_step_slept _ _ _ _ Hs) as Hslept. cbn in Hslept.
    apply poll_step_statuses in Hs as (resp & st & Hobs & Hne & Hst & -> & _).
    apply Nat.ltb_lt in Hc. cbn [number_of_comprehend_status_checks] in IH.
    rewrite total_slept_app, count_app, observed_statuses_app, Hobs, Hslept, Hone.
    destruct (IH v' Ho) as [(-> & -> & Hc')|(sts & resp' & Hobs' & Hres & Hdone & Hspent)];
      [lia| |].
    + exists [], resp. rewrite Hst.
      change (count is_describe []) with 0. change (total_slept []) with 0.
      split; [done|]. split; [done|]. split; [congruence|]. intros _.
      split; [lia|]. apply poll_cond_false in Hc'; [|cbn; lia]. cbn in Hc'. lia.
    + exists (Some st :: sts), resp'. rewrite Hobs'.
      split; [done|]. split; [done|]. split.
      * intros Hd. specialize (Hdone Hd). lia.
      * intros Hd. destruct (Hspent Hd). lia.
Qed.

Section PollSleeps.

Context {Env : Type}.
Variable handle : ∀ T, sdkE T → World Env → reply T * World Env.

(** X2.  When cell 14 ends normally it has slept 60 seconds after every
    check but the last: 60 times the number of checks, less 60.  When no
    call raises and no status observed is "COMPLETED" it has slept after
    each of its 20 checks, the last one too: the 1200 seconds its warning
    reports. *)
Theorem poll_sleeps_between_checks
    (fuel : nat) (job_id : string) (s : State Env) :
  maximum_comprehend_status_checks < fuel →
  ∃ l, log (cell14 handle fuel job_id s).2 = log s ++ l
    ∧ (∀ v, (cell14 handle fuel job_id s).1 = Ok v →
            total_slept l + 60 = 60 * count is_describe l)
    ∧ (Forall clean l → Forall not_completed (observed_statuses l) →
       total_slept l = 1200).
Proof.
  intros Hfuel. unfold cell14, poll_loop. rewrite bind_run.
  destruct (poll_loop_run handle job_id fuel (mkPoll 0 None) s)
    as (l & Hrun & Hlog); [cbn [number_of_comprehend_status_checks]; lia|].
  destruct (while_loop fuel poll_cond (poll_body handle job_id) _ s)
    as [[v|e|] s1]; cbn [fst snd] in *.
  - destruct (poll_run_ok_slept _ _ _ _ Hrun)
      as [(_ & _ & Hc)|(sts & resp & Hobs & Hres & Hdone & Hspent)];
      [cbn; lia|done|].
    rewrite Hres. unfold subscript_JobStatus, get_properties.
    destruct resp as [[[[st|] out inp]|]]; unfold status_of in *;
      cbn in Hobs, Hdone, Hspent |- *.
    + rewrite ret_bind_run.
      destruct (String.eqb_spec st "COMPLETED") as [->|Hne]; cbn.
      * exists l. split; [done|]. split; [intros _ _; by apply Hdone|].
        intros _ Hall. rewrite Hobs in Hall.
        apply Forall_app in Hall as [_ Hall]. apply Forall_inv in Hall.
        by destruct Hall as (s' & [= <-] & Hne).
      * exists l. split; [done|]. split; [done|]. intros _ _.
        destruct Hspent as [-> Hcount]; [congruence|].
        unfold maximum_comprehend_status_checks in Hcount. lia.
    + exists l. split; [done|]. split; [done|].
      intros _ Hall. rewrite Hobs in Hall.
      apply Forall_app in Hall as [_ Hall]. apply Forall_inv in Hall.
      by destruct Hall as (s' & [=] & _).
    + exists l. split; [done|]. split; [done|].
      intros _ Hall. rewrite Hobs in Hall.
      apply Forall_app in Hall as [_ Hall]. apply Forall_inv in Hall.
      by destruct Hall as (s' & [=] & _).
  - exists l. split; [done|]. split; [done|]. intros Hclean Hall.
    apply poll_run_raised in Hrun as [_ [Hbad|Hbad]].
    + apply Exists_exists in Hbad as (ev & Hin & Hev).
      rewrite Forall_forall in Hclean. exfalso. by apply Hev, Hclean.
    + rewrite Forall_forall in Hall. by destruct (Hall _ Hbad) as (? & [=] & _).
  - by apply poll_run_fuel in Hrun.
Qed.

End PollSleeps.

(** ** The copy of the articles (cell 7) *)

Section Copy.

Context {Env : Type}.
Variable handle : ∀ T, sdkE T → World Env → reply T * World Env.

(** The [for] loop over any list of names: the articles are downloaded in
    the order of the list, each after its name is printed, up to the first
    download that raises, which is the last call made. *)
Lemma download_loop_run (names : list string) :
  ∀ s : State Env,
    ∃ k l,
      log (for_each names (λ article,
             call handle (Print article);;
             call handle (DownloadData local_raw_data_dir pmc_bucket
                            (pmc_prefix +:+ article))) s).2
      = log s ++ l
      ∧ omap download_of l = map article_download (take k names)
      ∧ omap printed l = take k names
      ∧ omap upload_of l = []
      ∧ (((for_each names (λ article,
              call handle (Print article);;
              call handle (DownloadData local_raw_data_dir pmc_bucket
                             (pmc_prefix +:+ article))) s).1 = Ok ()
          ∧ k = length names ∧ Forall clean l)
         ∨ ∃ l' a e,
             l = l' ++ [Ev (DownloadData local_raw_data_dir pmc_bucket
                              (pmc_prefix +:+ a)) (Threw e)]
             ∧ Forall clean l'
             ∧ 1 ≤ k ∧ names !! (k - 1) = Some a
             ∧ (for_each names (λ article,
                  call handle (Print article);;
                  call handle (DownloadData local_raw_data_dir pmc_bucket
                                 (pmc_prefix +:+ article))) s).1 = Raised e).
Proof.
  induction names as [|a names IH]; intros s.
  { exists 0, []. rewrite app_nil_r. do 4 (split; [done|]). by left. }
  cbn [for_each]. rewrite !bind_run, print_run. cbn [world log].
  rewrite call_run. cbn [world log].
  destruct (perform handle (DownloadData local_raw_data_dir pmc_bucket
                              (pmc_prefix +:+ a)) _) as [[[]|e] w2];
    cbn [fst snd].
  - set (s2 := mkState w2 _).
    destruct (IH s2) as (k & l & Hlog & Hd & Hp & Hu & Hend).
    exists (S k), ([Ev (Print a) (Returned ());
                    Ev (DownloadData local_raw_data_dir pmc_bucket (pmc_prefix +:+ a))
                       (Returned ())] ++ l).
    split; [rewrite Hlog; unfold s2; cbn [log]; by rewrite <- !app_assoc|].
    rewrite !omap_app, Hd, Hp, Hu. do 3 (split; [done|]).
    destruct Hend as [(Hrun & -> & Hclean)|(l' & a0 & e & -> & Hclean & Hk & Ha0 & Hrun)].
    + left. split; [done|]. split; [done|].
      apply Forall_app. split; [by repeat constructor | done].
    + right. exists ([Ev (Print a) (Returned ());
                      Ev (DownloadData local_raw_data_dir pmc_bucket
                            (pmc_prefix +:+ a)) (Returned ())] ++ l'), a0, e.
      rewrite <- app_assoc. split; [done|]. split.
      { apply Forall_app. split; [by repeat constructor | done]. }
      split; [lia|]. split; [|done].
      replace (S k - 1) with (S (k - 1)) by lia. exact Ha0.
  - exists 1, [Ev (Print a) (Returned ());
               Ev (DownloadData local_raw_data_dir pmc_bucket (pmc_prefix +:+ a))
                  (Threw e)].
    split; [by rewrite <- !app_assoc|]. do 3 (split; [done|]).
    right. exists [Ev (Print a) (Returned ())], a, e.
    split; [done|]. split; [by repeat constructor|]. by repeat split.
Qed.

(** X4.  Cell 7 downloads the articles in the order of [article_names], each
    from the public bucket under its own key, after printing its name and
    only after the ones before it were downloaded.  Either all 25 downloads
    return, and then the upload to the session bucket, under
    "sci-docs/data/raw", is called, once, and the cell ends as the upload
    does; or the cell stops at the first download that raises: it is the
    last call made, the download of the [k]-th article, every call before it
    returned, the cell raises its exception and the upload is not called. *)
Theorem copy_uploads_after_all_downloads (s3_bucket : string) (s : State Env) :
  ∃ k downloads upload,
    log (cell7 handle s3_bucket s).2 = log s ++ downloads ++ upload
    ∧ omap download_of downloads = map article_download (take k article_names)
    ∧ omap printed downloads = take k article_names
    ∧ omap upload_of downloads = []
    ∧ ((k = 25 ∧ Forall clean downloads
        ∧ ∃ r, upload = [Ev (UploadData local_raw_data_dir s3_bucket
                                "sci-docs/data/raw") r]
               ∧ (cell7 handle s3_bucket s).1
                 = match r with
                   | Returned _ => Ok ()
                   | Threw e => Raised e
                   end)
       ∨ (upload = []
          ∧ ∃ l' a e,
              downloads
              = l' ++ [Ev (DownloadData local_raw_data_dir pmc_bucket
                             (pmc_prefix +:+ a)) (Threw e)]
              ∧ Forall clean l'
              ∧ 1 ≤ k ∧ article_names !! (k - 1) = Some a
              ∧ (cell7 handle s3_bucket s).1 = Raised e)).
Proof.
  unfold cell7. rewrite bind_run.
  destruct (download_loop_run article_names s)
    as (k & l & Hlog & Hd & Hp & Hu & Hend).
  destruct Hend as [(Hrun & -> & Hclean)|(l' & a & e & -> & Hclean & Hk & Ha & Hrun)].
  - destruct (for_each article_names _ s) as [[[]|e|] s1]; cbn [fst snd] in *;
      try discriminate Hrun.
    rewrite call_run. cbn [fst snd log].
    exists (length article_names), l. eexists. rewrite Hlog, <- app_assoc.
    split; [reflexivity|]. do 3 (split; [done|]).
    left. split; [done|]. split; [done|]. eexists. split; [reflexivity|].
    by destruct (perform handle _ _) as [[[]|e] w].
  - destruct (for_each article_names _ s) as [[[]|e0|] s1]; cbn [fst snd] in *;
      try discriminate Hrun.
    injection Hrun as ->.
    exists k, (l' ++ [Ev (DownloadData local_raw_data_dir pmc_bucket
                            (pmc_prefix +:+ a)) (Threw e)]), [].
    rewrite app_nil_r. do 4 (split; [done|]).
    right. split; [done|]. by exists l', a, e.
Qed.

End Copy.

(** ** Clean-up when something is missing (cell 26) *)

Section CleanUpMore.

Context {Env : Type}.
Variable handle : ∀ T, sdkE T → World Env → reply T * World Env.

(** The two local calls of the cell keep the endpoints and the buckets. *)
Lemma local_call_run {T} (op : sdkE T) (s : State Env) :
  is_local op = true →
  ∃ (r : reply T) (w : Env),
    call handle op s
    = (match r with Returned v => Ok v | Threw e => Raised e end,
       mkState (mkWorld (s3 (world s)) (endpoints (world s))
                        (stdout (world s)) w)
               (log s ++ [Ev op r])).
Proof.
  intros Hloc. rewrite call_run.
  destruct op; try discriminate Hloc; cbn [perform is_local];
    by eexists _, _.
Qed.

(** X9.  Clean-up stops at the first step that fails.  When the endpoint is
    not there, [delete_endpoint] raises and nothing is changed: the objects
    under "sci-docs" stay.  When the endpoint is there and the bucket is
    not, the cell raises without running [rm -rf data], the endpoint being
    deleted all the same.  Hence a second clean-up after one that ended
    normally raises and changes nothing. *)
Theorem cleanup_stops_at_first_failure
    (predictor s3_bucket : string) (s : State Env) :
  (predictor ∉ endpoints (world s) →
   cell26 handle predictor s3_bucket s
   = (Raised endpoint_not_found,
      mkState (world s)
              (log s ++ [Ev (DeleteEndpoint predictor) (Threw endpoint_not_found)])))
  ∧ (predictor ∈ endpoints (world s) → s3 (world s) !! s3_bucket = None →
     ∃ e l, (cell26 handle predictor s3_bucket s).1 = Raised e
       ∧ log (cell26 handle predictor s3_bucket s).2 = log s ++ l
       ∧ count is_shell l = 0
       ∧ predictor ∉ endpoints (world (cell26 handle predictor s3_bucket s).2))
  ∧ (∀ s', cell26 handle predictor s3_bucket s = (Ok (), s') →
       cell26 handle predictor s3_bucket s'
       = (Raised endpoint_not_found,
          mkState (world s')
                  (log s' ++ [Ev (DeleteEndpoint predictor)
                                (Threw endpoint_not_found)]))).
Proof.
  assert (∀ s0 : State Env,
            predictor ∉ endpoints (world s0) →
            cell26 handle predictor s3_bucket s0
            = (Raised endpoint_not_found,
               mkState (world s0)
                 (log s0 ++ [Ev (DeleteEndpoint predictor)
                               (Threw endpoint_not_found)]))) as Hmissing.
  { intros s0 Hnot. unfold cell26. rewrite bind_run, delete_endpoint_run.
    by destruct (decide _). }
  assert (predictor ∉ endpoints (world s) ∖ {[predictor]}) as Hgone.
  { intros [_ Hn]%elem_of_difference. apply Hn. by apply elem_of_singleton. }
  split; [apply Hmissing|]. split.
  - intros Hin Hb. unfold cell26. rewrite bind_run, delete_endpoint_run.
    destruct (decide _) as [_|]; [|done].
    rewrite bind_run.
    destruct (local_call_run (BotoResource "s3")
                (mkState (mkWorld (s3 (world s))
                                  (endpoints (world s) ∖ {[predictor]})
                                  (stdout (world s)) (env (world s)))
                         (log s ++ [Ev (DeleteEndpoint predictor) (Returned ())])))
      as (r & w & ->); [done|].
    cbn [world log s3 endpoints stdout env].
    destruct r as [[]|e].
    + rewrite bind_run, delete_objects_run. cbn [world log s3 endpoints stdout env].
      rewrite Hb. eexists _, _. split; [done|]. cbn [snd log world endpoints].
      rewrite <- !app_assoc. split; [reflexivity|]. by split.
    + eexists _, _. split; [done|]. cbn [snd log world endpoints].
      rewrite <- !app_assoc. split; [reflexivity|]. by split.
  - intros s' Hrun. apply Hmissing. revert Hrun.
    unfold cell26. rewrite bind_run, delete_endpoint_run.
    destruct (decide _) as [_|]; [|done].
    rewrite bind_run.
    destruct (local_call_run (BotoResource "s3")
                (mkState (mkWorld (s3 (world s))
                                  (endpoints (world s) ∖ {[predictor]})
                                  (stdout (world s)) (env (world s)))
                         (log s ++ [Ev (DeleteEndpoint predictor) (Returned ())])))
      as (r & w & ->); [done|].
    cbn [world log s3 endpoints stdout env].
    destruct r as [[]|e]; [|done].
    rewrite bind_run, delete_objects_run. cbn [world log s3 endpoints stdout env].
    destruct (s3 (world s) !! s3_bucket) as [objects|]; [|done].
    rewrite bind_run.
    match goal with |- context [call handle (OsSystem ?c) ?st] =>
      destruct (local_call_run (OsSystem c) st) as (r & w' & ->);
        [done|] end.
    cbn [world log s3 endpoints stdout env].
    destruct r as [status|e]; [|done].
    intros [= <-]. done.
Qed.

End CleanUpMore.

(** ** Values handed from one cell to the next *)

Section Flow.

Context {V : Type}.
Variable source : event → option V.
Variable is_use : event → bool.
Variable fits : V → event → bool.

Lemma follows_nil : follows source is_use fits [].
Proof. intros [|? ?] ev l2 Heq; discriminate. Qed.

Lemma follows_app_no_use (l0 l : list event) :
  follows source is_use fits l0 → Forall (λ ev, is_use ev = false) l →
  follows source is_use fits (l0 ++ l).
Proof.
  intros H0 Hl l1 ev l2 Heq Hev.
  apply app_eq_cons_split in Heq as [(l2' & -> & _)|(l1' & -> & ->)].
  - by eapply H0.
  - apply Forall_app in Hl as [_ Hl]. apply Forall_inv in Hl. congruence.
Qed.

Lemma strays_false (v : V) (ev : event) :
  strays source is_use fits v ev = false →
  source ev = None ∧ (is_use ev = true → fits v ev = true).
Proof.
  unfold strays. destruct (source ev); [done|]. intros H. split; [done|].
  intros Hu. rewrite Hu in H. by destruct (fits v ev).
Qed.

Lemma no_stray_no_source (v : V) (l : list event) :
  Forall (λ ev, strays source is_use fits v ev = false) l → omap source l = [].
Proof.
  induction 1 as [|ev l Hev Hl IH]; [done|].
  apply strays_false in Hev as [Hev _]. cbn. by rewrite Hev.
Qed.

Lemma settled_app (v : V) (l0 l : list event) :
  settled source is_use fits v l0 →
  Forall (λ ev, strays source is_use fits v ev = false) l →
  settled source is_use fits v (l0 ++ l).
Proof.
  intros [H0 Hlast] Hl. split.
  - intros l1 ev l2 Heq Hev.
    apply app_eq_cons_split in Heq as [(l2' & -> & _)|(l1' & -> & ->)].
    + by eapply H0.
    + apply Forall_app in Hl as [Hl1 Hl]. apply Forall_inv in Hl.
      apply strays_false in Hl as [_ Hfits]. exists v.
      by rewrite omap_app, (no_stray_no_source v l1'), app_nil_r, Hfits.
  - by rewrite omap_app, (no_stray_no_source v l), app_nil_r.
Qed.

Section FlowKeeps.

Context {Env : Type}.
Variable handle : ∀ T, sdkE T → World Env → reply T * World Env.

Lemma follows_keeps {A} (m : M Env A) :
  disciplined is_use 0 m → keeps (follows source is_use fits) m.
Proof.
  intros Hm s Hs. destruct (Hm s) as (l & -> & _ & _ & Hc).
  by apply follows_app_no_use, count_zero_Forall.
Qed.

Lemma settled_keeps {A} (v : V) (m : M Env A) :
  disciplined (strays source is_use fits v) 0 m →
  keeps (settled source is_use fits v) m.
Proof.
  intros Hm s Hs. destruct (Hm s) as (l & -> & _ & _ & Hc).
  by apply settled_app, count_zero_Forall.
Qed.

(** The call that returns the value. *)
Lemma settles_call {T} (op : sdkE T) (inj : T → V) :
  (∀ r, is_use (Ev op r) = false) →
  (∀ x, source (Ev op (Returned x)) = Some (inj x)) →
  settles source is_use fits inj (call handle op).
Proof.
  intros Huse Hsrc s Hs. rewrite call_run. cbn [fst snd log].
  assert (follows source is_use fits
            (log s ++ [Ev op (perform handle op (world s)).1])) as Hf.
  { apply follows_app_no_use; [done|]. by repeat constructor. }
  split; [done|]. intros a Ha. split; [done|].
  destruct (perform handle op (world s)) as [[x|e] w]; cbn [fst] in *; [|done].
  injection Ha as ->. rewrite omap_app. cbn. rewrite Hsrc. apply last_snoc.
Qed.

(** Calls before it that use no value. *)
Lemma settles_after {A B} (inj : B → V) (m : M Env A) (k : A → M Env B) :
  disciplined is_use 0 m →
  (∀ a, settles source is_use fits inj (k a)) →
  settles source is_use fits inj (m ≫= k).
Proof.
  intros Hm Hk s Hs. rewrite bind_run.
  pose proof (follows_keeps m Hm s Hs) as Hs1.
  destruct (m s) as [[a|e|] s1]; cbn [fst snd] in *; [by apply Hk|done..].
Qed.

(** Calls after it, that hand the value on. *)
Lemma settles_then {A B} (inj : A → V) (inj' : B → V)
    (m : M Env A) (k : A → M Env B) :
  settles source is_use fits inj m →
  (∀ a, disciplined (strays source is_use fits (inj a)) 0 (k a)) →
  (∀ a s b, (k a s).1 = Ok b → inj' b = inj a) →
  settles source is_use fits inj' (m ≫= k).
Proof.
  intros Hm Hk Hinj s Hs. rewrite bind_run.
  destruct (Hm s Hs) as [Hf Hset].
  destruct (m s) as [[a|e|] s1]; cbn [fst snd] in *; [|done..].
  specialize (Hset a eq_refl).
  pose proof (settled_keeps (inj a) (k a) (Hk a) s1 Hset) as Hs2.
  split; [apply Hs2|]. intros b Hb. by rewrite (Hinj a s1 b Hb).
Qed.

(** The rest of the script, given the value. *)
Lemma settles_keeps {A B} (inj : A → V) (m : M Env A) (k : A → M Env B) :
  settles source is_use fits inj m →
  (∀ a, keeps (settled source is_use fits (inj a)) (k a)) →
  keeps (follows source is_use fits) (m ≫= k).
Proof.
  intros Hm Hk s Hs. rewrite bind_run.
  destruct (Hm s Hs) as [Hf Hset].
  destruct (m s) as [[a|e|] s1]; cbn [fst snd] in *; [|done..].
  by apply Hk, Hset.
Qed.

End FlowKeeps.

End Flow.

(** Walks through a piece of the script that makes no call [p] counts;
    [tac] shows that [p] does not count a call. *)
Ltac discipline_by tac :=
  repeat first
    [ apply d_ret
    | apply d_raise
    | apply d_call_other; [intros ?; tac]
    | apply d_bind_other; [apply d_call_other; intros ?; tac | intros ?]
    | match goal with
      | |- disciplined _ _ (match ?x with _ => _ end ≫= _) =>
          apply d_bind_other; [destruct x | intros ?]
      | |- disciplined _ _ (match ?x with _ => _ end) => destruct x
      end
    | progress cbv zeta ].

(** The same for a whole cell. *)
Ltac cell_quiet tac :=
  lazymatch goal with
  | |- disciplined _ _ (cell7 _ _) =>
      unfold cell7; apply d_bind_other;
      [ apply (d_for_each _ 0); intros ?; discipline_by tac
      | intros _; discipline_by tac ]
  | |- disciplined _ _ (cell14 _ _ _) =>
      unfold cell14, poll_loop; apply d_bind_other;
      [ apply d_while; intros ?; unfold poll_body, subscript_JobStatus;
        discipline_by tac
      | intros ?; unfold subscript_JobStatus; discipline_by tac ]
  | |- disciplined _ _ (cell23 _ _) =>
      unfold cell23, select_loop; apply d_bind_other;
      [ apply d_while; intros ?; unfold select_body, subscript0;
        discipline_by tac
      | intros ?; discipline_by tac ]
  | |- _ =>
      unfold cell3, cell4, cell9, cell12, cell16, cell18, cell20, cell21,
             cell24, cell26, subscript0, subscript_JobStatus, subscript_S3Uri;
      discipline_by tac
  end.

(** One cell that keeps the invariant by [rule]; cell after cell, as long as
    they do. *)
Tactic Notation "step" uconstr(rule) "by" tactic3(tac) :=
  apply keeps_bind; [apply rule; solve [cell_quiet tac] | intros ?].

Tactic Notation "walk" uconstr(rule) "by" tactic3(tac) :=
  repeat first
    [ apply keeps_bind; [apply rule; solve [cell_quiet tac] | intros ?]
    | progress cbv zeta ].


Section SessionBucket.

Context {Env : Type}.
Variable handle : ∀ T, sdkE T → World Env → reply T * World Env.












End SessionBucket.

Section Endpoint.

Context {Env : Type}.
Variable handle : ∀ T, sdkE T → World Env → reply T * World Env.

Lemma predict_on_endpoint (endpoint : string) (inputs : option pystr)
    (r : reply string) :
  strays deployed_endpoint names_endpoint on_endpoint endpoint
    (Ev (PredictAsync endpoint inputs) r) = false.
Proof. unfold strays. cbn. by rewrite String.eqb_refl. Qed.

Lemma delete_on_endpoint (endpoint : string) (r : reply unit) :
  strays deployed_endpoint names_endpoint on_endpoint endpoint
    (Ev (DeleteEndpoint endpoint) r) = false.
Proof. unfold strays. cbn. by rewrite String.eqb_refl. Qed.

(** X6.  In a run of the whole notebook, every [predict_async] and every
    [delete_endpoint] comes after a [deploy] that returned, and names the
    endpoint the last such [deploy] returned: no inference is asked of, and
    no deletion is made of, an endpoint the run did not create. *)
Theorem endpoint_used_is_the_one_deployed (fuel : nat) (s : State Env) :
  endpoint_flow (log s) → endpoint_flow (log (run_all handle fuel s).2).
Proof.
  revert s. change (keeps endpoint_flow (run_all handle fuel)).
  unfold run_all, endpoint_flow.
  do 6 (step follows_keeps by reflexivity). cbv zeta.
  do 3 (step follows_keeps by reflexivity).
  apply (settles_keeps _ _ _ id).
  { unfold cell21. cbv zeta. by apply settles_call. }
  intros predictor.
  walk settled_keeps
    by (first [ reflexivity | apply predict_on_endpoint
              | apply delete_on_endpoint ]).
  apply settled_keeps.
  cell_quiet
    ltac:(first [ reflexivity | apply predict_on_endpoint
                | apply delete_on_endpoint ]).
Qed.

End Endpoint.

Section Job.

Context {Env : Type}.
Variable handle : ∀ T, sdkE T → World Env → reply T * World Env.

Lemma describe_of_job (job_id : string) (r : reply DescribeResponse) :
  strays started_job is_describe of_job (Some job_id)
    (Ev (DescribeTopicsDetectionJob job_id) r) = false.
Proof. unfold strays. cbn. by rewrite String.eqb_refl. Qed.

Lemma cell12_settles (s3_bucket : string) :
  settles started_job is_describe of_job Some (cell12 handle s3_bucket).
Proof.
  unfold cell12.
  do 3 (apply settles_after; [discipline_by ltac:(reflexivity) | intros ?]).
  cbv zeta.
  do 2 (apply settles_after; [discipline_by ltac:(reflexivity) | intros ?]).
  apply (settles_then _ _ _ JobId Some).
  - by apply settles_call.
  - intros resp. discipline_by ltac:(reflexivity).
  - intros resp s job_id. rewrite bind_run.
    destruct (JobId resp) as [j|]; [|done].
    rewrite ret_run, bind_run, print_run, ret_run. by intros [= <-].
Qed.

(** X7.  In a run of the whole notebook, every status check comes after a
    [start_topics_detection_job] that returned, and asks for the job whose
    "JobId" the last such call returned; when that answer has no "JobId" no
    status check follows it. *)
Theorem status_checks_are_of_the_job_started (fuel : nat) (s : State Env) :
  job_flow (log s) → job_flow (log (run_all handle fuel s).2).
Proof.
  revert s. change (keeps job_flow (run_all handle fuel)).
  unfold run_all, job_flow.
  do 4 (step follows_keeps by reflexivity).
  apply (settles_keeps _ _ _ Some); [apply cell12_settles|].
  intros job_id.
  walk settled_keeps by (first [reflexivity | apply describe_of_job]).
  apply settled_keeps.
  cell_quiet ltac:(first [reflexivity | apply describe_of_job]).
Qed.

End Job.

(** ** The job submission (cell 12) *)

Section Submission.

Context {Env : Type}.
Variable handle : ∀ T, sdkE T → World Env → reply T * World Env.

(** X8.  Cell 12 starts the job at most once, and only after the two URLs
    and the role were returned: with 25 topics, one document per file, the
    URL [s3_path_join] returned for "s3://", the session bucket,
    "sci-docs/data" and "raw/" as input, the one it returned for ...
    "output/" as output, and the role [get_execution_role] returned.  The
    cell ends normally, with the "JobId" of the answer, exactly when the
    answer has one, and then prints "Job <id> submitted"; it raises
    [KeyError "JobId"] and prints nothing when the answer has none; and it
    raises what the first failing call raised otherwise. *)
Theorem job_submission_cases (s3_bucket : string) (s : State Env) :
  ∃ l, log (cell12 handle s3_bucket s).2 = log s ++ l
    ∧ match omap start_of l with
      | [] => ∃ e, (cell12 handle s3_bucket s).1 = Raised e
                   ∧ ends_with_failure l e
      | [(n, input_url, format, output_url, role, r)] =>
          n = 25 ∧ format = "ONE_DOC_PER_FILE"
          ∧ (["s3://"; s3_bucket; "sci-docs/data"; "raw/"], input_url)
            ∈ omap path_join_of l
          ∧ (["s3://"; s3_bucket; "sci-docs/data"; "output/"], output_url)
            ∈ omap path_join_of l
          ∧ omap execution_role_of l = [role]
          ∧ match r with
            | Threw e => (cell12 handle s3_bucket s).1 = Raised e
                         ∧ ends_with_failure l e
            | Returned resp =>
                match JobId resp with
                | Some job_id =>
                    (cell12 handle s3_bucket s).1 = Ok job_id
                    ∧ omap printed l = ["Job " +:+ job_id +:+ " submitted"]
                | None =>
                    (cell12 handle s3_bucket s).1 = Raised (KeyError "JobId")
                    ∧ omap printed l = []
                end
            end
      | _ => False
      end.
Proof.
  unfold cell12.
  rewrite bind_run, call_run. cbn [fst snd world log].
  destruct (perform handle (BotoClient "comprehend") _) as [[[]|e] w1];
    cbn [fst snd world log].
  2: { eexists. split; [reflexivity|]. cbn. exists e. split; [done|].
       by exists [], (Ev (BotoClient "comprehend") (Threw e)). }
  rewrite bind_run, call_run. cbn [fst snd world log].
  destruct (perform handle (S3PathJoin _) _) as [[u0|e] w2];
    cbn [fst snd world log].
  2: { rewrite <- !app_assoc. eexists. split; [reflexivity|]. cbn.
       exists e. split; [done|]. eexists [_], _. by split. }
  rewrite bind_run, call_run. cbn [fst snd world log].
  destruct (perform handle (S3PathJoin _) _) as [[input_url|e] w3];
    cbn [fst snd world log].
  2: { rewrite <- !app_assoc. eexists. split; [reflexivity|]. cbn.
       exists e. split; [done|]. eexists [_; _], _. by split. }
  cbv zeta. rewrite bind_run, call_run. cbn [fst snd world log].
  destruct (perform handle (S3PathJoin _) _) as [[output_url|e] w4];
    cbn [fst snd world log].
  2: { rewrite <- !app_assoc. eexists. split; [reflexivity|]. cbn.
       exists e. split; [done|]. eexists [_; _; _], _. by split. }
  rewrite bind_run, call_run. cbn [fst snd world log].
  destruct (perform handle GetExecutionRole _) as [[role|e] w5];
    cbn [fst snd world log].
  2: { rewrite <- !app_assoc. eexists. split; [reflexivity|]. cbn.
       exists e. split; [done|]. eexists [_; _; _; _], _. by split. }
  rewrite bind_run, call_run. cbn [fst snd world log].
  destruct (perform handle (StartTopicsDetectionJob _ _ _ _ _) _)
    as [[resp|e] w6]; cbn [fst snd world log].
  2: { rewrite <- !app_assoc. eexists. split; [reflexivity|]. cbn.
       do 2 (split; [done|]).
       split; [apply list_elem_of_In; cbn; tauto|].
       split; [apply list_elem_of_In; cbn; tauto|].
       do 2 (split; [done|]). eexists [_; _; _; _; _], _. by split. }
  rewrite bind_run. destruct (JobId resp) as [job_id|] eqn:Hid.
  - rewrite ret_run, bind_run, print_run, ret_run. cbn [fst snd log].
    rewrite <- !app_assoc. eexists. split; [reflexivity|]. cbn.
    do 2 (split; [done|]).
    split; [apply list_elem_of_In; cbn; tauto|].
    split; [apply list_elem_of_In; cbn; tauto|].
    split; [done|]. by rewrite Hid.
  - cbn [fst snd log]. rewrite <- !app_assoc. eexists. split; [reflexivity|].
    cbn. do 2 (split; [done|]).
    split; [apply list_elem_of_In; cbn; tauto|].
    split; [apply list_elem_of_In; cbn; tauto|].
    split; [done|]. by rewrite Hid.
Qed.

End Submission.

(** ** What is sent to the endpoint (cells 23 and 24) *)

Section Payload.

Context {Env : Type}.
Variable handle : ∀ T, sdkE T → World Env → reply T * World Env.

Lemma cell23_inputs (fuel : nat) (s : State Env) (inputs : option pystr) :
  (cell23 handle fuel s).1 = Ok inputs → short_and_flat inputs.
Proof.
  unfold cell23. rewrite bind_run.
  destruct (select_loop handle fuel s) as [[v|e|] s1] eqn:Hloop; [|done..].
  apply select_loop_exit in Hloop
    as (a & rest & content & l0 & m & _ & _ & _ & Hr & Hm).
  rewrite Hr, ret_bind_run, bind_run, call_run. cbn [perform show fst snd].
  rewrite ret_run. cbn [fst]. intros [= <-].
  destruct (flatten_clean content) as [Hnl Htab].
  rewrite re_search_background in Hm by done.
  destruct (after_first (lit "Background ") (flatten content))
    as [suffix|] eqn:Ha; [|done].
  injection Hm as <-. exists (take 1000 suffix).
  apply after_first_suffix in Ha.
  split; [apply lookup_singleton_eq|]. split; [rewrite length_take; lia|].
  split; intros Hin%subseteq_take; eapply elem_of_suffix in Hin; eauto.
Qed.

Lemma not_predict_ok (ev : event) : is_predict ev = false → payload_ok ev.
Proof. by destruct ev as [T [] r]. Qed.

Lemma since_keeps {A} (l0 : list event) (m : M Env A) :
  disciplined is_predict 0 m → keeps (since l0 payload_ok) m.
Proof.
  intros Hm s (l1 & Hs & Hl1). destruct (Hm s) as (l & -> & _ & _ & Hc).
  exists (l1 ++ l). rewrite Hs, app_assoc. split; [done|].
  apply Forall_app. split; [done|].
  apply count_zero_Forall in Hc. eapply Forall_impl; [exact Hc|].
  apply not_predict_ok.
Qed.

Lemma keeps_bind_result {A B} (I : list event → Prop) (P : A → Prop)
    (m : M Env A) (k : A → M Env B) :
  keeps I m → (∀ s a, (m s).1 = Ok a → P a) → (∀ a, P a → keeps I (k a)) →
  keeps I (m ≫= k).
Proof.
  intros Hm HP Hk s Hs. rewrite bind_run. specialize (Hm s Hs).
  specialize (HP s).
  destruct (m s) as [[a|e|] s1]; cbn [fst snd] in *; [|done..].
  by apply Hk; [apply HP|].
Qed.

Lemma cell24_payload (l0 : list event) (predictor : string)
    (inputs : option pystr) :
  short_and_flat inputs →
  keeps (since l0 payload_ok) (cell24 handle predictor inputs).
Proof.
  intros Hin. unfold cell24. apply keeps_bind.
  - intros s (l1 & Hs & Hl1). rewrite call_run. cbn [snd log].
    eexists. rewrite Hs, <- app_assoc. split; [reflexivity|].
    apply Forall_app. split; [done|]. by repeat constructor.
  - intros response. cbv zeta. apply since_keeps. discipline.
Qed.

(** X10.  In a run of the whole notebook, every text sent to the endpoint
    with [predict_async] is at most 1000 characters long and holds neither
    a newline nor a tab: it is what cell 23 cut out of an article. *)
Theorem endpoint_receives_short_flat_text (fuel : nat) (s : State Env) :
  ∃ l, log (run_all handle fuel s).2 = log s ++ l ∧ Forall payload_ok l.
Proof.
  assert (keeps (since (log s) payload_ok) (run_all handle fuel)) as Hkeeps.
  { unfold run_all.
    do 6 (step since_keeps by reflexivity). cbv zeta.
    do 4 (step since_keeps by reflexivity).
    apply (keeps_bind_result _ short_and_flat).
    - apply since_keeps. cell_quiet ltac:(reflexivity).
    - intros s0 inputs. apply cell23_inputs.
    - intros inputs Hin. apply keeps_bind; [by apply cell24_payload|].
      intros _. apply since_keeps. cell_quiet ltac:(reflexivity). }
  apply (Hkeeps s). exists []. by rewrite app_nil_r.
Qed.

End Payload.

(** ** The order of the tables of cell 16 *)

Lemma StronglySorted_NoDup_strict {A} (R : A → A → Prop) (l : list A) :
  StronglySorted R l → NoDup l → StronglySorted (λ a b, R a b ∧ a ≠ b) l.
Proof.
  induction 1 as [|x l Hs IH Hx]; [constructor|].
  intros [Hnotin Hnd]%NoDup_cons. constructor; [by apply IH|].
  rewrite Forall_forall in Hx |- *. intros y Hy. split; [by apply Hx|].
  by intros ->.
Qed.

Lemma group_keys_elem (keys : list Z) (k : Z) : k ∈ group_keys keys ↔ k ∈ keys.
Proof.
  unfold group_keys. by rewrite sort_values_perm, elem_of_remove_dups.
Qed.

Lemma group_keys_ascending (keys : list Z) :
  StronglySorted Z.lt (group_keys keys).
Proof.
  eapply StronglySorted_impl_on;
    [|apply StronglySorted_NoDup_strict;
      [apply (sort_values_sorted Z.leb) | apply group_keys_NoDup]].
  - intros x y _ _ [Hle%Z.leb_le Hne]. lia.
  - intros x y Hxy. apply Z.leb_le. apply Z.leb_gt in Hxy. lia.
  - intros x y z Hxy%Z.leb_le Hyz%Z.leb_le. apply Z.leb_le. lia.
Qed.

Lemma topics_of_topic (csv : list TopicTerms.row) (k : Z) :
  k ∈ (topics_of csv).*1 ↔ ∃ x, x ∈ csv ∧ TopicTerms.topic x = k.
Proof.
  rewrite topics_of_keys, group_keys_elem, list_elem_of_fmap.
  split; intros (x & Hk & Hx); exists x; split; try done.
  - by rewrite sort_values_perm in Hx.
  - by rewrite sort_values_perm.
Qed.

(** X11.  The aggregated topics table has a row for every topic that occurs
    in [topic-terms.csv] and for no other, in ascending order of the topic;
    so a row of the results has no term exactly when its topic occurs in no
    row of [topic-terms.csv]. *)
Theorem term_missing_iff_topic_absent
    (topic_terms : list TopicTerms.row) (doc_topics : list DocTopics.row) :
  (∀ k, k ∈ (topics_of topic_terms).*1
        ↔ ∃ x, x ∈ topic_terms ∧ TopicTerms.topic x = k)
  ∧ StronglySorted Z.lt (topics_of topic_terms).*1
  ∧ (∀ r, r ∈ results_of topic_terms doc_topics →
          Results.term r = None
          ↔ ∀ x, x ∈ topic_terms → TopicTerms.topic x ≠ Results.topic r).
Proof.
  split; [apply topics_of_topic|]. split.
  { rewrite topics_of_keys. apply group_keys_ascending. }
  intros r Hr.
  assert (NoDup (topics_of topic_terms).*1) as Hnd
    by (rewrite topics_of_keys; apply group_keys_NoDup).
  destruct (merge_left_NoDup (docs_of doc_topics) (topics_of topic_terms) Hnd)
    as [_ Hterm].
  rewrite Forall_forall in Hterm. specialize (Hterm r Hr).
  destruct (Results.term r) as [t|].
  - split; [done|]. intros Hnone. exfalso.
    assert (Results.topic r ∈ (topics_of topic_terms).*1) as Hin.
    { apply list_elem_of_fmap. by exists (Results.topic r, t). }
    apply topics_of_topic in Hin as (x & Hx & Hk). by apply (Hnone x).
  - split; [|done]. intros _ x Hx Hk. apply Hterm, topics_of_topic.
    by exists x.
Qed.

Lemma string_ltb_trans (a b c : string) :
  String.ltb a b = true → String.ltb b c = true → String.ltb a c = true.
Proof.
  unfold String.ltb. intros Hab Hbc.
  assert (String.compare a b = Lt) as Hab' by (by destruct (String.compare a b)).
  assert (String.compare b c = Lt) as Hbc' by (by destruct (String.compare b c)).
  apply OrderedTypeEx.String_as_OT.cmp_lt in Hab', Hbc'.
  pose proof (OrderedTypeEx.String_as_OT.lt_trans _ _ _ Hab' Hbc') as Hac.
  apply OrderedTypeEx.String_as_OT.cmp_lt in Hac.
  unfold OrderedTypeEx.String_as_OT.cmp in Hac. by rewrite Hac.
Qed.

Lemma string_ltb_total (a b : string) :
  String.ltb a b = false → a = b ∨ String.ltb b a = true.
Proof.
  unfold String.ltb. rewrite (String.compare_antisym a b).
  destruct (String.compare b a) eqn:Hc; simpl; try done.
  - apply String.compare_eq_iff in Hc. by left.
  - by right.
Qed.

Lemma string_ltb_irrefl (a : string) : String.ltb a a = false.
Proof.
  unfold String.ltb.
  pose proof (String.compare_antisym a a) as Hanti.
  by destruct (String.compare a a).
Qed.

Lemma docname_proportion_leb_total (a b : DocTopics.row) :
  docname_proportion_leb a b = false → docname_proportion_leb b a = true.
Proof.
  unfold docname_proportion_leb.
  intros [Hlt Heq]%orb_false_iff.
  apply string_ltb_total in Hlt as [Hsame|Hlt]; [|by rewrite Hlt].
  rewrite Hsame, String.eqb_refl in Heq |- *. simpl in *.
  rewrite string_ltb_irrefl. simpl.
  destruct (Qle_bool (DocTopics.proportion a) (DocTopics.proportion b)) eqn:Hw;
    [done|].
  exfalso.
  destruct (Qlt_le_dec (DocTopics.proportion a) (DocTopics.proportion b))
    as [Hl|Hl].
  - apply Qlt_le_weak, Qle_bool_iff in Hl. congruence.
  - apply Qle_bool_iff in Hl. congruence.
Qed.

Lemma docname_proportion_leb_cases (a b : DocTopics.row) :
  docname_proportion_leb a b = true ↔
  String.ltb (DocTopics.docname a) (DocTopics.docname b) = true
  ∨ (DocTopics.docname a = DocTopics.docname b
     ∧ (DocTopics.proportion b <= DocTopics.proportion a)%Q).
Proof.
  unfold docname_proportion_leb.
  rewrite orb_true_iff, andb_true_iff, String.eqb_eq, Qle_bool_iff. done.
Qed.

Lemma docname_proportion_leb_trans (a b c : DocTopics.row) :
  docname_proportion_leb a b = true → docname_proportion_leb b c = true →
  docname_proportion_leb a c = true.
Proof.
  rewrite !docname_proportion_leb_cases.
  intros [Hab|[Hab Hpab]] [Hbc|[Hbc Hpbc]].
  - left. by eapply string_ltb_trans.
  - left. by rewrite <- Hbc.
  - left. by rewrite Hab.
  - right. split; [congruence|]. by eapply Qle_trans.
Qed.

Lemma StronglySorted_of_fmap {A B} (R : B → B → Prop) (f : A → B) (l : list A) :
  StronglySorted R (f <$> l) → StronglySorted (λ a b, R (f a) (f b)) l.
Proof.
  induction l as [|x l IH]; [constructor|].
  rewrite fmap_cons. intros [Hs Hx]%StronglySorted_inv.
  constructor; [by apply IH|]. by rewrite Forall_fmap in Hx.
Qed.

(** X12.  The rows of the results table are in the order of the sorted
    document table: by [docname] in ascending order, and those of one
    document by [proportion] in non-increasing order, whatever the topics
    table joined to it. *)
Theorem results_by_docname_then_proportion
    (topic_terms : list TopicTerms.row) (doc_topics : list DocTopics.row) :
  StronglySorted docname_then_proportion (results_of topic_terms doc_topics).
Proof.
  assert (NoDup (topics_of topic_terms).*1) as Hnd
    by (rewrite topics_of_keys; apply group_keys_NoDup).
  destruct (merge_left_NoDup (docs_of doc_topics) (topics_of topic_terms) Hnd)
    as [Hleft _].
  fold (results_of topic_terms doc_topics) in Hleft.
  pose proof (sort_values_sorted docname_proportion_leb
                docname_proportion_leb_total docname_proportion_leb_trans
                doc_topics) as Hsorted.
  fold (docs_of doc_topics) in Hsorted. rewrite <- Hleft in Hsorted.
  apply StronglySorted_of_fmap in Hsorted.
  eapply StronglySorted_impl_on; [|exact Hsorted].
  intros a b _ _ Hab. by apply docname_proportion_leb_cases in Hab.
Qed.

(** ** What cell 16 shows *)

Section ResultsCell.

Context {Env : Type}.
Variable handle : ∀ T, sdkE T → World Env → reply T * World Env.

(** X13.  With the status "COMPLETED", cell 16 ends normally only after it
    has downloaded, into "data", the object at the bucket and key the
    output URI of the job was parsed into, and read both files; the table
    it then displays, once, and binds to [results] is the left join of the
    two tables read.  When the cell raises nothing was displayed. *)
Theorem results_shown_are_the_join (r : option pyprops) (s : State Env) :
  last_status r = Some "COMPLETED" →
  ∃ l, log (cell16 handle r s).2 = log s ++ l
    ∧ (∀ results, (cell16 handle r s).1 = Ok results →
         ∃ uri url topic_terms doc_topics,
           output_uri r = Some uri
           ∧ omap parsed_url l = [(uri, url)]
           ∧ omap download_of l = [("data", url.1, url.2)]
           ∧ omap topic_terms_read l = [topic_terms]
           ∧ omap doc_topics_read l = [doc_topics]
           ∧ omap displayed l = [results_of topic_terms doc_topics]
           ∧ results = Some (results_of topic_terms doc_topics))
    ∧ (∀ e, (cell16 handle r s).1 = Raised e → omap displayed l = []).
Proof.
  intros Hst. unfold cell16, subscript_JobStatus, subscript_S3Uri.
  destruct r as [[[[st|] out inp]|]|]; try done.
  cbn [last_status JobStatus] in Hst. injection Hst as ->.
  cbn [JobStatus OutputDataConfig output_uri].
  rewrite ret_bind_run. change (String.eqb "COMPLETED" "COMPLETED") with true.
  cbv iota.
  destruct out as [[[uri|]]|]; cbn [S3Uri];
    [|exists []; rewrite app_nil_r; by repeat split..].
  rewrite ret_bind_run.
  rewrite bind_run, call_run. cbn [fst snd world log].
  destruct (perform handle (ParseS3Url uri) _) as [[url|e] w1];
    cbn [fst snd world log].
  2: { eexists. split; [reflexivity|]. by split. }
  rewrite bind_run, call_run. cbn [fst snd world log].
  destruct (perform handle (DownloadData _ _ _) _) as [[[]|e] w2];
    cbn [fst snd world log].
  2: { rewrite <- !app_assoc. eexists. split; [reflexivity|]. by split. }
  rewrite bind_run, call_run. cbn [fst snd world log].
  destruct (perform handle (OsSystem _) _) as [[status|e] w3];
    cbn [fst snd world log].
  2: { rewrite <- !app_assoc. eexists. split; [reflexivity|]. by split. }
  rewrite bind_run, call_run. cbn [fst snd world log].
  destruct (perform handle (ReadCsvTopicTerms _) _) as [[topic_terms|e] w4];
    cbn [fst snd world log].
  2: { rewrite <- !app_assoc. eexists. split; [reflexivity|]. by split. }
  cbv zeta. rewrite bind_run, call_run. cbn [fst snd world log].
  destruct (perform handle (ReadCsvDocTopics _) _) as [[doc_topics|e] w5];
    cbn [fst snd world log].
  2: { rewrite <- !app_assoc. eexists. split; [reflexivity|]. by split. }
  rewrite bind_run, call_run. cbn [perform show fst snd world log].
  rewrite ret_run. cbn [fst snd log].
  rewrite <- !app_assoc. eexists. split; [reflexivity|]. split; [|done].
  intros results [= <-]. by exists uri, url, topic_terms, doc_topics.
Qed.

End ResultsCell.

(** ** What cell 18 shows *)

Section SampleCell.

Context {Env : Type}.
Variable handle : ∀ T, sdkE T → World Env → reply T * World Env.

(** X14.  With the status "COMPLETED", cell 18 ends normally only after
    [sample()], called on the frame bound to [results], returned: it prints
    the docname and the terms of the first row returned ("nan" for a
    missing term), downloads into "data", from the bucket the input URI of
    the job was parsed into, the key [os.path.join] makes of the parsed
    prefix and this docname, and shows the head of "data/<docname>".  When
    the answer has no input URI the cell makes no call and raises the
    [KeyError] of the subscript that fails, "InputDataConfig" or "S3Uri".
    When [results] is not bound the cell raises, having sampled, printed
    and downloaded nothing: [NameError], when the URI is there and was
    parsed. *)
Theorem sampled_document_is_shown
    (r : option pyprops) (results : option (list Results.row)) (s : State Env) :
  last_status r = Some "COMPLETED" →
  ∃ l, log (cell18 handle r results s).2 = log s ++ l
    ∧ ((cell18 handle r results s).1 = Ok () →
       ∃ uri url frame row rest,
         input_uri r = Some uri
         ∧ results = Some frame
         ∧ omap parsed_url l = [(uri, url)]
         ∧ omap sampled l = [(frame, row :: rest)]
         ∧ omap printed l
           = ["Document name is " +:+ Results.docname row;
              "Identified terms are " +:+ default "nan" (Results.term row)]
         ∧ omap download_of l
           = [("data", url.1, os_path_join url.2 (Results.docname row))]
         ∧ omap shell_of l = ["head -n 25 data/" +:+ Results.docname row])
    ∧ (input_uri r = None →
       l = []
       ∧ ∃ p, r = Some (Props p)
              ∧ (cell18 handle r results s).1
                = Raised (KeyError (missing_key "InputDataConfig"
                                      (InputDataConfig p))))
    ∧ (results = None →
       is_raised (cell18 handle r results s).1 = true
       ∧ omap sampled l = [] ∧ omap printed l = []
       ∧ omap download_of l = [] ∧ omap shell_of l = []
       ∧ (is_Some (input_uri r) → Forall clean l →
          (cell18 handle r results s).1 = Raised (NameError "results"))).
Proof.
  intros Hst. unfold cell18, subscript_JobStatus, subscript_S3Uri.
  destruct r as [[[[st|] out inp]|]|]; try done.
  cbn [last_status JobStatus] in Hst. injection Hst as ->.
  cbn [JobStatus InputDataConfig input_uri].
  rewrite ret_bind_run. change (String.eqb "COMPLETED" "COMPLETED") with true.
  cbv iota.
  destruct inp as [[[uri|]]|]; cbn [S3Uri].
  2,3: exists []; rewrite app_nil_r; split; [done|]; split; [done|];
       split; [intros _; split; [done|]; by eexists|];
       intros ->; do 5 (split; [done|]); by intros [? [=]].
  rewrite ret_bind_run.
  rewrite bind_run, call_run. cbn [fst snd world log].
  destruct (perform handle (ParseS3Url uri) _) as [[url|e] w1];
    cbn [fst snd world log].
  2: { eexists. split; [reflexivity|]. split; [done|]. split; [done|].
       intros ->. do 5 (split; [done|]).
       intros _ Hc. apply Forall_inv in Hc. done. }
  rewrite bind_run. destruct results as [frame|].
  2: { eexists. split; [reflexivity|]. split; [done|]. split; [done|].
       by intros _. }
  rewrite ret_run, bind_run, call_run. cbn [fst snd world log].
  destruct (perform handle (SampleRows frame) _) as [[rows|e] w2];
    cbn [fst snd world log].
  2: { rewrite <- !app_assoc. eexists. split; [reflexivity|]. by repeat split. }
  rewrite bind_run. destruct rows as [|row rest].
  { rewrite <- !app_assoc. eexists. split; [reflexivity|]. by repeat split. }
  rewrite ret_run. cbv zeta.
  rewrite bind_run, print_run. cbn [fst snd world log].
  rewrite bind_run, print_run. cbn [fst snd world log].
  rewrite bind_run, call_run. cbn [fst snd world log].
  destruct (perform handle (DownloadData _ _ _) _) as [[[]|e] w3];
    cbn [fst snd world log].
  2: { rewrite <- !app_assoc. eexists. split; [reflexivity|]. by repeat split. }
  rewrite bind_run, call_run. cbn [fst snd world log].
  destruct (perform handle (OsSystem _) _) as [[status|e] w4];
    cbn [fst snd world log].
  2: { rewrite <- !app_assoc. eexists. split; [reflexivity|]. by repeat split. }
  rewrite ret_run. cbn [fst snd log].
  rewrite <- !app_assoc. eexists. split; [reflexivity|]. split; [|done].
  intros _. by exists uri, url, frame, row, rest.
Qed.

End SampleCell.

(** ** Clean-up comes last *)

Section CleanUpLast.

Context {Env : Type}.
Variable handle : ∀ T, sdkE T → World Env → reply T * World Env.

Lemma since_keeps_not {A} (p : event → bool) (l0 : list event) (m : M Env A) :
  disciplined p 0 m → keeps (since l0 (λ ev, p ev = false)) m.
Proof.
  intros Hm s (l1 & Hs & Hl1). destruct (Hm s) as (l & -> & _ & _ & Hc).
  exists (l1 ++ l). rewrite Hs, app_assoc. split; [done|].
  apply Forall_app. split; [done|]. by apply count_zero_Forall.
Qed.

Lemma leads_bind {A B} (I J : list event → Prop) (m : M Env A)
    (k : A → M Env B) :
  keeps I m → (∀ l, I l → J l) → (∀ a, leads I J (k a)) → leads I J (m ≫= k).
Proof.
  intros Hm HIJ Hk s Hs. rewrite bind_run. specialize (Hm s Hs).
  destruct (m s) as [[a|e|] s1]; cbn [fst snd] in *;
    [by apply Hk | by apply HIJ..].
Qed.

Lemma clean_up_not_begun (l0 l : list event) :
  since l0 (λ ev, deletes ev = false) l → clean_up_last l0 l.
Proof.
  intros (l1 & -> & Hl1). exists l1, []. by rewrite app_nil_r.
Qed.

Lemma cell26_clean_up_only (predictor s3_bucket : string) :
  disciplined (λ ev, negb (is_clean_up ev)) 0
              (cell26 handle predictor s3_bucket).
Proof. unfold cell26. discipline. Qed.

Lemma cell26_leads (l0 : list event) (predictor s3_bucket : string) :
  leads (since l0 (λ ev, deletes ev = false)) (clean_up_last l0)
        (cell26 handle predictor s3_bucket).
Proof.
  intros s (l1 & Hs & Hl1).
  destruct (cell26_clean_up_only predictor s3_bucket s)
    as (l & -> & _ & _ & Hc).
  exists l1, l. rewrite Hs, app_assoc. split; [done|]. split; [done|].
  apply count_zero_Forall in Hc. eapply Forall_impl; [exact Hc|].
  intros ev. cbv beta. by destruct (is_clean_up ev).
Qed.

(** X15.  In a run of the whole notebook nothing is deleted before cell 26
    (no endpoint, no object, no local file), and from the first call of
    cell 26 on only calls of clean-up are made: the endpoint is not used
    and no file is read once clean-up has begun. *)
Theorem clean_up_comes_last (fuel : nat) (s : State Env) :
  clean_up_last (log s) (log (run_all handle fuel s).2).
Proof.
  assert (leads (since (log s) (λ ev, deletes ev = false))
                (clean_up_last (log s)) (run_all handle fuel)) as Hleads.
  { unfold run_all.
    repeat first
      [ apply leads_bind;
        [ apply since_keeps_not; solve [cell_quiet ltac:(reflexivity)]
        | apply clean_up_not_begun
        | intros ? ]
      | progress cbv zeta ].
    apply cell26_leads. }
  apply Hleads. exists []. by rewrite app_nil_r.
Qed.

End CleanUpLast.

(** ** A failure skips clean-up *)

Section NoRecovery.

Context {Env : Type}.
Variable handle : ∀ T, sdkE T → World Env → reply T * World Env.

Lemma unwinds_bind {A B} (l0 : list event) (m : M Env A) (k : A → M Env B) :
  keeps (since l0 (λ ev, deletes ev = false)) m →
  (∀ a, unwinds l0 (k a)) → unwinds l0 (m ≫= k).
Proof.
  intros Hm Hk s Hs. rewrite bind_run. specialize (Hm s Hs).
  destruct (m s) as [[a|e|] s1]; cbn [fst snd] in *; [by apply Hk|..].
  - destruct Hm as (l' & -> & Hl'). exists l'. split; [done|]. by left.
  - destruct Hm as (l' & -> & Hl'). by exists l'.
Qed.

Lemma cell26_outcome (predictor s3_bucket : string) (s : State Env) :
  ∃ l, log (cell26 handle predictor s3_bucket s).2 = log s ++ l
    ∧ Forall (λ ev, is_clean_up ev = true) l
    ∧ match (cell26 handle predictor s3_bucket s).1 with
      | Ok _ => True
      | OutOfFuel => False
      | Raised e => ∃ l1 ev, l = l1 ++ [ev] ∧ threw ev = Some e
      end.
Proof.
  unfold cell26.
  rewrite bind_run, call_run. cbn [fst snd world log].
  destruct (perform handle (DeleteEndpoint predictor) _) as [[[]|e] w1];
    cbn [fst snd world log].
  2: { eexists. split; [reflexivity|]. split; [by repeat constructor|].
       by exists [], (Ev (DeleteEndpoint predictor) (Threw e)). }
  rewrite bind_run, call_run. cbn [fst snd world log].
  destruct (perform handle (BotoResource "s3") _) as [[[]|e] w2];
    cbn [fst snd world log].
  2: { rewrite <- !app_assoc. eexists. split; [reflexivity|].
       split; [by repeat constructor|]. eexists [_], _. by split. }
  rewrite bind_run, call_run. cbn [fst snd world log].
  destruct (perform handle (DeleteObjects s3_bucket "sci-docs") _)
    as [[[]|e] w3]; cbn [fst snd world log].
  2: { rewrite <- !app_assoc. eexists. split; [reflexivity|].
       split; [by repeat constructor|]. eexists [_; _], _. by split. }
  rewrite bind_run, call_run. cbn [fst snd world log].
  destruct (perform handle (OsSystem "rm -rf data") _) as [[status|e] w4];
    cbn [fst snd world log].
  2: { rewrite <- !app_assoc. eexists. split; [reflexivity|].
       split; [by repeat constructor|]. eexists [_; _; _], _. by split. }
  rewrite <- !app_assoc. eexists. split; [reflexivity|].
  split; [by repeat constructor|done].
Qed.

Lemma cell26_unwinds (l0 : list event) (predictor s3_bucket : string) :
  unwinds l0 (cell26 handle predictor s3_bucket).
Proof.
  intros s (l1 & Hs & Hl1).
  destruct (cell26_outcome predictor s3_bucket s) as (l & Hlog & Hall & Hout).
  exists (l1 ++ l). rewrite Hlog, Hs, app_assoc. split; [done|].
  destruct (cell26 handle predictor s3_bucket s).1 as [[]|e|]; [done| |done].
  right. destruct Hout as (l' & ev & -> & Hev).
  exists (l1 ++ l'), ev. rewrite app_assoc. split; [done|]. split; [|done].
  apply Forall_app in Hall as [_ Hall]. by apply Forall_inv in Hall.
Qed.

(** X16.  The notebook has no recovery: when a run of the whole notebook
    raises, nothing has been deleted (the endpoint, if deployed, the
    objects in S3 and the local files are left in place), unless it is a
    call of clean-up itself that raised, as the last call of the run; and
    nothing has been deleted when a loop has not come to an end. *)
Theorem failure_skips_clean_up (fuel : nat) (s : State Env) :
  ∃ l, log (run_all handle fuel s).2 = log s ++ l
    ∧ ((run_all handle fuel s).1 = OutOfFuel →
       Forall (λ ev, deletes ev = false) l)
    ∧ (∀ e, (run_all handle fuel s).1 = Raised e →
         Forall (λ ev, deletes ev = false) l
         ∨ ∃ l1 ev, l = l1 ++ [ev] ∧ is_clean_up ev = true
                    ∧ threw ev = Some e).
Proof.
  assert (unwinds (log s) (run_all handle fuel)) as Hrun.
  { unfold run_all.
    repeat first
      [ apply unwinds_bind;
        [ apply since_keeps_not; solve [cell_quiet ltac:(reflexivity)]
        | intros ? ]
      | progress cbv zeta ].
    apply cell26_unwinds. }
  destruct (Hrun s) as (l & Hlog & Hout).
  { exists []. by rewrite app_nil_r. }
  exists l. split; [done|].
  destruct (run_all handle fuel s).1 as [[]|e|]; split; try done.
  intros e' [= <-]. done.
Qed.

End NoRecovery.

(** ** The asynchronous inference (cell 24) *)

Section Inference.

Context {Env : Type}.
Variable handle : ∀ T, sdkE T → World Env → reply T * World Env.

(** X17.  Cell 24 calls [predict_async] once, on the endpoint and the
    inputs it is given; when that returns it calls [get_result] once, on
    the response returned and with [WaiterConfig(max_attempts=24,
    delay=15)], and does nothing else until [get_result] is back; it then
    prints the result and ends with it.  When either call raises, the cell
    raises the same exception, prints nothing and does not call again.  How
    long [get_result] waits is the SDK's: the cell hands it a budget of 24
    attempts, 15 seconds apart. *)
Theorem inference_blocks_on_get_result
    (predictor : string) (inputs : option pystr) (s : State Env) :
  ∃ l, log (cell24 handle predictor inputs s).2 = log s ++ l
    ∧ ((∃ e, l = [Ev (PredictAsync predictor inputs) (Threw e)]
             ∧ (cell24 handle predictor inputs s).1 = Raised e)
       ∨ (∃ response e,
            l = [Ev (PredictAsync predictor inputs) (Returned response);
                 Ev (GetResult response (mkWaiter 24 15)) (Threw e)]
            ∧ (cell24 handle predictor inputs s).1 = Raised e)
       ∨ (∃ response result,
            l = [Ev (PredictAsync predictor inputs) (Returned response);
                 Ev (GetResult response (mkWaiter 24 15)) (Returned result);
                 Ev (PPrint result) (Returned ())]
            ∧ (cell24 handle predictor inputs s).1 = Ok result)).
Proof.
  unfold cell24.
  rewrite bind_run, call_run. cbn [fst snd world log].
  destruct (perform handle (PredictAsync predictor inputs) _)
    as [[response|e] w1]; cbn [fst snd world log].
  2: { eexists. split; [reflexivity|]. left. by exists e. }
  cbv zeta. rewrite bind_run, call_run. cbn [fst snd world log].
  destruct (perform handle (GetResult response _) _) as [[result|e] w2];
    cbn [fst snd world log].
  2: { rewrite <- !app_assoc. eexists. split; [reflexivity|].
       right. left. by exists response, e. }
  rewrite bind_run, call_run. cbn [perform show fst snd world log].
  rewrite ret_run. cbn [fst snd log].
  rewrite <- !app_assoc. eexists. split; [reflexivity|].
  right. right. by exists response, result.
Qed.

End Inference.

(** ** Instances on the scripted worlds *)

(** The second answer has no "TopicsDetectionJobProperties": one line is
    printed, for the first check, and the cell raises the [TypeError]. *)
Lemma poll_stops_at_answer_without_status_witness :
  (∃ l, log (cell14 (play_without_properties scenario_ok 1) 21 "job-1"
               (start_state ∅)).2 = log (start_state ∅) ++ l
    ∧ (None ∈ observed_statuses l →
       ∃ l' resp,
         l = l' ++ [Ev (DescribeTopicsDetectionJob "job-1") (Returned resp)]
         ∧ status_of resp = None
         ∧ (cell14 (play_without_properties scenario_ok 1) 21 "job-1"
              (start_state ∅)).1 = Raised (malformed_error resp)))
  ∧ observed_statuses
      (log (cell14 (play_without_properties scenario_ok 1) 21 "job-1"
              (start_state ∅)).2)
    = [Some "IN_PROGRESS"; None]
  ∧ (cell14 (play_without_properties scenario_ok 1) 21 "job-1"
       (start_state ∅)).1
    = Raised (TypeError "list indices must be integers or slices, not str").
Proof.
  split.
  - apply (poll_stops_at_answer_without_status
             (play_without_properties scenario_ok 1) 21 "job-1" (start_state ∅)).
  - split; vm_compute; reflexivity.
Defined.

(** The job of [scenario_ok] completes at the third check: three lines,
    numbered 1, 2 and 3. *)
Lemma poll_prints_numbered_lines_witness :
  (∃ l, log (cell14 (play scenario_ok) 21 "job-1" (start_state ∅)).2
        = log (start_state ∅) ++ l
    ∧ omap printed l
      = imap (λ i st, checking_line (S i) "job-1" st) (present_statuses l))
  ∧ omap printed (log (cell14 (play scenario_ok) 21 "job-1" (start_state ∅)).2)
    = ["Checking 1 of 20: Job job-1 status is IN_PROGRESS";
       "Checking 2 of 20: Job job-1 status is IN_PROGRESS";
       "Checking 3 of 20: Job job-1 status is COMPLETED"].
Proof.
  split.
  - apply (poll_prints_numbered_lines (play scenario_ok) 21 "job-1"
             (start_state ∅)).
  - vm_compute. reflexivity.
Defined.

(** The job of [scenario_failed] never completes: 20 sleeps of 60 seconds. *)
Lemma poll_sleeps_between_checks_witness :
  (∃ l, log (cell14 (play scenario_failed) 21 "job-1" (start_state ∅)).2
        = log (start_state ∅) ++ l
    ∧ (∀ v, (cell14 (play scenario_failed) 21 "job-1" (start_state ∅)).1 = Ok v →
            total_slept l + 60 = 60 * count is_describe l)
    ∧ (Forall clean l → Forall not_completed (observed_statuses l) →
       total_slept l = 1200))
  ∧ total_slept (log (cell14 (play scenario_failed) 21 "job-1" (start_state ∅)).2)
    = 1200
  ∧ total_slept (log (cell14 (play scenario_ok) 21 "job-1" (start_state ∅)).2)
    = 120.
Proof.
  split.
  - apply (poll_sleeps_between_checks (play scenario_failed) 21 "job-1"
             (start_state ∅)).
    unfold maximum_comprehend_status_checks. lia.
  - split; vm_compute; reflexivity.
Defined.

(** Clean-up of [cleanup_state] ends normally; run again, it raises at
    [delete_endpoint].  With a bucket that is not there, the endpoint of
    [cleanup_state] is deleted and the cell raises. *)
Lemma cleanup_stops_at_first_failure_witness :
  (cell26 (play scenario_ok) "pegasus-endpoint" "sagemaker-bucket"
     cleanup_state).1 = Ok ()
  ∧ (cell26 (play scenario_ok) "pegasus-endpoint" "sagemaker-bucket"
       (cell26 (play scenario_ok) "pegasus-endpoint" "sagemaker-bucket"
          cleanup_state).2).1
    = Raised endpoint_not_found
  ∧ ∃ e l,
      (cell26 (play scenario_ok) "pegasus-endpoint" "no-bucket" cleanup_state).1
      = Raised e
      ∧ log (cell26 (play scenario_ok) "pegasus-endpoint" "no-bucket"
               cleanup_state).2 = log cleanup_state ++ l
      ∧ count is_shell l = 0
      ∧ "pegasus-endpoint"
        ∉ endpoints (world (cell26 (play scenario_ok) "pegasus-endpoint"
                              "no-bucket" cleanup_state).2).
Proof.
  destruct (cleanup_stops_at_first_failure (play scenario_ok)
              "pegasus-endpoint" "sagemaker-bucket" cleanup_state)
    as (_ & _ & Hagain).
  destruct (cleanup_stops_at_first_failure (play scenario_ok)
              "pegasus-endpoint" "no-bucket" cleanup_state)
    as (_ & Hbucket & _).
  assert ((cell26 (play scenario_ok) "pegasus-endpoint" "sagemaker-bucket"
             cleanup_state).1 = Ok ()) as Hok by (vm_compute; reflexivity).
  split; [exact Hok|]. split.
  - rewrite (Hagain (cell26 (play scenario_ok) "pegasus-endpoint"
                       "sagemaker-bucket" cleanup_state).2); [done|].
    destruct (cell26 _ _ _ _) as [o s']. cbn [fst snd] in *. by subst o.
  - apply Hbucket.
    + by apply elem_of_singleton.
    + reflexivity.
Defined.

(** In the same run one endpoint is deployed, asked once and deleted. *)
Lemma endpoint_used_is_the_one_deployed_witness :
  endpoint_flow (log (run_all (play scenario_ok) 30 (start_state ∅)).2)
  ∧ omap deployed_endpoint (log (run_all (play scenario_ok) 30 (start_state ∅)).2)
    = ["pegasus-endpoint"]
  ∧ count names_endpoint (log (run_all (play scenario_ok) 30 (start_state ∅)).2)
    = 2.
Proof.
  split.
  - apply (endpoint_used_is_the_one_deployed (play scenario_ok) 30
             (start_state ∅)).
    intros l1 ev l2 Heq. destruct l1; discriminate Heq.
  - split; vm_compute; reflexivity.
Defined.

(** In the same run one job is started and its status is checked three
    times. *)
Lemma status_checks_are_of_the_job_started_witness :
  job_flow (log (run_all (play scenario_ok) 30 (start_state ∅)).2)
  ∧ omap started_job (log (run_all (play scenario_ok) 30 (start_state ∅)).2)
    = [Some "job-1"]
  ∧ count is_describe (log (run_all (play scenario_ok) 30 (start_state ∅)).2)
    = 3.
Proof.
  split.
  - apply (status_checks_are_of_the_job_started (play scenario_ok) 30
             (start_state ∅)).
    intros l1 ev l2 Heq. destruct l1; discriminate Heq.
  - split; vm_compute; reflexivity.
Defined.

(** Cell 16 on the answer of the completed job: the table of
    [scenario_ok] is shown. *)
Lemma results_shown_are_the_join_witness :
  ∃ l, log (cell16 (play scenario_ok) completed_answer (start_state ∅)).2
       = log (start_state ∅) ++ l
    ∧ (∀ results,
         (cell16 (play scenario_ok) completed_answer (start_state ∅)).1
         = Ok results →
         ∃ uri url topic_terms doc_topics,
           output_uri completed_answer = Some uri
           ∧ omap parsed_url l = [(uri, url)]
           ∧ omap download_of l = [("data", url.1, url.2)]
           ∧ omap topic_terms_read l = [topic_terms]
           ∧ omap doc_topics_read l = [doc_topics]
           ∧ omap displayed l = [results_of topic_terms doc_topics]
           ∧ results = Some (results_of topic_terms doc_topics))
    ∧ (∀ e, (cell16 (play scenario_ok) completed_answer (start_state ∅)).1
            = Raised e → omap displayed l = []).
Proof.
  apply (results_shown_are_the_join (play scenario_ok) completed_answer
           (start_state ∅)).
  reflexivity.
Defined.

(** Cell 12 in the world of [scenario_ok]: the job "job-1" is submitted. *)
Lemma job_submission_cases_witness :
  (∃ l, log (cell12 (play scenario_ok) "sagemaker-bucket" (start_state ∅)).2
        = log (start_state ∅) ++ l
     ∧ length (omap start_of l) = 1
     ∧ omap printed l = ["Job job-1 submitted"])
  ∧ (cell12 (play scenario_ok) "sagemaker-bucket" (start_state ∅)).1
    = Ok "job-1".
Proof.
  destruct (job_submission_cases (play scenario_ok) "sagemaker-bucket"
              (start_state ∅)) as (l & Hlog & _).
  split; [|vm_compute; reflexivity].
  exists l. split; [exact Hlog|].
  assert (l = log (cell12 (play scenario_ok) "sagemaker-bucket"
                     (start_state ∅)).2) as -> by (by rewrite Hlog).
  split; vm_compute; reflexivity.
Defined.

(** The run of [scenario_ok]: one text is sent to the endpoint. *)
Lemma endpoint_receives_short_flat_text_witness :
  (∃ l, log (run_all (play scenario_ok) 30 (start_state ∅)).2
        = log (start_state ∅) ++ l
     ∧ Forall payload_ok l)
  ∧ count is_predict (log (run_all (play scenario_ok) 30 (start_state ∅)).2) = 1.
Proof.
  split.
  - apply (endpoint_receives_short_flat_text (play scenario_ok) 30
             (start_state ∅)).
  - vm_compute. reflexivity.
Defined.

(** The tables of [scenario_ok]: topics 0 and 1 have terms, topic 7 of
    "a.txt" has none. *)
Lemma term_missing_iff_topic_absent_witness :
  ((∀ k, k ∈ (topics_of (topic_terms_csv scenario_ok)).*1
         ↔ ∃ x, x ∈ topic_terms_csv scenario_ok ∧ TopicTerms.topic x = k)
   ∧ StronglySorted Z.lt (topics_of (topic_terms_csv scenario_ok)).*1
   ∧ (∀ r, r ∈ results_of (topic_terms_csv scenario_ok)
                          (doc_topics_csv scenario_ok) →
           Results.term r = None
           ↔ ∀ x, x ∈ topic_terms_csv scenario_ok →
                  TopicTerms.topic x ≠ Results.topic r))
  ∧ (topics_of (topic_terms_csv scenario_ok)).*1 = [0%Z; 1%Z]
  ∧ map Results.term (results_of (topic_terms_csv scenario_ok)
                                 (doc_topics_csv scenario_ok))
    = [Some "tumor, cell"; None; Some "protein, gene"].
Proof.
  split.
  - apply (term_missing_iff_topic_absent (topic_terms_csv scenario_ok)
             (doc_topics_csv scenario_ok)).
  - split; vm_compute; reflexivity.
Defined.

Lemma results_by_docname_then_proportion_witness :
  StronglySorted docname_then_proportion
    (results_of (topic_terms_csv scenario_ok) (doc_topics_csv scenario_ok))
  ∧ map Results.docname (results_of (topic_terms_csv scenario_ok)
                                    (doc_topics_csv scenario_ok))
    = ["a.txt"; "a.txt"; "b.txt"].
Proof.
  split.
  - apply (results_by_docname_then_proportion (topic_terms_csv scenario_ok)
             (doc_topics_csv scenario_ok)).
  - vm_compute. reflexivity.
Defined.

(** The run of [scenario_ok] deletes three times, at its end. *)
Lemma clean_up_comes_last_witness :
  clean_up_last (log (start_state ∅))
    (log (run_all (play scenario_ok) 30 (start_state ∅)).2)
  ∧ count deletes (log (run_all (play scenario_ok) 30 (start_state ∅)).2) = 3.
Proof.
  split.
  - apply (clean_up_comes_last (play scenario_ok) 30 (start_state ∅)).
  - vm_compute. reflexivity.
Defined.

(** The run of [scenario_failed] raises at the end of the poll and deletes
    nothing. *)
Lemma failure_skips_clean_up_witness :
  (∃ l, log (run_all (play scenario_failed) 30 (start_state ∅)).2
        = log (start_state ∅) ++ l
     ∧ ((run_all (play scenario_failed) 30 (start_state ∅)).1 = OutOfFuel →
        Forall (λ ev, deletes ev = false) l)
     ∧ (∀ e, (run_all (play scenario_failed) 30 (start_state ∅)).1 = Raised e →
          Forall (λ ev, deletes ev = false) l
          ∨ ∃ l1 ev, l = l1 ++ [ev] ∧ is_clean_up ev = true
                     ∧ threw ev = Some e))
  ∧ is_raised (run_all (play scenario_failed) 30 (start_state ∅)).1 = true
  ∧ count deletes (log (run_all (play scenario_failed) 30 (start_state ∅)).2) = 0.
Proof.
  split.
  - apply (failure_skips_clean_up (play scenario_failed) 30 (start_state ∅)).
  - split; vm_compute; reflexivity.
Defined.

(** In the world of [scenario_ok] all 25 articles are downloaded, then
    uploaded. *)
Lemma copy_uploads_after_all_downloads_witness :
  (∃ k downloads upload,
    log (cell7 (play scenario_ok) "sagemaker-bucket" (start_state ∅)).2
    = log (start_state ∅) ++ downloads ++ upload
    ∧ omap download_of downloads = map article_download (take k article_names)
    ∧ omap printed downloads = take k article_names
    ∧ omap upload_of downloads = []
    ∧ ((k = 25 ∧ Forall clean downloads
        ∧ ∃ r, upload = [Ev (UploadData local_raw_data_dir "sagemaker-bucket"
                                "sci-docs/data/raw") r]
               ∧ (cell7 (play scenario_ok) "sagemaker-bucket" (start_state ∅)).1
                 = match r with
                   | Returned _ => Ok ()
                   | Threw e => Raised e
                   end)
       ∨ (upload = []
          ∧ ∃ l' a e,
              downloads
              = l' ++ [Ev (DownloadData local_raw_data_dir pmc_bucket
                             (pmc_prefix +:+ a)) (Threw e)]
              ∧ Forall clean l'
              ∧ 1 ≤ k ∧ article_names !! (k - 1) = Some a
              ∧ (cell7 (play scenario_ok) "sagemaker-bucket" (start_state ∅)).1
                = Raised e)))
  ∧ (cell7 (play scenario_ok) "sagemaker-bucket" (start_state ∅)).1 = Ok ()
  ∧ length (log (cell7 (play scenario_ok) "sagemaker-bucket" (start_state ∅)).2)
    = 51.
Proof.
  split.
  - apply (copy_uploads_after_all_downloads (play scenario_ok)
             "sagemaker-bucket" (start_state ∅)).
  - split; vm_compute; reflexivity.
Defined.


(** Cell 18 on the same answer and the table of [scenario_ok]; and with
    [results] not bound. *)
Lemma sampled_document_is_shown_witness :
  (∃ l, log (cell18 (play scenario_ok) completed_answer
               (Some (results_of (topic_terms_csv scenario_ok)
                                 (doc_topics_csv scenario_ok)))
               (start_state ∅)).2
        = log (start_state ∅) ++ l
     ∧ omap printed l
       = ["Document name is a.txt"; "Identified terms are tumor, cell"])
  ∧ (cell18 (play scenario_ok) completed_answer None (start_state ∅)).1
    = Raised (NameError "results").
Proof.
  destruct (sampled_document_is_shown (play scenario_ok) completed_answer
              (Some (results_of (topic_terms_csv scenario_ok)
                                (doc_topics_csv scenario_ok)))
              (start_state ∅) eq_refl)
    as (l & Hlog & Hok & _).
  destruct (sampled_document_is_shown (play scenario_ok) completed_answer
              None (start_state ∅) eq_refl)
    as (l' & Hlog' & _ & _ & Hnone).
  split.
  - exists l. split; [exact Hlog|].
    destruct (Hok ltac:(vm_compute; reflexivity))
      as (uri & url & frame & row & rest & _ & Hframe & _ & Hs & -> & _).
    injection Hframe as <-.
    assert (omap sampled l
            = omap sampled
                (log (cell18 (play scenario_ok) completed_answer
                        (Some (results_of (topic_terms_csv scenario_ok)
                                          (doc_topics_csv scenario_ok)))
                        (start_state ∅)).2)) as Hsame by (by rewrite Hlog).
    rewrite Hs in Hsame. vm_compute in Hsame. injection Hsame as -> _.
    reflexivity.
  - destruct (Hnone eq_refl) as (_ & _ & _ & _ & _ & Hraise).
    apply Hraise; [by eexists|].
    assert (l' = log (cell18 (play scenario_ok) completed_answer None
                        (start_state ∅)).2) as -> by (by rewrite Hlog').
    vm_compute. by repeat constructor.
Defined.

(** Cell 24 in the world of [scenario_ok]: the result is printed. *)
Lemma inference_blocks_on_get_result_witness :
  (∃ l, log (cell24 (play scenario_ok) "pegasus-endpoint" None
               (start_state ∅)).2 = log (start_state ∅) ++ l
     ∧ length l = 3)
  ∧ (cell24 (play scenario_ok) "pegasus-endpoint" None (start_state ∅)).1
    = Ok "summary".
Proof.
  destruct (inference_blocks_on_get_result (play scenario_ok)
              "pegasus-endpoint" None (start_state ∅)) as (l & Hlog & Hcases).
  assert ((cell24 (play scenario_ok) "pegasus-endpoint" None (start_state ∅)).1
          = Ok "summary") as Hok by (vm_compute; reflexivity).
  split; [|exact Hok].
  exists l. split; [exact Hlog|].
  destruct Hcases as [(e & -> & He)|[(response & e & -> & He)
                                    |(response & result & -> & _)]];
    [rewrite Hok in He; discriminate He.. | reflexivity].
Defined.
